(** * FinBERT fine-tuning notebook: data wrangling, split and metric

    A shallow embedding of the data path of [finetune.ipynb]: CSV ingestion
    and label encoding (pandas), the two-stage stratified split
    (scikit-learn over numpy's generator), baseline scoring, the datasets
    and their tokenization to a fixed length, the [compute_metrics]
    callback, and the order in which the cells call the libraries.

    The notebook is a sequence of library calls.  Each call is embedded as
    the function the library documents; what a call takes from outside the
    program (the CSV file, the model, the word-piece vocabulary, the bits of
    the random generator) is a field of an interface record.  Floating-point
    expressions of the split ([test_size * n_samples], the class shares of
    [_approximate_mode]) are evaluated in exact rational arithmetic. *)

From Stdlib Require Import QArith Qround Qcanon.
From stdpp Require Import base list strings numbers sorting gmap.

Open Scope Z_scope.

(** ** Python values, exceptions *)

Module Py.

(** A cell of a dataframe: a missing value (the float [nan]), a string, an
    integer, a finite float or a bool. *)
Inductive scalar :=
  | NaN
  | Str (s : string)
  | Int (z : Z)
  | Float (q : Qc)
  | Bool (b : bool).

#[global] Instance scalar_eq_dec : EqDecision scalar.
Proof. solve_decision. Defined.

(** An exception: its class and its message. *)
Inductive exn := Exn (cls msg : string).

#[global] Instance exn_eq_dec : EqDecision exn.
Proof. solve_decision. Defined.

Definition ValueError := Exn "ValueError".
Definition TypeError := Exn "TypeError".
Definition KeyError := Exn "KeyError".
Definition IndexError := Exn "IndexError".

(** A computation that returns or raises. *)
Definition result (A : Type) : Type := (exn + A)%type.

Definition raise {A} (e : exn) : result A := inl e.

#[global] Instance result_ret : MRet result := fun _ x => inr x.
#[global] Instance result_bind : MBind result := fun _ _ f m =>
  match m with
  | inl e => inl e
  | inr x => f x
  end.
#[global] Instance result_fmap : FMap result := fun _ _ f m =>
  match m with
  | inl e => inl e
  | inr x => inr (f x)
  end.

(** The number a numeric value stands for. *)
Definition num (v : scalar) : option Qc :=
  match v with
  | Int z => Some (Qc_of_Z z)
  | Float q => Some q
  | Bool b => Some (Qc_of_Z (if b then 1 else 0))
  | _ => None
  end.

(** [a == b]: numbers compare by value, strings by content, [nan] equals
    nothing. *)
Definition py_eq (a b : scalar) : bool :=
  match a, b with
  | Str s, Str t => bool_decide (s = t)
  | NaN, _ | _, NaN => false
  | _, _ =>
      match num a, num b with
      | Some x, Some y => bool_decide (x = y)
      | _, _ => false
      end
  end.

(** The integer an index stands for: an int, or a bool as 0 or 1. *)
Definition index_of (i : scalar) : option Z :=
  match i with
  | Int z => Some z
  | Bool b => Some (if b then 1 else 0)
  | _ => None
  end.

(** [l[i]] on a list: negative indices count from the end. *)
Definition list_getitem {A} (l : list A) (i : scalar) : result A :=
  match index_of i with
  | Some z =>
      let n := Z.of_nat (length l) in
      let z' := if z <? 0 then z + n else z in
      if z' <? 0 then raise (IndexError "list index out of range")
      else match l !! Z.to_nat z' with
           | Some x => mret x
           | None => raise (IndexError "list index out of range")
           end
  | None => raise (TypeError "list indices must be integers or slices")
  end.

(** [a / b] on integers. *)
Definition truediv (a b : Z) : result scalar :=
  if bool_decide (b = 0)
  then raise (Exn "ZeroDivisionError" "division by zero")
  else mret (Float (Qc_of_Z a / Qc_of_Z b)%Qc).

(** [d[k]] on a dict with string keys. *)
Definition dict_getitem {A} (d : gmap string A) (k : string) : result A :=
  match d !! k with
  | Some v => mret v
  | None => raise (KeyError k)
  end.

(** [l[lo:hi]] on a list. *)
Definition slice {A} (l : list A) (lo hi : Z) : list A :=
  let n := Z.of_nat (length l) in
  let norm i := if i <? 0 then Z.max 0 (i + n) else Z.min i n in
  let lo' := norm lo in
  let hi' := norm hi in
  take (Z.to_nat (hi' - lo')) (drop (Z.to_nat lo') l).

End Py.

Import Py.

(** ** pandas *)

Module Pandas.

(** A column. *)
Abbreviation Series := (list scalar).

(** A dataframe, column by column: the row labels and, per column, its label
    and its values. *)
Record DataFrame := mkDataFrame {
  index : list Z;
  columns : list (scalar * Series)
}.

(** [len(df)], [df.shape[0]]. *)
Definition nrows (df : DataFrame) : nat := length (index df).

(** [pd.isnull] on one value. *)
Definition isnull (v : scalar) : bool :=
  match v with
  | NaN => true
  | _ => false
  end.

(** [df.fillna(value)]. *)
Definition fillna (value : scalar) (df : DataFrame) : DataFrame :=
  mkDataFrame (index df)
    (map (fun c => (c.1, map (fun v => if isnull v then value else v) c.2))
       (columns df)).

(** [df.rename(columns=f)]: the mapper is applied to every column label, and
    what it raises is raised. *)
Definition rename (f : scalar -> result scalar) (df : DataFrame)
  : result DataFrame :=
  cols ← mapM (fun c => l ← f c.1; mret (l, c.2)) (columns df);
  mret (mkDataFrame (index df) cols).

(** [df[key]] for a label that names one column. *)
Definition getitem (df : DataFrame) (key : scalar) : result Series :=
  match list_find (fun c => c.1 = key) (columns df) with
  | Some (_, c) => mret c.2
  | None => raise (KeyError "column")
  end.

(** [df[key] = s]: the column is overwritten in place, or added last. *)
Definition setitem (df : DataFrame) (key : scalar) (s : Series) : DataFrame :=
  match list_find (fun c => c.1 = key) (columns df) with
  | Some (i, _) => mkDataFrame (index df) (<[i := (key, s)]> (columns df))
  | None => mkDataFrame (index df) (columns df ++ [(key, s)])
  end.

(** Whether a value is the one [replace] looks for: missing matches missing,
    anything else by [==]. *)
Definition replace_match (v target : scalar) : bool :=
  (isnull v && isnull target) || py_eq v target.

(** One value under [replace(to_replace, value)] with two lists: the pairs
    are gone through in order, each entry of [to_replace] compared with the
    value as it was before the call, and a pair that matches writes its
    replacement. *)
Definition replace1 (to_replace value : list scalar) (v : scalar) : scalar :=
  foldl (fun new p => if replace_match v p.1 then p.2 else new) v
    (zip to_replace value).

(** [s.replace(to_replace, value)] with two lists. *)
Definition replace (to_replace value : list scalar) (s : Series)
  : result Series :=
  if bool_decide (length to_replace = length value)
  then mret (map (replace1 to_replace value) s)
  else raise (ValueError "Replacement lists must match in length").

(** [df.isnull().values.any()]. *)
Definition isnull_values_any (df : DataFrame) : bool :=
  existsb (fun c => existsb isnull c.2) (columns df).

(** [a.eq(b)], element by element. *)
Definition Series_eq (a b : Series) : list bool := zip_with py_eq a b.

(** [df.iloc[positions]]. *)
Definition iloc (df : DataFrame) (positions : list nat) : result DataFrame :=
  let pick {A} (l : list A) : result (list A) :=
    mapM (fun p => match l !! p with
                   | Some x => mret x
                   | None => raise (IndexError "positional indexers are out-of-bounds")
                   end) positions in
  idx ← pick (index df);
  cols ← mapM (fun c => v ← pick c.2; mret (c.1, v)) (columns df);
  mret (mkDataFrame idx cols).

(** [df.reset_index(drop=True)]. *)
Definition RangeIndex (n : nat) : list Z := map Z.of_nat (seq 0 n).

Definition reset_index_drop (df : DataFrame) : DataFrame :=
  mkDataFrame (RangeIndex (nrows df)) (columns df).

(** [df[[k1, k2, ...]]]. *)
Definition select (df : DataFrame) (keys : list scalar) : result DataFrame :=
  cols ← mapM (fun k => c ← getitem df k; mret (k, c)) keys;
  mret (mkDataFrame (index df) cols).

(** [df.columns = names]. *)
Definition set_columns (df : DataFrame) (names : list scalar)
  : result DataFrame :=
  if bool_decide (length names = length (columns df))
  then mret (mkDataFrame (index df)
               (zip_with (fun n c => (n, c.2)) names (columns df)))
  else raise (ValueError "Length mismatch").

(** [df.reindex(labels)], column by column: at each label the value of the
    row that carries it, and a missing value where no row does. *)
Definition reindex (labels : list Z) (df : DataFrame)
  : list (scalar * Series) :=
  map (fun c =>
         (c.1, map (fun l => match list_find (fun l' => l' = l) (index df) with
                             | Some (p, _) => default NaN (c.2 !! p)
                             | None => NaN
                             end) labels))
    (columns df).

(** [labels.unique()]: the labels in the order of their first occurrence. *)
Definition Index_unique (labels : list Z) : list Z :=
  foldl (fun seen l => if decide (l ∈ seen) then seen else seen ++ [l])
    [] labels.

(** [a.union(b, sort=False)] on two indexes: [a] itself when [b] is empty
    or equal to it; otherwise the labels of [a] followed by those of [b]
    that [a] lacks, or, when [b] has a label twice, every label as often as
    the index that has it most often. *)
Definition Index_union (a b : list Z) : list Z :=
  if decide (b = [] \/ a = b) then a
  else if decide (a = []) then b
  else if decide (NoDup b) then a ++ filter (fun l => l ∉ a) b
  else
    let count (l : Z) (labels : list Z) :=
      length (filter (fun l' => l' = l) labels) in
    flat_map (fun l => replicate (Nat.max (count l a) (count l b)) l)
      (Index_unique (a ++ b)).

(** [pd.concat([a, b], axis=1)]: the columns of both, joined on the row
    labels.  The index is the union of the two; a frame that has this index
    is taken as it is, and the other is reindexed to it, which pandas
    refuses when the index of that frame has a label twice. *)
Definition concat_axis1 (a b : DataFrame) : result DataFrame :=
  let labels := Index_union (index a) (index b) in
  let aligned (df : DataFrame) : result (list (scalar * Series)) :=
    if decide (labels = index df) then mret (columns df)
    else if decide (NoDup (index df)) then mret (reindex labels df)
    else raise (Exn "InvalidIndexError"
                  "Reindexing only valid with uniquely valued Index objects")
  in
  cols_a ← aligned a;
  cols_b ← aligned b;
  mret (mkDataFrame labels (cols_a ++ cols_b)).

End Pandas.

(** ** The notebook's ingestion cell *)

Module Ingest.
Import Pandas.

(** [lambda x: ["label", "sentence"][x]] *)
Definition column_name (x : scalar) : result scalar :=
  list_getitem [Str "label"; Str "sentence"] x.

Definition label_names : list scalar :=
  [Str "neutral"; Str "positive"; Str "negative"].
Definition label_codes : list scalar := [Int 0; Int 1; Int 2].

(** [df["label"] = df["label"].replace(["neutral","positive","negative"],[0,1,2])] *)
Definition encode_labels (df : DataFrame) : result DataFrame :=
  col ← getitem df (Str "label");
  col' ← replace label_names label_codes col;
  mret (setitem df (Str "label") col').

(** The cell, from the frame [pd.read_csv] returned. *)
Definition load (raw : DataFrame) : result DataFrame :=
  df ← rename column_name (fillna (Str "") raw);
  encode_labels df.

(** The encoding of one label value. *)
Definition encode (v : scalar) : scalar := replace1 label_names label_codes v.

End Ingest.

(** ** numpy *)

Module Numpy.

(** [numpy.random.RandomState]: the generator's state, seeding, and the one
    draw the split uses, [rng.permutation(n)], a shuffle of [range(n)]. *)
Class RandomState := {
  state : Type;
  seed_state : Z -> state;
  permutation : nat -> state -> list nat * state;
  permutation_Permutation n s : (permutation n s).1 ≡ₚ seq 0 n
}.

Section generator.
Context `{RandomState}.

(** Code that draws from a generator and may raise. *)
Definition Rand (A : Type) : Type := state -> result (A * state).

#[global] Instance Rand_ret : MRet Rand := fun _ x s => inr (x, s).
#[global] Instance Rand_bind : MBind Rand := fun _ _ f m s =>
  match m s with
  | inl e => inl e
  | inr (x, s') => f x s'
  end.

Definition throw {A} (e : exn) : Rand A := fun _ => inl e.
Definition lift {A} (r : result A) : Rand A := fun s =>
  match r with
  | inl e => inl e
  | inr x => inr (x, s)
  end.

Definition rng_permutation (n : nat) : Rand (list nat) :=
  fun s => inr (permutation n s).

(** [a[idx]] with a list of positions. *)
Definition getitems {A} (a : list A) (idx : list nat) : result (list A) :=
  mapM (fun p => match a !! p with
                 | Some x => mret x
                 | None => raise (IndexError "index out of bounds")
                 end) idx.

(** [rng.permutation(a)] on an array. *)
Definition rng_permutation_of {A} (a : list A) : Rand (list A) :=
  idx ← rng_permutation (length a);
  lift (getitems a idx).

(** [rng.choice(a, size=size, replace=False)]. *)
Definition rng_choice {A} (a : list A) (size : Z) : Rand (list A) :=
  if size <? 0 then throw (ValueError "negative dimensions are not allowed")
  else if Z.of_nat (length a) <? size
  then throw (ValueError "Cannot take a larger sample than population when 'replace=False'")
  else idx ← rng_permutation (length a);
       lift (getitems a (take (Z.to_nat size) idx)).

End generator.

(** [a.take(idx, mode="clip")]: positions past the end read the last
    element. *)
Definition take_clip {A} (a : list A) (idx : list nat) : list A :=
  omap (fun p => a !! Nat.min p (length a - 1)) idx.

(** [np.where(a == v)]. *)
Definition where_eq `{EqDecision A} (a : list A) (v : A) : list nat :=
  filter (fun i => a !! i = Some v) (seq 0 (length a)).

(** [a[inds] += 1]. *)
Definition add_at (inds : list nat) (a : list Z) : list Z :=
  imap (fun i x => if bool_decide (i ∈ inds) then x + 1 else x) a.

Definition sum (a : list Z) : Z := foldr Z.add 0 a.

(** What [np.unique] compares: numbers by value, strings by content. *)
Inductive key := KNum (q : Qc) | KStr (s : string).

#[global] Instance key_eq_dec : EqDecision key.
Proof. solve_decision. Defined.

Definition key_of (v : scalar) : option key :=
  match v with
  | NaN => None
  | Str s => Some (KStr s)
  | Int z => Some (KNum (Qc_of_Z z))
  | Float q => Some (KNum q)
  | Bool b => Some (KNum (Qc_of_Z (if b then 1 else 0)))
  end.

Definition key_le (a b : key) : Prop :=
  match a, b with
  | KNum x, KNum y => (x <= y)%Qc
  | KStr s, KStr t => String.leb s t = true
  | KNum _, KStr _ => True
  | KStr _, KNum _ => False
  end.

#[global] Instance key_le_dec : RelDecision key_le.
Proof. intros [x|s] [y|t]; simpl; apply _. Defined.

Definition is_num (k : key) : bool :=
  match k with KNum _ => true | KStr _ => false end.

(** [np.unique(y, return_inverse=True)]: the sorted distinct values and,
    for each element, the position of its value among them.  Numbers and
    strings do not compare. *)
Definition unique_inverse (y : list scalar) : result (list key * list nat) :=
  match mapM key_of y with
  | None => raise (ValueError "Input y contains NaN.")
  | Some keys =>
      if forallb is_num keys || forallb (fun k => negb (is_num k)) keys
      then
        let classes := merge_sort key_le (remove_dups keys) in
        let y_indices :=
          map (fun k => from_option fst 0%nat
                          (list_find (fun c => c = k) classes)) keys in
        mret (classes, y_indices)
      else raise (TypeError "'<' not supported between instances of 'str' and 'int'")
  end.

(** [np.bincount(a)] for values below [n]. *)
Definition bincount (n : nat) (a : list nat) : list Z :=
  map (fun k => Z.of_nat (length (filter (fun x => x = k) a))) (seq 0 n).

(** What [np.argmax] compares: scores in a total preorder.  For floats this
    is the order of the numbers with [nan] above them all, which is where
    the scan below stops as numpy's does: at the first [nan]. *)
Class Score (T : Type) := {
  score_le : T -> T -> bool;
  score_le_total x y : score_le x y = true \/ score_le y x = true;
  score_le_trans x y z :
    score_le x y = true -> score_le y z = true -> score_le x z = true
}.

(** The scan of numpy's [argmax] kernel: [mp] is the greatest score so far,
    [max_ind] its position, [i] the position of the head of [ip]; the
    maximum moves when the head is not [<= mp]. *)
Fixpoint argmax_scan `{Score T} (mp : T) (max_ind i : nat) (ip : list T) : nat :=
  match ip with
  | [] => max_ind
  | x :: ip' =>
      if negb (score_le x mp)
      then argmax_scan x i (S i) ip'
      else argmax_scan mp max_ind (S i) ip'
  end.

(** [np.argmax] of one row of scores: the first position of the greatest. *)
Definition argmax `{Score T} (row : list T) : result nat :=
  match row with
  | [] => raise (ValueError "attempt to get argmax of an empty sequence")
  | x :: ip => mret (argmax_scan x 0%nat 1%nat ip)
  end.

(** [np.argmax(a, axis=1)]. *)
Definition argmax_axis1 `{Score T} (a : list (list T)) : result (list nat) :=
  mapM argmax a.

End Numpy.

(** ** scikit-learn *)

Module Sklearn.
Import Pandas Numpy.

(** A [test_size] or [train_size]: a float (a share) or an int (a count). *)
Inductive size := Fraction (q : Qc) | Count (z : Z).

Definition size_out_of_range (n_samples : Z) (s : option size) : bool :=
  match s with
  | Some (Count z) => (n_samples <=? z) || (z <=? 0)
  | Some (Fraction q) =>
      bool_decide (q <= 0)%Qc || bool_decide (1 <= q)%Qc
  | None => false
  end.

Definition _validate_shuffle_split (n_samples : Z)
    (test_size train_size default_test_size : option size) : result (Z * Z) :=
  let test_size :=
    match test_size, train_size with
    | None, None => default_test_size
    | _, _ => test_size
    end in
  if size_out_of_range n_samples test_size
  then raise (ValueError "test_size should be either positive and smaller than the number of samples or a float in the (0, 1) range")
  else if size_out_of_range n_samples train_size
  then raise (ValueError "train_size should be either positive and smaller than the number of samples or a float in the (0, 1) range")
  else if match test_size, train_size with
          | Some (Fraction t), Some (Fraction r) => bool_decide (1 < r + t)%Qc
          | _, _ => false
          end
  then raise (ValueError "The sum of test_size and train_size should be in the (0, 1) range")
  else
    let n_test :=
      match test_size with
      | Some (Fraction q) => Some (Qceiling (q * Qc_of_Z n_samples)%Qc)
      | Some (Count z) => Some z
      | None => None
      end in
    let n_train :=
      match train_size with
      | Some (Fraction q) => Some (Qfloor (q * Qc_of_Z n_samples)%Qc)
      | Some (Count z) => Some z
      | None => None
      end in
    match
      match n_train, n_test with
      | None, Some t => Some (n_samples - t, t)
      | Some r, None => Some (r, n_samples - r)
      | Some r, Some t => Some (r, t)
      | None, None => None
      end
    with
    | None => raise (TypeError "unsupported operand type(s)")
    | Some (n_train, n_test) =>
        if n_samples <? n_train + n_test
        then raise (ValueError "The sum of train_size and test_size should be smaller than the number of samples")
        else if n_train =? 0
        then raise (ValueError "the resulting train set will be empty")
        else mret (n_train, n_test)
    end.

Section split.
Context `{RandomState}.

(** The loop of [_approximate_mode] over the distinct remainders, greatest
    first: classes with that remainder get one more draw each, chosen at
    random when fewer draws are left than there are such classes. *)
Fixpoint add_by_remainder (values remainder : list Qc) (floored : list Z)
    (need_to_add : Z) : Rand (list Z) :=
  match values with
  | [] => mret floored
  | value :: values =>
      let inds := where_eq remainder value in
      let add_now := Z.min (Z.of_nat (length inds)) need_to_add in
      inds ← rng_choice inds add_now;
      let floored := add_at inds floored in
      let need_to_add := need_to_add - add_now in
      if need_to_add =? 0 then mret floored
      else add_by_remainder values remainder floored need_to_add
  end.

Definition _approximate_mode (class_counts : list Z) (n_draws : Z)
  : Rand (list Z) :=
  let total := Qc_of_Z (sum class_counts) in
  let continuous :=
    map (fun c => (Qc_of_Z c / total * Qc_of_Z n_draws)%Qc) class_counts in
  let floored := map (fun x : Qc => Qfloor x) continuous in
  let need_to_add := n_draws - sum floored in
  if 0 <? need_to_add then
    let remainder :=
      zip_with (fun x f => (x - Qc_of_Z f)%Qc) continuous floored in
    let values := reverse (merge_sort Qcle (remove_dups remainder)) in
    add_by_remainder values remainder floored need_to_add
  else mret floored.

(** The draws of one class: its positions are shuffled, the first [n_i] go
    to the train side and the next [t_i] to the test side. *)
Fixpoint draw_classes (class_counts : list Z) (class_indices : list (list nat))
    (n_i t_i : list Z) : Rand (list nat * list nat) :=
  match class_counts, class_indices, n_i, t_i with
  | c :: class_counts, ci :: class_indices, n :: n_i, t :: t_i =>
      permutation ← rng_permutation (Z.to_nat c);
      let perm_indices_class_i := take_clip ci permutation in
      '(train, test) ← draw_classes class_counts class_indices n_i t_i;
      mret (slice perm_indices_class_i 0 n ++ train,
            slice perm_indices_class_i n (n + t) ++ test)
  | _, _, _, _ => mret ([], [])
  end.

(** [StratifiedShuffleSplit._iter_indices], first split. *)
Definition _iter_indices (n_samples : Z) (y : list scalar)
    (test_size train_size : option size) : Rand (list nat * list nat) :=
  '(n_train, n_test) ←
     lift (_validate_shuffle_split n_samples test_size train_size
             (Some (Fraction (Q2Qc (1 # 10)))));
  '(classes, y_indices) ← lift (unique_inverse y);
  let n_classes := length classes in
  let class_counts := bincount n_classes y_indices in
  if bool_decide (Exists (fun c => c < 2) class_counts)
  then throw (ValueError "The least populated class in y has only 1 member, which is too few. The minimum number of groups for any class cannot be less than 2.")
  else if n_train <? Z.of_nat n_classes
  then throw (ValueError "The train_size should be greater or equal to the number of classes")
  else if n_test <? Z.of_nat n_classes
  then throw (ValueError "The test_size should be greater or equal to the number of classes")
  else
    let class_indices :=
      map (fun k => where_eq y_indices k) (seq 0 n_classes) in
    n_i ← _approximate_mode class_counts n_train;
    let class_counts_remaining := zip_with Z.sub class_counts n_i in
    t_i ← _approximate_mode class_counts_remaining n_test;
    '(train, test) ← draw_classes class_counts class_indices n_i t_i;
    train ← rng_permutation_of train;
    test ← rng_permutation_of test;
    mret (train, test).

(** [check_random_state(seed)] around code that draws: [None] is numpy's
    global generator, which the draws advance; an int seeds a generator of
    its own and leaves the global one alone. *)
Definition with_random_state {A} (random_state : option Z) (body : Rand A)
  : Rand A :=
  match random_state with
  | None => body
  | Some seed => fun global =>
      match body (seed_state seed) with
      | inl e => inl e
      | inr (x, _) => inr (x, global)
      end
  end.

(** [StratifiedShuffleSplit(...).split(X, y)], first split. *)
Definition StratifiedShuffleSplit_split (test_size train_size : option size)
    (random_state : option Z) (n_samples : Z) (y : list scalar)
  : Rand (list nat * list nat) :=
  if existsb isnull y then throw (ValueError "Input y contains NaN.")
  else if negb (Z.of_nat (length y) =? n_samples)
  then throw (ValueError "Found input variables with inconsistent numbers of samples")
  else with_random_state random_state
         (_iter_indices n_samples y test_size train_size).

(** [train_test_split(df, stratify=y, test_size=test_size,
    random_state=random_state)]. *)
Definition train_test_split (df : DataFrame) (stratify : list scalar)
    (test_size : option size) (random_state : option Z)
  : Rand (DataFrame * DataFrame) :=
  let n_samples := Z.of_nat (nrows df) in
  '(n_train, n_test) ←
     lift (_validate_shuffle_split n_samples test_size None
             (Some (Fraction (Q2Qc (1 # 4)))));
  '(train, test) ←
     StratifiedShuffleSplit_split (Some (Count n_test)) (Some (Count n_train))
       random_state n_samples stratify;
  df_train ← lift (iloc df train);
  df_test ← lift (iloc df test);
  mret (df_train, df_test).

End split.

(** [accuracy_score(y_true, y_pred)]: the share of positions where the two
    agree, [nan] for no positions. *)
Definition accuracy_score (y_true y_pred : list Z) : result scalar :=
  if negb (bool_decide (length y_true = length y_pred))
  then raise (ValueError "Found input variables with inconsistent numbers of samples")
  else
    let score := zip_with (fun a b => bool_decide (a = b)) y_true y_pred in
    match score with
    | [] => mret NaN
    | _ =>
        mret (Float (Q2Qc (Z.of_nat (length (filter (fun b => b = true) score))
                           # Pos.of_nat (length score))))
    end.

End Sklearn.

(** ** transformers: the tokenizer call *)

Module Transformers.

(** [BertTokenizer]: the word-piece ids of a text and the ids of the special
    tokens. *)
Class Tokenizer := {
  text_ids : string -> list Z;
  cls_token_id : Z;
  sep_token_id : Z;
  pad_token_id : Z
}.

Record BatchEncoding := mkEncoding {
  input_ids : list Z;
  token_type_ids : list Z;
  attention_mask : list Z
}.

Section tokenizer.
Context `{Tokenizer}.

(** Truncation of one sequence on the right, two special tokens counted: a
    sequence not longer than what has to go is left as it is. *)
Definition truncate_sequences (max_length : nat) (ids : list Z) : list Z :=
  let total_len := (length ids + 2)%nat in
  if (max_length <? total_len)%nat then
    let num_tokens_to_remove := (total_len - max_length)%nat in
    if (num_tokens_to_remove <? length ids)%nat
    then take (length ids - num_tokens_to_remove) ids
    else ids
  else ids.

(** [tokenizer(text, truncation=True, padding="max_length",
    max_length=max_length)] on one text. *)
Definition encode_plus (max_length : nat) (text : string) : BatchEncoding :=
  let ids := truncate_sequences max_length (text_ids text) in
  let sequence := cls_token_id :: ids ++ [sep_token_id] in
  let difference := (max_length - length sequence)%nat in
  mkEncoding
    (sequence ++ replicate difference pad_token_id)
    (replicate (length sequence) 0 ++ replicate difference 0)
    (replicate (length sequence) 1 ++ replicate difference 0).

(** The same call on a batch: every element has to be a string. *)
Definition tokenizer_call (max_length : nat) (batch : list scalar)
  : result (list BatchEncoding) :=
  mapM (fun v => match v with
                 | Str text => mret (encode_plus max_length text)
                 | _ => raise (ValueError "text input must be of type `str`")
                 end) batch.

End tokenizer.
End Transformers.

(** ** datasets *)

Module Datasets.
Import Pandas Transformers.

(** The conversion of a frame to an Arrow table, [pa.Table.from_pandas]: it
    gives every column one type, and raises on a column for which it finds
    none (strings and integers in one column, say).  Which frames it takes
    is left open. *)
Class Arrow := {
  (** what the conversion raises on a frame, if it raises *)
  arrow_error : DataFrame -> option exn
}.

(** A dataset: the table and, once [map] has added them, the columns
    [input_ids], [token_type_ids] and [attention_mask], row by row. *)
Record ArrowDataset := mkDataset {
  table : DataFrame;
  tokens : option (list BatchEncoding)
}.

(** [Dataset.from_pandas(df)] (the index, which becomes a column of the
    table, is left out). *)
Definition from_pandas `{Arrow} (df : DataFrame) : result ArrowDataset :=
  match arrow_error df with
  | Some e => raise e
  | None => mret (mkDataset df None)
  end.

End Datasets.

(** ** The notebook *)

Module Notebook.
Import Pandas Numpy Sklearn Transformers Datasets Ingest.

(** A dataset as the trainer reads it: the encodings and the labels. *)
Abbreviation Dataset := (list BatchEncoding * Series)%type.

(** What the notebook takes from outside: numpy's generator, the tokenizer
    and model of [yiyanghkust/finbert-tone], the Arrow conversion, the file
    system and the trainer.  A call to the outside is made in a state of the
    world (the files, the network, the device), returns or raises, and
    leaves a state of the world behind. *)
Class Environment := {
  env_generator :: RandomState;
  env_tokenizer :: Tokenizer;
  env_arrow :: Arrow;
  logit : Type;
  env_score :: Score logit;
  world : Type;
  (** [pd.read_csv(path, delimiter=",", encoding="latin-1", header=None)] *)
  read_csv : string -> world -> result DataFrame * world;
  (** [BertForSequenceClassification.from_pretrained(name, num_labels=3)] *)
  model_from_pretrained : string -> world -> result () * world;
  (** [BertTokenizer.from_pretrained(name)] *)
  tokenizer_from_pretrained : string -> world -> result () * world;
  (** [pipeline(task, model=model, tokenizer=tokenizer)] *)
  pipeline : string -> world -> result () * world;
  (** [nlp(sentences)]: a label and a score per sentence *)
  nlp : list scalar -> world -> result (list (string * Qc)) * world;
  (** a trainer: the model under training and what it was built with *)
  trainer : Type;
  (** [Trainer(model=model, args=TrainingArguments(...), train_dataset=...,
      eval_dataset=..., compute_metrics=...)], after it has set the seed *)
  Trainer :
    Dataset -> Dataset ->
    (list (list logit) * list Z -> result (gmap string scalar)) ->
    world -> result trainer * world;
  (** [trainer.train()] *)
  trainer_train : trainer -> world -> result trainer * world;
  (** the forward passes of [trainer.predict]: logits and label ids *)
  trainer_predict :
    trainer -> Dataset -> world -> result (list (list logit) * list Z) * world;
  (** [trainer.save_model(path)] *)
  save_model : trainer -> string -> world -> result () * world
}.

(** [compute_metrics] *)
Definition compute_metrics `{Score T} (eval_pred : list (list T) * list Z)
  : result (gmap string scalar) :=
  let '(predictions, labels) := eval_pred in
  predictions ← argmax_axis1 predictions;
  accuracy ← accuracy_score (map Z.of_nat predictions) labels;
  mret ({[ "accuracy" := accuracy ]} : gmap string scalar).

(** [len(v)] *)
Definition len (v : scalar) : result Z :=
  match v with
  | Str s => mret (Z.of_nat (String.length s))
  | _ => raise (TypeError "object has no len()")
  end.

(** [df["sentence"].map(len).max()] *)
Definition max_sentence_length (df : DataFrame) : result scalar :=
  col ← getitem df (Str "sentence");
  lens ← mapM len col;
  mret (match lens with
        | [] => NaN
        | l :: ls => Int (foldr Z.max l ls)
        end).

Definition prediction_names : list scalar :=
  [Str "Neutral"; Str "Positive"; Str "Negative"].

(** [pd.DataFrame.from_dict(results)] *)
Definition from_dict (results : list (string * Qc)) : DataFrame :=
  match results with
  | [] => mkDataFrame [] []
  | _ => mkDataFrame (RangeIndex (length results))
           [(Str "label", map (fun r => Str r.1) results);
            (Str "score", map (fun r => Float r.2) results)]
  end.

(** The cell that puts ground truth and prediction side by side. *)
Definition baseline_frame (df_test : DataFrame) (results : list (string * Qc))
  : result DataFrame :=
  let results_df := from_dict results in
  col ← getitem results_df (Str "label");
  col ← replace prediction_names label_codes col;
  let results_df := setitem results_df (Str "label") col in
  results_df ← set_columns results_df [Str "pred"; Str "score"];
  let results_df := reset_index_drop results_df in
  truth ← select df_test [Str "sentence"; Str "label"];
  results_df ← concat_axis1 (reset_index_drop truth) results_df;
  label ← getitem results_df (Str "label");
  pred ← getitem results_df (Str "pred");
  mret (setitem results_df (Str "Correct") (map Bool (Series_eq label pred))).

(** [len(results_df[results_df["Correct"] == True]) / len(results_df)] *)
Definition baseline_accuracy (results_df : DataFrame) : result scalar :=
  correct ← getitem results_df (Str "Correct");
  let hits := filter (fun v => py_eq v (Bool true) = true) correct in
  truediv (Z.of_nat (length hits)) (Z.of_nat (nrows results_df)).

Definition max_length : nat := 315.

(** The two calls of [train_test_split]. *)
Definition split `{RandomState} (df : DataFrame)
  : Rand (DataFrame * DataFrame * DataFrame) :=
  y ← lift (getitem df (Str "label"));
  '(df_train, df_test) ←
     train_test_split df y (Some (Fraction (Q2Qc (1 # 10)))) (Some 42);
  y ← lift (getitem df_train (Str "label"));
  '(df_train, df_val) ←
     train_test_split df_train y (Some (Fraction (Q2Qc (1 # 10)))) (Some 42);
  mret (df_train, df_val, df_test).

(** [dataset.map(lambda e: tokenizer(e["sentence"], truncation=True,
    padding="max_length", max_length=315), batched=True)]: the encodings
    are added, one per row.  A dataset without rows is returned as it is:
    the function is not called and no column is added. *)
Definition tokenize `{Tokenizer} (dataset : ArrowDataset)
  : result ArrowDataset :=
  if bool_decide (nrows (table dataset) = 0%nat) then mret dataset
  else
    sentences ← getitem (table dataset) (Str "sentence");
    encodings ← tokenizer_call max_length sentences;
    mret (mkDataset (table dataset) (Some encodings)).

(** [dataset.set_format(type="torch", columns=["input_ids",
    "token_type_ids", "attention_mask", "label"])]: what the trainer will
    read; columns that the dataset lacks are refused. *)
Definition set_format (dataset : ArrowDataset) : result Dataset :=
  match tokens dataset, getitem (table dataset) (Str "label") with
  | Some encodings, inr label => mret (encodings, label)
  | _, _ => raise (ValueError "Columns not in the dataset")
  end.

(** The cells that make the three datasets, tokenize them and set their
    format. *)
Definition datasets `{Arrow} `{Tokenizer}
    (df_train df_val df_test : DataFrame)
  : result (Dataset * Dataset * Dataset) :=
  dataset_train ← from_pandas df_train;
  dataset_val ← from_pandas df_val;
  dataset_test ← from_pandas df_test;
  dataset_train ← tokenize dataset_train;
  dataset_val ← tokenize dataset_val;
  dataset_test ← tokenize dataset_test;
  dataset_train ← set_format dataset_train;
  dataset_val ← set_format dataset_val;
  dataset_test ← set_format dataset_test;
  mret (dataset_train, dataset_val, dataset_test).

(** The metrics of [trainer.predict]: the entries of [compute_metrics] under
    a prefix (the loss and the timings the trainer adds are left out). *)
Definition prefixed (prefix : string) (metrics : gmap string scalar)
  : gmap string scalar :=
  list_to_map (prod_map (String.append prefix) id <$> map_to_list metrics).

(** [set_seed(seed)]: among others, [np.random.seed(seed)]. *)
Definition set_seed `{RandomState} (seed : Z) : Rand () :=
  fun _ => inr ((), seed_state seed).

(** [enable_full_determinism(True)]: [set_seed(True)] and the switches of
    torch. *)
Definition enable_full_determinism `{RandomState} : Rand () := set_seed 1.

(** What a run of all cells leaves behind. *)
Record Outcome := mkOutcome {
  df : DataFrame;
  any_null : bool;
  longest : scalar;
  df_train : DataFrame;
  df_val : DataFrame;
  df_test : DataFrame;
  results_df : DataFrame;
  accuracy : scalar;
  dataset_train : Dataset;
  dataset_val : Dataset;
  dataset_test : Dataset;
  accuracy_test : scalar
}.

Section cells.
Context `{Environment}.

(** Code of the notebook: it draws from numpy's global generator, calls the
    outside and may raise. *)
Definition Run (A : Type) : Type :=
  state * world -> result (A * (state * world)).

#[global] Instance Run_ret : MRet Run := fun _ x s => inr (x, s).
#[global] Instance Run_bind : MBind Run := fun _ _ f m s =>
  match m s with
  | inl e => inl e
  | inr (x, s') => f x s'
  end.

(** Code that returns or raises and touches nothing. *)
Definition pure {A} (r : result A) : Run A := fun s =>
  match r with
  | inl e => inl e
  | inr x => inr (x, s)
  end.

(** Code that draws from the global generator. *)
Definition draw {A} (m : Rand A) : Run A := fun s =>
  match m s.1 with
  | inl e => inl e
  | inr (x, g) => inr (x, (g, s.2))
  end.

(** A call to the outside. *)
Definition call {A} (c : world -> result A * world) : Run A := fun s =>
  match c s.2 with
  | (inl e, _) => inl e
  | (inr x, w) => inr (x, (s.1, w))
  end.

(** The cells up to the first use of the model. *)
Definition setup : Run () :=
  _ ← draw enable_full_determinism;
  _ ← call (model_from_pretrained "yiyanghkust/finbert-tone");
  _ ← call (tokenizer_from_pretrained "yiyanghkust/finbert-tone");
  _ ← call (pipeline "sentiment-analysis");
  _ ← call (nlp [Str "there is a shortage of capital, and we need extra financing";
                 Str "growth is strong and we have plenty of liquidity";
                 Str "there are doubts about our finances";
                 Str "profits are flat"]);
  mret ().

(** The cell that loads the CSV and encodes the labels. *)
Definition ingest : Run DataFrame :=
  raw ← call (read_csv "all-data.csv");
  pure (load raw).

(** The missing-value check and the longest sentence. *)
Definition explore (df : DataFrame) : Run (bool * scalar) :=
  longest ← pure (max_sentence_length df);
  mret (isnull_values_any df, longest).

(** The cells that score the test set with the pretrained model. *)
Definition baseline (df_test : DataFrame) : Run (DataFrame * scalar) :=
  sentences ← pure (getitem df_test (Str "sentence"));
  results ← call (nlp sentences);
  results_df ← pure (baseline_frame df_test results);
  accuracy ← pure (baseline_accuracy results_df);
  mret (results_df, accuracy).

(** The cell that defines [compute_metrics] and builds the trainer, which
    begins by setting the seed of its arguments, 42. *)
Definition new_trainer (dataset_train dataset_val : Dataset) : Run trainer :=
  _ ← draw (set_seed 42);
  call (Trainer dataset_train dataset_val compute_metrics).

(** [trainer.train()] *)
Definition train (t : trainer) : Run trainer := call (trainer_train t).

(** [trainer.predict(dataset_test).metrics["test_accuracy"]]: the trainer
    runs the model on the dataset and calls the metric it was built with. *)
Definition evaluate (t : trainer) (dataset_test : Dataset) : Run scalar :=
  eval_pred ← call (trainer_predict t dataset_test);
  metrics ← pure (compute_metrics eval_pred);
  pure (dict_getitem (prefixed "test_" metrics) "test_accuracy").

(** [trainer.save_model("finbert-sentiment/")] *)
Definition save (t : trainer) : Run () :=
  call (save_model t "finbert-sentiment/").

(** The code cells in order, from the first one after the imports; what the
    cells print and the per-label table of the baseline are left out. *)
Definition run_all : Run Outcome :=
  _ ← setup;
  df ← ingest;
  '(any_null, longest) ← explore df;
  '(df_train, df_val, df_test) ← draw (split df);
  '(results_df, accuracy) ← baseline df_test;
  '(dataset_train, dataset_val, dataset_test) ←
     pure (datasets df_train df_val df_test);
  t ← new_trainer dataset_train dataset_val;
  t ← train t;
  accuracy_test ← evaluate t dataset_test;
  _ ← save t;
  mret (mkOutcome df any_null longest df_train df_val df_test results_df
          accuracy dataset_train dataset_val dataset_test accuracy_test).

End cells.
End Notebook.

(** * What the statements below speak of *)

Import Pandas Numpy Sklearn Transformers Datasets Ingest Notebook.

(** ** Frames and columns *)

(** No value of any column is missing. *)
Definition no_null (cols : list (scalar * Series)) : Prop :=
  Forall (fun c => Forall (fun v => isnull v = false) c.2) cols.

(** What [fillna("")] makes of one value. *)
Definition fill (v : scalar) : scalar := if isnull v then Str "" else v.

(** Every column has one value per row. *)
Definition rectangular (df : DataFrame) : Prop :=
  Forall (fun c => length c.2 = nrows df) (columns df).

(** Row [p] of the column [y] carries the label [c]. *)
Definition carries (y : Series) (c : scalar) (p : nat) : Prop :=
  match y !! p with
  | Some v => py_eq v c = true
  | None => False
  end.

#[global] Instance carries_dec y c p : Decision (carries y c p).
Proof. unfold carries. destruct (y !! p); apply _. Defined.

(** How many of the rows at [positions] carry the label [c]. *)
Definition count_label (y : Series) (c : scalar) (positions : list nat) : Z :=
  Z.of_nat (length (filter (carries y c) positions)).

(** The number of rows of a frame whose label is [c]. *)
Definition label_count (df : DataFrame) (c : scalar) : Z :=
  match getitem df (Str "label") with
  | inr col => Z.of_nat (length (filter (fun v => py_eq v c = true) col))
  | inl _ => 0
  end.

(** The class of position [i] of [y] is below [m]. *)
Definition below (y : list nat) (m i : nat) : Prop :=
  match y !! i with
  | Some k => (k < m)%nat
  | None => False
  end.

#[global] Instance below_dec y m i : Decision (below y m i).
Proof. unfold below. destruct (y !! i); apply _. Defined.

(** How many classes have a remainder among [values]. *)
Definition avail (remainder values : list Qc) : Z :=
  sum (map (fun v => Z.of_nat (length (where_eq remainder v))) values).

(** ** Encodings *)

(** The three lists of an encoding have the length the notebook asks for. *)
Definition fixed_length (e : BatchEncoding) : Prop :=
  length (input_ids e) = 315%nat
  /\ length (attention_mask e) = 315%nat
  /\ length (token_type_ids e) = 315%nat.

(** ** Scores *)

(** Position [j] holds a greatest score of the row, and no earlier position
    does. *)
Definition is_argmax `{Score T} (row : list T) (j : nat) : Prop :=
  match row !! j with
  | Some x =>
      Forall (fun y => score_le y x = true) row
      /\ Forall (fun y => score_le x y = false) (take j row)
  | None => False
  end.

#[global] Instance is_argmax_dec `{Score T} (row : list T) j :
  Decision (is_argmax row j).
Proof. unfold is_argmax. destruct (row !! j); apply _. Defined.

(** The label of a row of scores is the position of its greatest score. *)
Definition hit `{Score T} (p : list T * Z) : Prop :=
  0 <= p.2 /\ is_argmax p.1 (Z.to_nat p.2).

#[global] Instance hit_dec `{Score T} (p : list T * Z) : Decision (hit p).
Proof. unfold hit. apply _. Defined.

(** ** Sentiment classes *)

Inductive sentiment := Neutral | Positive | Negative.

#[global] Instance sentiment_eq_dec : EqDecision sentiment.
Proof. solve_decision. Defined.

(** The class as the dataset writes it, and as the model's pipeline does. *)
Definition lowercase (c : sentiment) : string :=
  match c with
  | Neutral => "neutral"
  | Positive => "positive"
  | Negative => "negative"
  end.

Definition capitalized (c : sentiment) : string :=
  match c with
  | Neutral => "Neutral"
  | Positive => "Positive"
  | Negative => "Negative"
  end.

(** The decoding of one label of the pipeline. *)
Definition decode (v : scalar) : scalar :=
  replace1 prediction_names label_codes v.

(** ** Generators *)

(** Code whose outcome does not depend on the generator it is run on, and
    which leaves that generator as it found it. *)
Definition seeded `{RandomState} {A} (m : Rand A) : Prop :=
  exists r, forall g, m g = lift r g.

(** ** Failures *)

(** [r] raises [e], or it returns and [rest] holds of what it returns. *)
Definition raises_or {A} (r : result A) (e : exn) (rest : A -> Prop) : Prop :=
  r = inl e \/ exists x, r = inr x /\ rest x.

(** The same of code that draws from the generator in the state [g], and of
    what it returns and the state it leaves. *)
Definition draw_raises_or `{RandomState} {A} (m : Rand A) (g : state)
    (e : exn) (rest : A -> state -> Prop) : Prop :=
  m g = inl e \/ exists x g', m g = inr (x, g') /\ rest x g'.

(** The same of a call to the outside made in the world [w], and of what it
    returns and the world it leaves. *)
Definition call_raises_or {W A} (c : W -> result A * W) (w : W)
    (e : exn) (rest : A -> W -> Prop) : Prop :=
  (c w).1 = inl e \/ exists x, (c w).1 = inr x /\ rest x (c w).2.

(** ** Inputs to run the model on *)

(** A generator whose [n]-th shuffle rotates by [n]. *)
Definition rotating : RandomState.
Proof.
  refine {| state := nat;
            seed_state z := Z.to_nat z;
            permutation n s := (rotate s (seq 0 n), S s) |}.
  intros n s. simpl. unfold rotate.
  rewrite Permutation_app_comm. by rewrite take_drop.
Defined.

(** Integer scores. *)
Definition Z_score : Score Z.
Proof.
  refine {| score_le := Z.leb |}.
  - intros x y. destruct (Z.leb_spec x y), (Z.leb_spec y x); auto. lia.
  - intros x y z Hxy%Z.leb_le Hyz%Z.leb_le. apply Z.leb_le. lia.
Defined.

(** Float scores: a number, or [None] for [nan], which is above every
    number. *)
Definition float_le (x y : option Qc) : bool :=
  match x, y with
  | _, None => true
  | None, Some _ => false
  | Some a, Some b => bool_decide (a <= b)%Qc
  end.

Definition float_score : Score (option Qc).
Proof.
  refine {| score_le := float_le |}.
  - intros [a|] [b|]; simpl; auto.
    destruct (Qclt_le_dec b a) as [Hlt|Hle].
    + right. apply bool_decide_eq_true. by apply Qclt_le_weak.
    + left. by apply bool_decide_eq_true.
  - intros [a|] [b|] [c|]; simpl; try done.
    rewrite !bool_decide_eq_true. apply Qcle_trans.
Defined.

(** A tokenizer with one id per character. *)
Definition characters : Tokenizer := {|
  text_ids text := map (fun a => Z.of_nat (Ascii.nat_of_ascii a)) (String.list_ascii_of_string text);
  cls_token_id := 101;
  sep_token_id := 102;
  pad_token_id := 0
|}.

(** A frame of the shape the ingestion cell leaves, with the given labels. *)
Definition frame (labels : Series) : DataFrame :=
  mkDataFrame (RangeIndex (length labels))
    [(Str "label", labels);
     (Str "sentence", replicate (length labels) (Str "Sales rose ."))].

Definition one_row : DataFrame := frame [Int 0].
Definition three_rows : DataFrame := frame (replicate 3 (Int 0)).
Definition thirteen_rows : DataFrame :=
  frame (replicate 11 (Int 0) ++ replicate 2 (Int 1)).

(** What [read_csv] returns for a file with a missing label and a missing
    sentence, and for one whose label is capitalized. *)
Definition two_rows : DataFrame :=
  mkDataFrame [0; 1]
    [(Int 0, [Str "neutral"; NaN]); (Int 1, [NaN; Str "Sales rose ."])].

Definition capitalised : DataFrame :=
  mkDataFrame [0] [(Int 0, [Str "Neutral"]); (Int 1, [Str "Sales rose ."])].

(** A test set of two rows and what the pipeline says of it. *)
Definition two_scored : DataFrame :=
  mkDataFrame [7; 3]
    [(Str "label", [Int 1; Int 0]);
     (Str "sentence", [Str "Sales rose ."; Str "The plant opens in May ."])].

Definition two_results : list (string * Qc) :=
  [("Neutral", Q2Qc (9 # 10)); ("Neutral", Q2Qc (3 # 4))].

(** Frames for the edges of the ingestion and of the split: a label in two
    spellings, a sentence that is a number, a label on a single row, and a
    label left unencoded beside an encoded one. *)
Definition mixed_case : DataFrame := frame [Str "neutral"; Str "Neutral"].
Definition numbered : DataFrame :=
  mkDataFrame [0; 1]
    [(Str "label", [Int 0; Int 1]); (Str "sentence", [Str "Sales rose ."; Int 2019])].
Definition lone_label : DataFrame := frame [Int 0; Int 0; Int 1].
Definition unencoded : DataFrame := frame [Int 0; Str "Neutral"].

(** An Arrow conversion to run the notebook on: it takes a frame whose
    columns hold values of one kind each, missing values apart, and refuses
    the others. *)
Definition kind (v : scalar) : option nat :=
  match v with
  | NaN => None
  | Str _ => Some 0%nat
  | Int _ | Float _ => Some 1%nat
  | Bool _ => Some 2%nat
  end.

Definition one_kind (c : Series) : bool :=
  match omap kind c with
  | [] => true
  | k :: ks => forallb (Nat.eqb k) ks
  end.

Definition uniform : Arrow := {|
  arrow_error df :=
    if forallb (fun c => one_kind c.2) (columns df) then None
    else Some (Exn "ArrowInvalid" "Could not convert the column")
|}.

(** An environment to run the notebook on: a CSV of three neutral
    sentences, a pipeline that calls everything neutral, and a trainer whose
    model scores the first class highest.  Its world is the number of calls
    made so far. *)
Definition three_neutral : DataFrame :=
  mkDataFrame [0; 1; 2]
    [(Int 0, replicate 3 (Str "neutral"));
     (Int 1, replicate 3 (Str "Sales rose ."))].

Definition stub : Environment := {|
  env_generator := rotating;
  env_tokenizer := characters;
  env_arrow := uniform;
  logit := Z;
  env_score := Z_score;
  world := nat;
  read_csv _ w := (inr three_neutral, S w);
  model_from_pretrained _ w := (inr (), S w);
  tokenizer_from_pretrained _ w := (inr (), S w);
  pipeline _ w := (inr (), S w);
  nlp sentences w :=
    (inr (map (fun _ => ("Neutral"%string, Q2Qc (9 # 10))) sentences), S w);
  trainer := unit;
  Trainer _ _ _ w := (inr (), S w);
  trainer_train t w := (inr t, S w);
  trainer_predict _ d w :=
    (inr (map (fun _ => [1; 0; 0]) d.1, map (fun _ => 0) d.1), S w);
  save_model _ _ w := (inr (), S w)
|}.

(** * Proofs *)

Ltac by_computation := apply (bool_decide_unpack _); vm_compute; exact I.

(** ** The result monad *)

Lemma bind_inr {A B} (f : A -> result B) (m : result A) (y : B) :
  m ≫= f = inr y <-> exists x, m = inr x /\ f x = inr y.
Proof.
  destruct m as [e|x]; simpl; split.
  - discriminate.
  - intros (x & Hx & _). discriminate.
  - eauto.
  - intros (x' & [= ->] & Hf). done.
Qed.

Lemma mapM_inr {A B} (f : A -> result B) (l : list A) (k : list B) :
  mapM f l = inr k <-> Forall2 (fun x y => f x = inr y) l k.
Proof.
  revert k. induction l as [|x l IH]; intros k; simpl.
  - split; [intros [= <-]; constructor|by inversion 1].
  - split.
    + intros (y & Hy & (k' & Hk' & [= <-])%bind_inr)%bind_inr.
      constructor; [done|by apply IH].
    + inversion 1 as [|? y ? k' Hy Hk']; subst.
      apply bind_inr. exists y. split; [done|].
      apply bind_inr. exists k'. split; [by apply IH|done].
Qed.

(** ** Ingestion: encoding and missing values *)

Lemma replace_encode (s : Series) :
  replace label_names label_codes s = inr (map encode s).
Proof. reflexivity. Qed.

Lemma encode_label_names : map encode label_names = label_codes.
Proof. reflexivity. Qed.

Lemma encode_other (v : scalar) : v ∉ label_names -> encode v = v.
Proof.
  intros Hv. unfold encode, replace1, label_names, label_codes in *.
  cbn [zip zip_with foldl fst snd].
  assert (forall s, v <> Str s -> replace_match v (Str s) = false) as Hm.
  { intros s Hs. unfold replace_match. rewrite andb_false_r. simpl.
    destruct v as [|t|z|q|b]; simpl; try done.
    apply bool_decide_eq_false. congruence. }
  rewrite !Hm; [done|..]; intros ->; apply Hv; by_computation.
Qed.

Lemma encode_not_null (v : scalar) : isnull v = false -> isnull (encode v) = false.
Proof.
  intros Hv. destruct (decide (v ∈ label_names)) as [Hin|Hout].
  - unfold label_names in Hin.
    repeat (apply elem_of_cons in Hin as [->|Hin]; [done|]).
    by apply elem_of_nil in Hin.
  - by rewrite encode_other.
Qed.

(** C1.  The encoding of the ingestion cell,
    [replace(["neutral","positive","negative"],[0,1,2])], maps a column value
    by value with [encode]; it sends the three label strings to the codes 0,
    1, 2 in this order, the three strings and the three codes are pairwise
    distinct, distinct label strings get distinct codes, and every code is
    the image of exactly one label string. *)
Theorem label_encoding_bijection :
  (forall s : Series, replace label_names label_codes s = inr (map encode s))
  /\ map encode label_names = label_codes
  /\ NoDup label_names /\ NoDup label_codes
  /\ (forall a b, a ∈ label_names -> b ∈ label_names ->
        encode a = encode b -> a = b)
  /\ (forall c, c ∈ label_codes ->
        exists a, (a ∈ label_names /\ encode a = c)
          /\ forall a', a' ∈ label_names -> encode a' = c -> a' = a).
Proof.
  split; [exact replace_encode|].
  split; [exact encode_label_names|].
  split; [by_computation|].
  split; [by_computation|].
  split.
  - intros a b Ha Hb. unfold label_names in *.
    repeat (apply elem_of_cons in Ha as [->|Ha]);
      try (by apply elem_of_nil in Ha);
      repeat (apply elem_of_cons in Hb as [->|Hb]);
      try (by apply elem_of_nil in Hb); done.
  - intros c Hc. unfold label_codes in Hc.
    repeat (apply elem_of_cons in Hc as [->|Hc]);
      try (by apply elem_of_nil in Hc).
    + exists (Str "neutral"). split; [split; [by_computation|done]|].
      intros a' Ha'. unfold label_names in Ha'.
      repeat (apply elem_of_cons in Ha' as [->|Ha']);
        try (by apply elem_of_nil in Ha'); done.
    + exists (Str "positive"). split; [split; [by_computation|done]|].
      intros a' Ha'. unfold label_names in Ha'.
      repeat (apply elem_of_cons in Ha' as [->|Ha']);
        try (by apply elem_of_nil in Ha'); done.
    + exists (Str "negative"). split; [split; [by_computation|done]|].
      intros a' Ha'. unfold label_names in Ha'.
      repeat (apply elem_of_cons in Ha' as [->|Ha']);
        try (by apply elem_of_nil in Ha'); done.
Qed.

Lemma existsb_false {A} (f : A -> bool) (l : list A) :
  existsb f l = false <-> Forall (fun x => f x = false) l.
Proof.
  induction l as [|x l IH]; simpl.
  - split; [constructor|done].
  - rewrite orb_false_iff, IH. split.
    + intros [??]. by constructor.
    + by inversion 1.
Qed.

Lemma isnull_values_any_false (df : DataFrame) :
  isnull_values_any df = false <-> no_null (columns df).
Proof.
  unfold isnull_values_any, no_null. rewrite existsb_false.
  apply Forall_proper; [|done]. intros c. apply existsb_false.
Qed.

Lemma fillna_no_null (value : scalar) (df : DataFrame) :
  isnull value = false -> no_null (columns (fillna value df)).
Proof.
  intros Hvalue. unfold no_null, fillna. simpl.
  apply Forall_map, Forall_true. intros c. simpl.
  apply Forall_map, Forall_true. intros v. simpl.
  by destruct (isnull v) eqn:Hv.
Qed.

Lemma rename_no_null f (df df' : DataFrame) :
  rename f df = inr df' -> no_null (columns df) -> no_null (columns df').
Proof.
  unfold rename. intros (cols & Hcols & [= <-])%bind_inr. simpl.
  apply mapM_inr in Hcols. unfold no_null.
  induction Hcols as [|c c' cs cs' Hc _ IH]; [done|].
  rewrite !Forall_cons. intros [Hv Hcs]. split; [|by apply IH].
  apply bind_inr in Hc as (l & _ & [= <-]). done.
Qed.

Lemma getitem_elem_of (df : DataFrame) key col :
  getitem df key = inr col -> (key, col) ∈ columns df.
Proof.
  unfold getitem.
  destruct (list_find _ _) as [[i [k c]]|] eqn:Hfind; [|done].
  intros [= <-]. apply list_find_Some in Hfind as (Hi & Hk & _).
  simpl in Hk. subst k. by eapply list_elem_of_lookup_2.
Qed.

Lemma setitem_no_null (df : DataFrame) key col :
  no_null (columns df) -> Forall (fun v => isnull v = false) col ->
  no_null (columns (setitem df key col)).
Proof.
  intros Hdf Hcol. unfold setitem, no_null in *.
  destruct (list_find _ _) as [[i c]|]; simpl.
  - by apply Forall_insert.
  - apply Forall_app. split; [done|]. by apply Forall_singleton.
Qed.

(** C4.  Whatever frame [read_csv] returned, when the ingestion cell completes
    the frame it leaves has no missing value: [df.isnull().values.any()] is
    [False]. *)
Theorem no_null_after_load (raw df : DataFrame) :
  load raw = inr df -> isnull_values_any df = false.
Proof.
  unfold load. intros (df0 & Hrename & Hencode)%bind_inr.
  apply isnull_values_any_false.
  assert (no_null (columns df0)) as Hdf0.
  { eapply rename_no_null; [done|]. by apply fillna_no_null. }
  unfold encode_labels in Hencode.
  apply bind_inr in Hencode as (col & Hcol & Hencode).
  rewrite replace_encode in Hencode. simpl in Hencode.
  injection Hencode as <-.
  apply setitem_no_null; [done|].
  apply getitem_elem_of in Hcol.
  unfold no_null in Hdf0. rewrite Forall_forall in Hdf0.
  specialize (Hdf0 _ Hcol). simpl in Hdf0.
  apply Forall_map. eapply Forall_impl; [done|].
  intros v Hv. simpl. by apply encode_not_null.
Qed.

(** C5, amended.  For a CSV of two columns the ingestion cell completes, and
    its label column is the CSV's first column with every missing value
    replaced by the empty string and then every value encoded: a value that
    is one of the three label strings becomes one of the codes 0, 1, 2, and
    any other value stays as [fillna] left it. *)
Theorem encoded_labels (idx : list Z) (labels sentences : Series) :
  exists df,
    load (mkDataFrame idx [(Int 0, labels); (Int 1, sentences)]) = inr df
    /\ getitem df (Str "label") = inr (map (fun v => encode (fill v)) labels)
    /\ (forall v, v ∈ labels -> v ∈ label_names -> encode (fill v) ∈ label_codes)
    /\ (forall v, v ∈ labels -> v ∉ label_names -> encode (fill v) = fill v).
Proof.
  eexists. split; [reflexivity|]. split.
  { unfold getitem. simpl. by rewrite map_map. }
  split.
  - intros v _ Hv. unfold label_names in Hv.
    repeat (apply elem_of_cons in Hv as [->|Hv]);
      try (by apply elem_of_nil in Hv); by_computation.
  - intros v _ Hv. apply encode_other. unfold fill.
    destruct (isnull v); [|done]. by_computation.
Qed.

(** ** Tokenization *)

Section tokenization.
Context `{Arrow} `{Tokenizer}.

Lemma truncate_sequences_length (n : nat) (ids : list Z) :
  (3 <= n)%nat -> (length (truncate_sequences n ids) + 2 <= n)%nat.
Proof.
  intros Hn. unfold truncate_sequences.
  destruct (Nat.ltb_spec n (length ids + 2)) as [Hlong|Hshort]; [|lia].
  destruct (Nat.ltb_spec (length ids + 2 - n) (length ids)) as [Hcut|Hkeep]; [|lia].
  rewrite length_take. lia.
Qed.

Lemma encode_plus_length (n : nat) (text : string) :
  (3 <= n)%nat ->
  length (input_ids (encode_plus n text)) = n
  /\ length (token_type_ids (encode_plus n text)) = n
  /\ length (attention_mask (encode_plus n text)) = n.
Proof.
  intros Hn. unfold encode_plus. simpl.
  pose proof (truncate_sequences_length n (text_ids text) Hn) as Hlen.
  rewrite !length_app, !length_replicate. simpl.
  rewrite ?length_app. simpl. lia.
Qed.

Lemma encode_plus_fixed_length (sentences : list string) :
  Forall fixed_length (map (encode_plus max_length) sentences).
Proof.
  apply Forall_map, Forall_true. intros text. simpl.
  destruct (encode_plus_length max_length text) as (?&?&?);
    [unfold max_length; lia|].
  by repeat split.
Qed.

Lemma tokenizer_call_inr (batch : Series) encodings :
  tokenizer_call max_length batch = inr encodings ->
  exists sentences, batch = map Str sentences
    /\ encodings = map (encode_plus max_length) sentences.
Proof.
  unfold tokenizer_call. rewrite mapM_inr.
  induction 1 as [|v e batch encodings Hv _ (sentences & -> & ->)].
  - by exists [].
  - destruct v as [|text| | |]; try done. injection Hv as <-.
    by exists (text :: sentences).
Qed.

(** One frame through the three cells: the conversion takes the frame, the
    frame has a row, and the tokenizer found strings. *)
Lemma dataset_returns (df : DataFrame) (d0 d1 : ArrowDataset) (d : Dataset) :
  from_pandas df = inr d0 -> tokenize d0 = inr d1 -> set_format d1 = inr d ->
  arrow_error df = None
  /\ nrows df <> 0%nat
  /\ exists sentences,
       getitem df (Str "sentence") = inr (map Str sentences)
       /\ getitem df (Str "label") = inr d.2
       /\ d.1 = map (encode_plus max_length) sentences.
Proof.
  unfold from_pandas, tokenize, set_format.
  destruct (arrow_error df) as [e|]; [done|]. intros [= <-]. cbn [table].
  case_bool_decide as Hrows; [by intros [= <-]|].
  intros (col & Hcol & (encodings & Hcall & [= <-])%bind_inr)%bind_inr.
  cbn [tokens table].
  destruct (getitem df (Str "label")) as [e|label]; [done|]. intros [= <-].
  apply tokenizer_call_inr in Hcall as (sentences & -> & ->).
  repeat split; [done|]. by exists sentences.
Qed.

Lemma dataset_inr (df : DataFrame) (sentences : list string) (label : Series) :
  arrow_error df = None -> nrows df <> 0%nat ->
  getitem df (Str "sentence") = inr (map Str sentences) ->
  getitem df (Str "label") = inr label ->
  let encodings := map (encode_plus max_length) sentences in
  from_pandas df = inr (mkDataset df None)
  /\ tokenize (mkDataset df None) = inr (mkDataset df (Some encodings))
  /\ set_format (mkDataset df (Some encodings)) = inr (encodings, label).
Proof.
  intros Harrow Hrows Hsentence Hlabel encodings.
  unfold from_pandas, tokenize, set_format. cbn [table tokens].
  rewrite Harrow, Hsentence, Hlabel, bool_decide_eq_false_2 by done.
  repeat split. cbn [mbind result_bind].
  assert (tokenizer_call max_length (map Str sentences) = inr encodings)
    as ->; [|done].
  apply mapM_inr. unfold encodings. clear.
  induction sentences; constructor; done.
Qed.

Lemma datasets_inr (df_train df_val df_test : DataFrame)
    (d_train d_val d_test : Dataset) :
  datasets df_train df_val df_test = inr (d_train, d_val, d_test) ->
  Forall2 (fun df d =>
             arrow_error df = None
             /\ nrows df <> 0%nat
             /\ exists sentences,
                  getitem df (Str "sentence") = inr (map Str sentences)
                  /\ getitem df (Str "label") = inr d.2
                  /\ d.1 = map (encode_plus max_length) sentences)
    [df_train; df_val; df_test] [d_train; d_val; d_test].
Proof.
  unfold datasets.
  intros (a0 & Ha0 & Hrun)%bind_inr.
  apply bind_inr in Hrun as (b0 & Hb0 & Hrun).
  apply bind_inr in Hrun as (c0 & Hc0 & Hrun).
  apply bind_inr in Hrun as (a1 & Ha1 & Hrun).
  apply bind_inr in Hrun as (b1 & Hb1 & Hrun).
  apply bind_inr in Hrun as (c1 & Hc1 & Hrun).
  apply bind_inr in Hrun as (a2 & Ha2 & Hrun).
  apply bind_inr in Hrun as (b2 & Hb2 & Hrun).
  apply bind_inr in Hrun as (c2 & Hc2 & [= -> -> ->]).
  repeat constructor; eapply dataset_returns; eassumption.
Qed.

(** C7.  When the tokenization cells return, each of the three datasets
    holds one encoding per sentence of its frame, in order, and the labels
    of the frame; and whatever the length of a sentence, the [input_ids],
    [attention_mask] and [token_type_ids] of its encoding have length
    exactly 315. *)
Theorem tokenized_length (df_train df_val df_test : DataFrame)
    (d_train d_val d_test : Dataset) :
  datasets df_train df_val df_test = inr (d_train, d_val, d_test) ->
  Forall fixed_length (d_train.1 ++ d_val.1 ++ d_test.1)
  /\ Forall2 (fun df d =>
                exists sentences : list string,
                  getitem df (Str "sentence") = inr (map Str sentences)
                  /\ d.1 = map (encode_plus max_length) sentences
                  /\ getitem df (Str "label") = inr d.2)
       [df_train; df_val; df_test] [d_train; d_val; d_test].
Proof.
  intros Hall%datasets_inr.
  inversion Hall as [|? ? ? ? (_ & _ & ss1 & Hs1 & Hl1 & Hd1) Hall2]; subst.
  inversion Hall2 as [|? ? ? ? (_ & _ & ss2 & Hs2 & Hl2 & Hd2) Hall3]; subst.
  inversion Hall3 as [|? ? ? ? (_ & _ & ss3 & Hs3 & Hl3 & Hd3) _]; subst.
  split.
  - rewrite Hd1, Hd2, Hd3, !Forall_app.
    repeat split; apply encode_plus_fixed_length.
  - repeat constructor; eexists; eauto.
Qed.

End tokenization.

(** ** The metric *)

Section metric.
Context `{Score T}.

Lemma score_le_refl (x : T) : score_le x x = true.
Proof. by destruct (score_le_total x x). Qed.

Lemma is_argmax_unique (row : list T) (j j' : nat) :
  is_argmax row j -> is_argmax row j' -> j = j'.
Proof.
  assert (forall a b, (a < b)%nat -> is_argmax row a -> is_argmax row b -> False)
    as Hlt.
  { intros a b Hab Ha Hb. unfold is_argmax in *.
    destruct (row !! a) as [x|] eqn:Hx; [|done].
    destruct (row !! b) as [y|] eqn:Hy; [|done].
    destruct Ha as [Hmax _], Hb as [_ Hfirst].
    rewrite Forall_forall in Hmax, Hfirst.
    assert (score_le y x = true) as Hyx.
    { apply Hmax. by eapply list_elem_of_lookup_2. }
    assert (score_le y x = false) as Hyx'.
    { apply Hfirst. apply list_elem_of_lookup. exists a.
      by rewrite lookup_take_lt. }
    congruence. }
  intros Hj Hj'. destruct (Nat.lt_trichotomy j j') as [?|[?|?]];
    [exfalso|done|exfalso]; eauto.
Qed.

(** The scan keeps the first position of the greatest score seen so far. *)
Lemma argmax_scan_is_argmax (pre ip : list T) (mp : T) (max_ind : nat) :
  pre !! max_ind = Some mp -> is_argmax pre max_ind ->
  is_argmax (pre ++ ip) (argmax_scan mp max_ind (length pre) ip).
Proof.
  revert pre mp max_ind.
  induction ip as [|x ip IH]; intros pre mp max_ind Hmp Hmax; simpl.
  { by rewrite app_nil_r. }
  assert (max_ind < length pre)%nat as Hlt by by eapply lookup_lt_Some.
  unfold is_argmax in Hmax. rewrite Hmp in Hmax. destruct Hmax as [Hall Hfirst].
  replace (pre ++ x :: ip) with ((pre ++ [x]) ++ ip) by by rewrite <-app_assoc.
  replace (S (length pre)) with (length (pre ++ [x]))
    by (rewrite length_app; simpl; lia).
  destruct (score_le x mp) eqn:Hx; simpl; apply IH.
  - by rewrite lookup_app_l.
  - unfold is_argmax. rewrite lookup_app_l, Hmp by done. split.
    + apply Forall_app. split; [done|]. by apply Forall_singleton.
    + by rewrite take_app_le by lia.
  - by rewrite lookup_app_r, Nat.sub_diag by done.
  - unfold is_argmax. rewrite lookup_app_r, Nat.sub_diag by done. simpl.
    assert (score_le mp x = true) as Hmpx.
    { destruct (score_le_total mp x); congruence. }
    split.
    + apply Forall_app. split.
      * eapply Forall_impl; [exact Hall|]. intros y Hy. simpl in Hy.
        by eapply score_le_trans.
      * apply Forall_singleton, score_le_refl.
    + rewrite take_app_length.
      eapply Forall_impl; [exact Hall|]. intros y Hy. simpl in Hy.
      destruct (score_le x y) eqn:Hxy; [|done].
      rewrite (score_le_trans x y mp) in Hx; done.
Qed.

Lemma argmax_is_argmax (row : list T) :
  row <> [] -> exists j, argmax row = inr j /\ is_argmax row j.
Proof.
  destruct row as [|x ip]; [done|]. intros _. eexists. split; [done|].
  apply (argmax_scan_is_argmax [x] ip x 0); [done|].
  unfold is_argmax. simpl. split; [|constructor].
  apply Forall_singleton, score_le_refl.
Qed.

Lemma argmax_axis1_is_argmax (a : list (list T)) :
  Forall (fun row => row <> []) a ->
  exists js, argmax_axis1 a = inr js /\ Forall2 is_argmax a js.
Proof.
  induction 1 as [|row a Hrow _ (js & Hjs & IH)].
  - exists []. split; [done|constructor].
  - destruct (argmax_is_argmax row Hrow) as (j & Hj & Hmax).
    exists (j :: js). split; [|by constructor].
    unfold argmax_axis1 in *. simpl. rewrite Hj. simpl. by rewrite Hjs.
Qed.

Lemma hits_agree (a : list (list T)) (js : list nat) (labels : list Z) :
  Forall2 is_argmax a js -> length labels = length a ->
  length (filter (fun b => b = true)
            (zip_with (fun x y => bool_decide (x = y)) (map Z.of_nat js) labels))
  = length (filter hit (zip a labels)).
Proof.
  intros Hjs. revert labels.
  induction Hjs as [|row j a js Hj _ IH]; intros [|l labels] Hlen; try done.
  simpl in Hlen. simpl. rewrite !filter_cons.
  specialize (IH labels ltac:(lia)).
  destruct (decide (hit (row, l))) as [[Hl Hhit]|Hmiss]; simpl in *.
  - rewrite (is_argmax_unique _ _ _ Hj Hhit), Z2Nat.id by done.
    rewrite bool_decide_eq_true_2, decide_True by done. simpl. by rewrite IH.
  - rewrite bool_decide_eq_false_2, decide_False; [done|done|].
    intros <-. apply Hmiss. split; simpl; [lia|]. by rewrite Nat2Z.id.
Qed.

(** C6.  For a non-empty matrix of scores with non-empty rows and one label
    per row, [compute_metrics] returns [{"accuracy": k / n}] where [n] is the
    number of rows and [k] the number of rows whose label is the position of
    the row's greatest score (the first such position). *)
Theorem compute_metrics_accuracy (predictions : list (list T))
    (labels : list Z) :
  predictions <> [] ->
  Forall (fun row => row <> []) predictions ->
  length labels = length predictions ->
  compute_metrics (predictions, labels)
  = inr {[ "accuracy" :=
             Float (Q2Qc (Z.of_nat (length (filter hit (zip predictions labels)))
                          # Pos.of_nat (length predictions))) ]}.
Proof.
  intros Hne Hrows Hlen. unfold compute_metrics.
  destruct (argmax_axis1_is_argmax predictions Hrows) as (js & -> & Hjs).
  simpl. unfold accuracy_score.
  assert (length js = length predictions) as Hjslen
    by (symmetry; by eapply Forall2_length).
  rewrite bool_decide_eq_true_2 by (rewrite length_map; lia). simpl.
  rewrite <-(hits_agree predictions js labels Hjs Hlen).
  assert (length (zip_with (fun x y => bool_decide (x = y))
                    (map Z.of_nat js) labels) = length predictions) as Hscore.
  { rewrite length_zip_with, length_map. lia. }
  destruct (zip_with _ _ _) as [|b score] eqn:Hzip.
  { simpl in Hscore. destruct predictions; done. }
  simpl. by rewrite <-Hscore.
Qed.

End metric.

(** ** Baseline scoring *)

Lemma same_codes (c : sentiment) :
  encode (Str (lowercase c)) = decode (Str (capitalized c)).
Proof. by destruct c. Qed.

Lemma codes_eq (t p : sentiment) :
  py_eq (encode (Str (lowercase t))) (decode (Str (capitalized p)))
  = bool_decide (t = p).
Proof. by destruct t, p. Qed.

Lemma getitem_cons_ne (idx : list Z) k c cols key :
  k <> key ->
  getitem (mkDataFrame idx ((k, c) :: cols)) key
  = getitem (mkDataFrame idx cols) key.
Proof.
  intros Hne. unfold getitem. simpl.
  rewrite decide_False by done.
  by destruct (list_find _ cols) as [[i [k' c']]|].
Qed.

Lemma getitem_cons_eq (idx : list Z) k c cols :
  getitem (mkDataFrame idx ((k, c) :: cols)) k = inr c.
Proof. unfold getitem. simpl. by rewrite decide_True. Qed.

Lemma from_dict_cons (results : list (string * Qc)) :
  results <> [] ->
  from_dict results
  = mkDataFrame (RangeIndex (length results))
      [(Str "label", map (fun r => Str r.1) results);
       (Str "score", map (fun r => Float r.2) results)].
Proof. by destruct results. Qed.

Lemma replace_decode (s : Series) :
  replace prediction_names label_codes s = inr (map decode s).
Proof. reflexivity. Qed.

Lemma select_sentence_label (df : DataFrame) (sentences labels : Series) :
  getitem df (Str "sentence") = inr sentences ->
  getitem df (Str "label") = inr labels ->
  select df [Str "sentence"; Str "label"]
  = inr (mkDataFrame (index df)
           [(Str "sentence", sentences); (Str "label", labels)]).
Proof. intros Hs Hl. unfold select. simpl. by rewrite Hs, Hl. Qed.

Lemma length_RangeIndex (n : nat) : length (RangeIndex n) = n.
Proof. unfold RangeIndex. by rewrite length_map, length_seq. Qed.

(** Two frames of as many rows, both with the index [0, 1, ..]: [concat]
    puts their columns side by side. *)
Lemma concat_axis1_reset (a b : DataFrame) :
  nrows b = nrows a ->
  concat_axis1 (reset_index_drop a) (reset_index_drop b)
  = inr (mkDataFrame (RangeIndex (nrows a)) (columns a ++ columns b)).
Proof.
  intros Hb. unfold concat_axis1, reset_index_drop, Index_union.
  cbn [index columns]. rewrite Hb.
  rewrite (decide_True (P:=_ \/ _)) by by right.
  rewrite decide_True by done. cbn [mbind result_bind].
  by rewrite decide_True.
Qed.

Lemma zip_codes (truth pred : list sentiment) :
  length pred = length truth ->
  Series_eq (map (fun c => encode (Str (lowercase c))) truth)
    (map decode (map Str (map capitalized pred)))
  = zip_with (fun t p => bool_decide (t = p)) truth pred.
Proof.
  unfold Series_eq. revert pred.
  induction truth as [|t truth IH]; intros [|p pred] Hlen; try done.
  simpl. f_equal; [apply codes_eq|apply IH; simpl in Hlen; lia].
Qed.

(** C10.  The lowercase encoding of the dataset and the capitalized decoding
    of the pipeline's labels give a sentiment class the same code; and for a
    test set whose labels are encoded classes and predictions that are
    capitalized class names, the [Correct] column of the baseline frame is
    true at a row exactly when the predicted class is the row's class. *)
Theorem correct_flag (df_test : DataFrame) (truth pred : list sentiment)
    (sentences : Series) (results : list (string * Qc)) :
  truth <> [] ->
  length pred = length truth ->
  length sentences = length truth ->
  nrows df_test = length truth ->
  getitem df_test (Str "sentence") = inr sentences ->
  getitem df_test (Str "label")
    = inr (map (fun c => encode (Str (lowercase c))) truth) ->
  map fst results = map capitalized pred ->
  (forall c, encode (Str (lowercase c)) = decode (Str (capitalized c)))
  /\ exists results_df,
       baseline_frame df_test results = inr results_df
       /\ getitem results_df (Str "Correct")
          = inr (map Bool
                   (zip_with (fun t p => bool_decide (t = p)) truth pred)).
Proof.
  intros Hne Hpred Hsent Hrows Hgs Hgl Hres.
  split; [exact same_codes|].
  assert (length results = length truth) as Hreslen.
  { by rewrite <-(length_map fst), Hres, length_map. }
  unfold baseline_frame. rewrite from_dict_cons by (by destruct results, truth).
  rewrite getitem_cons_eq. cbn [mbind result_bind].
  rewrite replace_decode. cbn [mbind result_bind].
  replace (map (fun r => Str r.1) results) with (map Str (map fst results))
    by by rewrite map_map.
  rewrite Hres.
  set (pred_col := map decode (map Str (map capitalized pred))).
  set (score_col := map (fun r => Float r.2) results).
  set (label_col := map (fun c => encode (Str (lowercase c))) truth) in *.
  assert (length pred_col = length truth) as Hpc
    by (unfold pred_col; by rewrite !length_map).
  assert (length score_col = length truth) as Hsc
    by (unfold score_col; by rewrite !length_map).
  assert (length label_col = length truth) as Hlc
    by (unfold label_col; by rewrite !length_map).
  change (setitem _ (Str "label") pred_col)
    with (mkDataFrame (RangeIndex (length results))
            [(Str "label", pred_col); (Str "score", score_col)]).
  change (set_columns _ [Str "pred"; Str "score"])
    with (inr (B:=DataFrame) (A:=exn)
            (mkDataFrame (RangeIndex (length results))
               [(Str "pred", pred_col); (Str "score", score_col)])).
  cbn [mbind result_bind].
  rewrite (select_sentence_label _ _ _ Hgs Hgl). cbn [mbind result_bind].
  rewrite concat_axis1_reset
    by (unfold nrows in *; cbn [index];
        by rewrite length_RangeIndex, Hreslen, Hrows).
  cbn [mbind result_bind columns app].
  rewrite (getitem_cons_ne _ _ _ _ (Str "label")),
    (getitem_cons_eq _ (Str "label")) by done.
  cbn [mbind result_bind].
  rewrite !(getitem_cons_ne _ _ _ _ (Str "pred")),
    (getitem_cons_eq _ (Str "pred")) by done.
  cbn [mbind result_bind].
  eexists. split; [done|].
  unfold setitem. cbn [columns index].
  rewrite (proj2 (list_find_None _ _)).
  2:{ repeat (apply Forall_cons; split; [done|]). constructor. }
  cbn [app columns index].
  rewrite !(getitem_cons_ne _ _ _ _ (Str "Correct")),
    (getitem_cons_eq _ (Str "Correct")) by done.
  f_equal. f_equal. by apply zip_codes.
Qed.

(** ** Shares in exact arithmetic *)

Lemma Qfloor_share (c total n : Z) :
  0 < total ->
  Qfloor (Qc_of_Z c / Qc_of_Z total * Qc_of_Z n)%Qc = c * n / total.
Proof.
  intros Htotal.
  assert ((Qc_of_Z c / Qc_of_Z total * Qc_of_Z n)%Qc == (c * n) # Z.to_pos total)%Q
    as ->.
  { unfold Qcdiv, Qcmult, Qcinv, Qc_of_Z, Q2Qc. simpl this.
    rewrite !Qred_correct.
    destruct total as [|p|p]; try lia. simpl.
    unfold Qeq, Qmult, Qinv, inject_Z. simpl. lia. }
  unfold Qfloor. f_equal. lia.
Qed.

(** ** Drawing from the generator *)

Section generator.
Context `{RandomState}.

Lemma rand_bind_inr {A B} (f : A -> Rand B) (m : Rand A) s y s' :
  (m ≫= f) s = inr (y, s') <->
  exists x s1, m s = inr (x, s1) /\ f x s1 = inr (y, s').
Proof.
  unfold mbind, Rand_bind. destruct (m s) as [e|[x s1]]; split.
  - discriminate.
  - intros (? & ? & ? & _). discriminate.
  - eauto.
  - intros (? & ? & [= <- <-] & ?). done.
Qed.

Lemma lift_inr {A} (r : result A) s x s' :
  lift r s = inr (x, s') <-> r = inr x /\ s' = s.
Proof.
  unfold lift. destruct r as [e|x0]; split; try discriminate.
  - intros [? _]. discriminate.
  - intros [= <- <-]. done.
  - intros [[= <-] ->]. done.
Qed.

Lemma rand_ret_inr {A} (x : A) s y s' :
  mret (M:=Rand) x s = inr (y, s') <-> y = x /\ s' = s.
Proof. unfold mret, Rand_ret. split; [intros [= <- <-]|intros [-> ->]]; done. Qed.

Lemma rng_permutation_inr n s p s' :
  rng_permutation n s = inr (p, s') -> p ≡ₚ seq 0 n.
Proof.
  unfold rng_permutation. intros [= Hp].
  pose proof (permutation_Permutation n s) as Hperm.
  rewrite Hp in Hperm. done.
Qed.

Lemma getitems_inr {A} (a : list A) idx l :
  getitems a idx = inr l <-> Forall2 (fun p x => a !! p = Some x) idx l.
Proof.
  unfold getitems. rewrite mapM_inr.
  split; intros Hall; eapply Forall2_impl; try exact Hall;
    intros p x; simpl; destruct (a !! p); by intros [= ->].
Qed.

Lemma getitems_omap {A} (a : list A) idx l :
  getitems a idx = inr l -> l = omap (fun p => a !! p) idx.
Proof.
  rewrite getitems_inr. induction 1 as [|p x idx l Hp _ IH]; [done|].
  simpl. by rewrite Hp, IH.
Qed.

Lemma omap_lookup_seq_app {A} (pre a : list A) :
  omap (fun p => (pre ++ a) !! p) (seq (length pre) (length a)) = a.
Proof.
  revert pre. induction a as [|x a IH]; intros pre; [done|].
  simpl. rewrite lookup_app_r, Nat.sub_diag by done. simpl. f_equal.
  specialize (IH (pre ++ [x])). rewrite <-app_assoc, length_app in IH.
  simpl in IH. by rewrite Nat.add_1_r in IH.
Qed.

Lemma omap_lookup_seq {A} (a : list A) :
  omap (fun p => a !! p) (seq 0 (length a)) = a.
Proof. apply (omap_lookup_seq_app [] a). Qed.

Lemma omap_sublist {A B} (f : A -> option B) (l k : list A) :
  l `sublist_of` k -> omap f l `sublist_of` omap f k.
Proof.
  induction 1 as [|x l k _ IH|x l k _ IH]; simpl.
  - constructor.
  - destruct (f x); [by constructor|done].
  - destruct (f x); [by constructor|done].
Qed.

Lemma rng_permutation_of_inr {A} (a : list A) s l s' :
  rng_permutation_of a s = inr (l, s') -> l ≡ₚ a.
Proof.
  unfold rng_permutation_of.
  intros (idx & s1 & Hidx%rng_permutation_inr & [Hl _]%lift_inr)%rand_bind_inr.
  apply getitems_omap in Hl as ->. rewrite Hidx. by rewrite omap_lookup_seq.
Qed.

Lemma rng_choice_inr {A} (a : list A) size s l s' :
  rng_choice a size s = inr (l, s') ->
  l ⊆+ a /\ Z.of_nat (length l) = size.
Proof.
  unfold rng_choice.
  destruct (Z.ltb_spec size 0) as [?|Hsize]; [done|].
  destruct (Z.ltb_spec (Z.of_nat (length a)) size) as [?|Hpop]; [done|].
  intros (idx & s1 & Hidx%rng_permutation_inr & [Hl _]%lift_inr)%rand_bind_inr.
  split.
  - apply getitems_omap in Hl as ->.
    transitivity (omap (fun p => a !! p) idx).
    + apply sublist_submseteq, omap_sublist, sublist_take.
    + rewrite Hidx. by rewrite omap_lookup_seq.
  - apply getitems_inr, Forall2_length in Hl. rewrite <-Hl, length_take.
    apply Permutation_length in Hidx. rewrite length_seq in Hidx. lia.
Qed.

End generator.

(** ** Arrays *)

Lemma elem_of_where_eq `{EqDecision A} (a : list A) (v : A) (i : nat) :
  i ∈ where_eq a v <-> a !! i = Some v.
Proof.
  unfold where_eq. rewrite list_elem_of_filter, elem_of_seq. split.
  - by intros [? _].
  - intros Hi. split; [done|]. apply lookup_lt_Some in Hi. lia.
Qed.

Lemma NoDup_where_eq `{EqDecision A} (a : list A) (v : A) :
  NoDup (where_eq a v).
Proof. apply NoDup_filter, NoDup_seq. Qed.

Lemma length_filter_S (P : nat -> Prop) `{forall i, Decision (P i)} j n :
  length (filter P (seq (S j) n)) = length (filter (P ∘ S) (seq j n)).
Proof.
  revert j. induction n as [|n IH]; intros j; [done|].
  simpl. rewrite !filter_cons. simpl.
  destruct (decide (P (S j))); simpl; by rewrite IH.
Qed.

Lemma sum_imap_incr (P : nat -> Prop) `{forall i, Decision (P i)} (a : list Z) :
  sum (imap (fun i x => if bool_decide (P i) then x + 1 else x) a)
  = sum a + Z.of_nat (length (filter P (seq 0 (length a)))).
Proof.
  revert P H. induction a as [|x a IH]; intros P HP; [done|].
  rewrite imap_cons. simpl.
  change (foldr Z.add 0 ?l) with (sum l).
  rewrite (imap_ext _ (fun i x => if bool_decide ((P ∘ S) i) then x + 1 else x))
    by done.
  rewrite IH, filter_cons. destruct (decide (P 0%nat)).
  - rewrite bool_decide_eq_true_2 by done. simpl length.
    rewrite length_filter_S. lia.
  - rewrite bool_decide_eq_false_2 by done. rewrite length_filter_S. lia.
Qed.

Lemma sum_add_at (inds : list nat) (a : list Z) :
  NoDup inds -> Forall (fun i => (i < length a)%nat) inds ->
  sum (add_at inds a) = sum a + Z.of_nat (length inds).
Proof.
  intros Hnodup Hrange. unfold add_at. rewrite sum_imap_incr.
  f_equal. f_equal. apply Permutation_length, NoDup_Permutation.
  - apply NoDup_filter, NoDup_seq.
  - done.
  - intros i. rewrite list_elem_of_filter, elem_of_seq. split; [by intros [? _]|].
    intros Hi. split; [done|]. rewrite Forall_forall in Hrange.
    specialize (Hrange i Hi). lia.
Qed.

Lemma lookup_add_at (inds : list nat) (a : list Z) (i : nat) :
  add_at inds a !! i
  = (fun x => if bool_decide (i ∈ inds) then x + 1 else x) <$> a !! i.
Proof. unfold add_at. by rewrite list_lookup_imap. Qed.

Lemma length_add_at (inds : list nat) (a : list Z) :
  length (add_at inds a) = length a.
Proof. unfold add_at. by rewrite length_imap. Qed.

Lemma filter_split {A} (P Q R : A -> Prop)
    `{forall x, Decision (P x), forall x, Decision (Q x), forall x, Decision (R x)}
    (l : list A) :
  (forall x, P x <-> Q x \/ R x) -> (forall x, Q x -> R x -> False) ->
  filter P l ≡ₚ filter Q l ++ filter R l.
Proof.
  intros HP Hdisj. induction l as [|x l IH]; [done|].
  rewrite !filter_cons.
  destruct (decide (Q x)) as [HQ|HQ], (decide (R x)) as [HR|HR].
  - destruct (Hdisj x HQ HR).
  - rewrite decide_True by (apply HP; by left). simpl. by rewrite IH.
  - rewrite decide_True by (apply HP; by right).
    rewrite IH. by rewrite Permutation_middle.
  - rewrite decide_False by (rewrite HP; tauto). done.
Qed.

Lemma where_eq_classes (y : list nat) (m : nat) :
  concat (map (fun k => where_eq y k) (seq 0 m))
  ≡ₚ filter (below y m) (seq 0 (length y)).
Proof.
  induction m as [|m IH].
  - simpl. symmetry. apply Permutation_nil_r.
    induction (seq 0 (length y)) as [|i l IHl]; [done|].
    rewrite filter_cons, decide_False; [done|].
    unfold below. destruct (y !! i); lia.
  - rewrite seq_S, map_app, concat_app, IH. simpl. rewrite app_nil_r.
    symmetry. apply filter_split.
    + intros i. unfold below. destruct (y !! i) as [k|]; [|split; [done|by intros [[]|?]]].
      split; [intros ?; destruct (decide (k = m)); [right; congruence|left; lia]|].
      intros [?|[= ->]]; lia.
    + intros i. unfold below. destruct (y !! i) as [k|]; [|done].
      intros ? [= ->]. lia.
Qed.

Lemma filter_all {A} (P : A -> Prop) `{forall x, Decision (P x)} (l : list A) :
  Forall P l -> filter P l = l.
Proof.
  induction 1 as [|x l Hx _ IH]; [done|].
  by rewrite filter_cons, decide_True, IH.
Qed.

Lemma where_eq_partition (y : list nat) (m : nat) :
  Forall (fun k => (k < m)%nat) y ->
  concat (map (fun k => where_eq y k) (seq 0 m)) ≡ₚ seq 0 (length y).
Proof.
  intros Hy. rewrite where_eq_classes, filter_all; [done|].
  apply Forall_forall. intros i [_ Hi]%elem_of_seq. unfold below.
  destruct (lookup_lt_is_Some_2 y i ltac:(lia)) as [k Hk]. rewrite Hk.
  rewrite Forall_forall in Hy. apply Hy. by eapply list_elem_of_lookup_2.
Qed.

Lemma filter_ext_in {A} (P Q : A -> Prop)
    `{forall x, Decision (P x), forall x, Decision (Q x)} (l : list A) :
  (forall x, x ∈ l -> P x <-> Q x) -> filter P l = filter Q l.
Proof.
  induction l as [|x l IH]; intros HPQ; [done|].
  rewrite !filter_cons, IH by (intros; apply HPQ; by right).
  destruct (decide (P x)) as [HP|HP].
  - by rewrite decide_True by (apply HPQ; [by left|done]).
  - rewrite decide_False; [done|]. intros HQ. apply HP, HPQ; [by left|done].
Qed.

Lemma length_where_eq `{EqDecision A} (y : list A) (k : A) :
  length (where_eq y k) = length (filter (fun x => x = k) y).
Proof.
  induction y as [|x y IH] using rev_ind; [done|].
  unfold where_eq in *. rewrite length_app. simpl.
  rewrite Nat.add_1_r, seq_S, !filter_app, !length_app. simpl.
  rewrite !filter_cons, !filter_nil.
  rewrite lookup_app_r, Nat.sub_diag by done. simpl.
  rewrite <-IH. f_equal.
  - f_equal. apply filter_ext_in. intros i [_ Hi]%elem_of_seq.
    by rewrite lookup_app_l by lia.
  - destruct (decide (x = k)) as [->|Hne].
    + by rewrite decide_True.
    + rewrite decide_False; [done|]. by intros [= ->].
Qed.

Lemma bincount_where_eq (n : nat) (y : list nat) :
  bincount n y
  = map (fun ci => Z.of_nat (length ci))
      (map (fun k => where_eq y k) (seq 0 n)).
Proof.
  unfold bincount. rewrite map_map. apply map_ext. intros k.
  by rewrite length_where_eq.
Qed.

Lemma sum_lengths {A} (ls : list (list A)) :
  sum (map (fun l => Z.of_nat (length l)) ls) = Z.of_nat (length (concat ls)).
Proof.
  induction ls as [|l ls IH]; [done|].
  simpl. rewrite length_app. unfold sum in *. simpl in *. lia.
Qed.

Lemma submseteq_NoDup {A} (l k : list A) : l ⊆+ k -> NoDup k -> NoDup l.
Proof.
  intros (k' & Hk)%submseteq_Permutation Hnodup.
  rewrite Hk in Hnodup. by apply NoDup_app in Hnodup as [? _].
Qed.

(** ** The apportionment of draws to classes *)

Section approximate_mode.
Context `{RandomState}.

(** The loop hands out [min need (avail remainder values)] draws, one to a
    class, and a class gets one only if fewer than [need] classes have a
    remainder that comes before its own in [values]. *)
Lemma add_by_remainder_inr values remainder floored need s r s' :
  NoDup values -> length floored = length remainder -> 0 < need ->
  add_by_remainder values remainder floored need s = inr (r, s') ->
  length r = length floored
  /\ sum r = sum floored + Z.min need (avail remainder values)
  /\ forall i f, floored !! i = Some f ->
       exists x, r !! i = Some x
         /\ (x = f
             \/ x = f + 1
                /\ exists v before after,
                     remainder !! i = Some v
                     /\ values = before ++ v :: after
                     /\ avail remainder before < need).
Proof.
  revert floored need s.
  induction values as [|value values IH]; intros floored need s Hnodup Hlen Hneed.
  { simpl. intros [-> ->]%rand_ret_inr. split; [done|]. split.
    - unfold avail. simpl. lia.
    - intros i f Hf. eauto. }
  apply NoDup_cons in Hnodup as [Hvalue Hnodup].
  simpl. intros (inds & s1 & Hchoice & Hrest)%rand_bind_inr.
  apply rng_choice_inr in Hchoice as [Hsub Hcount].
  set (pos := where_eq remainder value) in *.
  assert (NoDup inds) as Hinds by (eapply submseteq_NoDup; [done|apply NoDup_where_eq]).
  assert (forall i, i ∈ inds -> remainder !! i = Some value) as Hin.
  { intros i Hi. apply elem_of_where_eq. by eapply elem_of_submseteq. }
  assert (sum (add_at inds floored) = sum floored + Z.of_nat (length inds)) as Hsum.
  { apply sum_add_at; [done|]. apply Forall_forall. intros i Hi.
    rewrite Hlen. eapply lookup_lt_Some. by apply Hin. }
  assert (avail remainder (value :: values)
          = Z.of_nat (length pos) + avail remainder values) as Havail by done.
  assert (0 <= avail remainder values) as Hnonneg.
  { unfold avail. clear. induction values; simpl; [done|]. unfold sum in *. simpl. lia. }
  assert (forall i f, floored !! i = Some f ->
            add_at inds floored !! i = Some (if bool_decide (i ∈ inds) then f + 1 else f))
    as Hstep.
  { intros i f Hf. by rewrite lookup_add_at, Hf. }
  assert (forall i, i ∈ inds ->
            exists v before after,
              remainder !! i = Some v
              /\ value :: values = before ++ v :: after
              /\ avail remainder before < need) as Hfirst.
  { intros i Hi. exists value, [], values. split; [by apply Hin|]. split; [done|].
    unfold avail. simpl. lia. }
  destruct (Z.eqb_spec (need - Z.min (Z.of_nat (length pos)) need) 0) as [Hdone|Hmore].
  - apply rand_ret_inr in Hrest as [-> ->].
    split; [apply length_add_at|]. split; [lia|].
    intros i f Hf. rewrite (Hstep i f Hf). eexists. split; [done|].
    case_bool_decide as Hi; [right|by left]. split; [done|]. by apply Hfirst.
  - apply IH in Hrest as (Hlenr & Hsumr & Hr); [|done|by rewrite length_add_at|lia].
    rewrite length_add_at in Hlenr. split; [done|]. split; [lia|].
    intros i f Hf. destruct (Hr _ _ (Hstep i f Hf)) as (x & Hx & Hcase).
    exists x. split; [done|].
    case_bool_decide as Hi.
    + destruct Hcase as [->|[_ (v & before & after & Hv & Hvalues & _)]].
      * right. split; [done|]. by apply Hfirst.
      * rewrite (Hin i Hi) in Hv. injection Hv as <-.
        destruct Hvalue. rewrite Hvalues, elem_of_app, elem_of_cons. auto.
    + destruct Hcase as [->|[-> (v & before & after & Hv & Hvalues & Hbefore)]];
        [by left|].
      right. split; [done|]. exists v, (value :: before), after.
      split; [done|]. split; [by rewrite Hvalues|].
      change (avail remainder (value :: before))
        with (Z.of_nat (length pos) + avail remainder before). lia.
Qed.

Lemma count_singleton (values : list Qc) (x : Qc) :
  NoDup values -> x ∈ values ->
  sum (map (fun v => Z.of_nat (length (filter (fun y => y = v) [x]))) values) = 1.
Proof.
  induction 1 as [|v values Hv Hnodup IH]; [by intros ?%elem_of_nil|].
  intros [->|Hx]%elem_of_cons; simpl; rewrite filter_cons, filter_nil.
  - rewrite decide_True by done.
    assert (sum (map (fun v0 => Z.of_nat (length (filter (fun y => y = v0) [v]))) values) = 0)
      as Hrest.
    { clear -Hv. induction values as [|w values IH]; [done|].
      apply not_elem_of_cons in Hv as [Hvw Hv]. simpl.
      rewrite filter_cons, filter_nil, decide_False by done.
      specialize (IH Hv). unfold sum in *. simpl in *. lia. }
    unfold sum in *. simpl in *. lia.
  - rewrite decide_False by (intros ->; done).
    specialize (IH Hx). unfold sum in *. simpl in *. lia.
Qed.

Lemma avail_count (remainder values : list Qc) :
  NoDup values ->
  avail remainder values
  = Z.of_nat (length (filter (fun x => x ∈ values) remainder)).
Proof.
  intros Hnodup. unfold avail.
  rewrite (map_ext _ (fun v => Z.of_nat (length (filter (fun y => y = v) remainder))))
    by (intros v; by rewrite length_where_eq).
  induction remainder as [|x remainder IH].
  { clear. induction values as [|v values IHv]; [done|].
    unfold sum in *. simpl in *. lia. }
  assert (forall l : list Qc,
    sum (map (fun v => Z.of_nat (length (filter (fun y => y = v) (x :: remainder)))) l)
    = sum (map (fun v => Z.of_nat (length (filter (fun y => y = v) [x]))) l)
      + sum (map (fun v => Z.of_nat (length (filter (fun y => y = v) remainder))) l))
    as Hsplit.
  { clear. induction l as [|v l IHl]; [done|].
    simpl. rewrite !filter_cons, filter_nil.
    destruct (decide (x = v)); rewrite ?length_cons, ?length_nil;
      unfold sum in *; simpl foldr in *; lia. }
  rewrite Hsplit, IH, filter_cons. destruct (decide (x ∈ values)) as [Hx|Hx].
  - rewrite (count_singleton values x Hnodup Hx), length_cons. lia.
  - assert (sum (map (fun v => Z.of_nat (length (filter (fun y => y = v) [x]))) values) = 0)
      as ->; [|lia].
    clear -Hx. induction values as [|v values IHv]; [done|].
    apply not_elem_of_cons in Hx as [Hxv Hx]. simpl.
    rewrite filter_cons, filter_nil, decide_False by done.
    specialize (IHv Hx). unfold sum in *. simpl in *. lia.
Qed.

Lemma avail_cover (remainder values : list Qc) :
  NoDup values -> Forall (fun x => x ∈ values) remainder ->
  avail remainder values = Z.of_nat (length remainder).
Proof.
  intros Hnodup Hall. rewrite avail_count by done. by rewrite filter_all.
Qed.

Lemma floors_mod (cc : list Z) (n total : Z) :
  0 < total -> sum cc = total ->
  total * (n - sum (map (fun c => c * n / total) cc))
  = sum (map (fun c => (c * n) mod total) cc).
Proof.
  intros Htotal Hsum.
  assert (forall l : list Z,
    total * sum (map (fun c => c * n / total) l)
      + sum (map (fun c => (c * n) mod total) l) = n * sum l) as Hdiv.
  { induction l as [|c l IH]; [unfold sum; simpl; lia|].
    unfold sum in *. simpl in *.
    pose proof (Z.div_mod (c * n) total ltac:(lia)). lia. }
  specialize (Hdiv cc). rewrite Hsum in Hdiv. lia.
Qed.

Lemma floors_deficit (cc : list Z) (n total : Z) :
  0 < total -> sum cc = total ->
  0 <= n - sum (map (fun c => c * n / total) cc) <= Z.of_nat (length cc).
Proof.
  intros Htotal Hsum.
  pose proof (floors_mod cc n total Htotal Hsum) as Hmod.
  assert (0 <= sum (map (fun c => (c * n) mod total) cc)
          <= (total - 1) * Z.of_nat (length cc)) as Hbound.
  { clear Hsum Hmod. induction cc as [|c cc IH]; [unfold sum; simpl; lia|].
    unfold sum in *. simpl in *.
    pose proof (Z.mod_pos_bound (c * n) total ltac:(lia)). lia. }
  nia.
Qed.

(** The part of a share above its floor. *)
Lemma remainder_share (c total n : Z) :
  0 < total ->
  (Qc_of_Z c / Qc_of_Z total * Qc_of_Z n - Qc_of_Z (c * n / total))%Qc
  = Q2Qc ((c * n) mod total # Z.to_pos total).
Proof.
  intros Htotal. apply Qc_is_canon.
  unfold Qcminus, Qcplus, Qcopp, Qcdiv, Qcmult, Qcinv, Qc_of_Z, Q2Qc. simpl this.
  rewrite !Qred_correct.
  pose proof (Z.div_mod (c * n) total ltac:(lia)) as Hdiv.
  destruct total as [|p|p]; try lia. simpl.
  unfold Qeq, Qplus, Qopp, Qmult, Qinv, inject_Z. simpl.
  rewrite !Z.mul_1_r, Pos.mul_1_r. nia.
Qed.

Lemma remainder_positive (r total : Z) :
  0 < total -> 0 < r -> (0 < Q2Qc (r # Z.to_pos total))%Qc.
Proof.
  intros Htotal Hr.
  change (0 < Qred (r # Z.to_pos total))%Q. rewrite Qred_correct.
  unfold Qlt. simpl. lia.
Qed.

Lemma remainders_bound (cc : list Z) (n total : Z) (before : list Qc) :
  0 < total ->
  (forall c, c ∈ cc -> 0 < (c * n) mod total ->
     Q2Qc ((c * n) mod total # Z.to_pos total) ∈ before) ->
  sum (map (fun c => (c * n) mod total) cc)
  <= (total - 1)
     * Z.of_nat (length (filter (fun x => x ∈ before)
                           (map (fun c => Q2Qc ((c * n) mod total # Z.to_pos total)) cc))).
Proof.
  intros Htotal. induction cc as [|c cc IH]; intros Hin; [unfold sum; simpl; lia|].
  specialize (IH ltac:(intros; apply Hin; [by right|done])).
  pose proof (Z.mod_pos_bound (c * n) total ltac:(lia)) as Hmod.
  simpl map. rewrite filter_cons. unfold sum in *. simpl foldr.
  destruct (decide (0 < (c * n) mod total)) as [Hpos|Hzero].
  - rewrite decide_True by (apply Hin; [by left|done]). rewrite length_cons. nia.
  - destruct (decide _); rewrite ?length_cons; nia.
Qed.

Lemma remainder_map (cc : list Z) (n total : Z) :
  0 < total ->
  zip_with (fun (x : Qc) f => (x - Qc_of_Z f)%Qc)
    (map (fun c => (Qc_of_Z c / Qc_of_Z total * Qc_of_Z n)%Qc) cc)
    (map (fun c => c * n / total) cc)
  = map (fun c => Q2Qc ((c * n) mod total # Z.to_pos total)) cc.
Proof.
  intros Htotal. induction cc as [|c cc IH]; [done|].
  simpl. rewrite IH. f_equal. by apply remainder_share.
Qed.

(** [_approximate_mode] hands out exactly [n_draws] draws: to every class
    the floor of its share or one more, and one more only where the share is
    not a whole number. *)
Lemma _approximate_mode_inr (class_counts : list Z) (n_draws : Z) s r s' :
  0 < sum class_counts ->
  _approximate_mode class_counts n_draws s = inr (r, s') ->
  sum r = n_draws
  /\ Forall2 (fun c x =>
               let q := c * n_draws / sum class_counts in
               x = q \/ x = q + 1 /\ (c * n_draws) mod sum class_counts <> 0)
       class_counts r.
Proof.
  intros Htotal. unfold _approximate_mode.
  set (total := sum class_counts) in *.
  rewrite (map_map _ (fun x : Qc => Qfloor x)).
  rewrite (map_ext _ (fun c => c * n_draws / total))
    by (intros c; by apply Qfloor_share).
  set (floored := map (fun c => c * n_draws / total) class_counts).
  pose proof (floors_deficit class_counts n_draws total Htotal eq_refl) as Hneed.
  pose proof (floors_mod class_counts n_draws total Htotal eq_refl) as Hmods.
  fold floored in Hneed, Hmods.
  destruct (Z.ltb_spec 0 (n_draws - sum floored)) as [Hpos|Hzero].
  2:{ intros [-> ->]%rand_ret_inr. split; [lia|].
      unfold floored. apply Forall2_fmap_r, Forall_Forall2_diag, Forall_true.
      intros c. by left. }
  set (remainder := zip_with _ _ floored).
  assert (remainder
          = map (fun c => Q2Qc ((c * n_draws) mod total # Z.to_pos total)) class_counts)
    as Hremainder.
  { unfold remainder, floored. by apply remainder_map. }
  assert (length floored = length class_counts) as Hlenf
    by (unfold floored; by rewrite length_map).
  assert (length remainder = length class_counts) as Hlenr
    by (rewrite Hremainder; by rewrite length_map).
  set (sorted := merge_sort Qcle (remove_dups remainder)).
  assert (NoDup (reverse sorted)) as Hnodup.
  { unfold sorted. rewrite reverse_Permutation, merge_sort_Permutation.
    apply NoDup_remove_dups. }
  assert (forall x, x ∈ remainder -> x ∈ reverse sorted) as Hcover.
  { intros x Hx. unfold sorted.
    by rewrite elem_of_reverse, merge_sort_Permutation, elem_of_remove_dups. }
  assert (StronglySorted Qcle sorted) as Hsorted.
  { apply StronglySorted_merge_sort; apply _. }
  intros Hloop. apply add_by_remainder_inr in Hloop as (Hlen & Hsum & Hr);
    [|done|congruence|done].
  rewrite avail_cover in Hsum by (by apply Forall_forall || done).
  split; [lia|].
  apply Forall2_same_length_lookup. split; [congruence|].
  intros i c x Hc Hx.
  assert (floored !! i = Some (c * n_draws / total)) as Hf.
  { unfold floored. by rewrite list_lookup_fmap, Hc. }
  destruct (Hr i _ Hf) as (x' & Hx' & Hcase).
  rewrite Hx in Hx'. injection Hx' as <-. simpl.
  destruct Hcase as [->|[-> (v & before & after & Hv & Hvalues & Hbefore)]];
    [by left|].
  right. split; [done|]. intros Hnone.
  assert (v = Q2Qc (0 # Z.to_pos total)) as ->.
  { rewrite Hremainder, list_lookup_fmap, Hc in Hv. simpl in Hv.
    rewrite Hnone in Hv. by injection Hv. }
  set (zero := Q2Qc (0 # Z.to_pos total)) in *.
  assert (NoDup before) as Hnodup_before.
  { rewrite Hvalues in Hnodup. by apply NoDup_app in Hnodup as [? _]. }
  assert (sorted = reverse after ++ zero :: reverse before) as Hsplit.
  { rewrite <-(reverse_involutive sorted), Hvalues, reverse_app, reverse_cons.
    by rewrite <-app_assoc. }
  assert (forall c', c' ∈ class_counts -> 0 < (c' * n_draws) mod total ->
            Q2Qc ((c' * n_draws) mod total # Z.to_pos total) ∈ before) as Hpositive.
  { intros c' Hc' Hpos'.
    pose proof (remainder_positive _ total Htotal Hpos') as Hlt.
    set (w := Q2Qc ((c' * n_draws) mod total # Z.to_pos total)) in *.
    assert (w ∈ reverse sorted) as Hw.
    { apply Hcover. rewrite Hremainder. apply list_elem_of_fmap. by exists c'. }
    rewrite Hvalues, elem_of_app, elem_of_cons in Hw.
    assert (zero = Q2Qc 0) as Hzero by (by apply Qc_is_canon).
    apply Qclt_not_le in Hlt.
    destruct Hw as [?|[Hw|Hw]]; [done|..]; exfalso; apply Hlt.
    - rewrite Hw, Hzero. apply Qcle_refl.
    - rewrite Hsplit in Hsorted. rewrite <-Hzero.
      eapply StronglySorted_app_1_elem_of; [exact Hsorted|..].
      + by apply elem_of_reverse.
      + by left. }
  pose proof (remainders_bound class_counts n_draws total before Htotal Hpositive)
    as Hbound.
  rewrite <-Hremainder, <-avail_count in Hbound by done.
  nia.
Qed.

End approximate_mode.

(** ** Drawing the two sides *)

Lemma slice_take {A} (l : list A) (lo hi : Z) :
  0 <= lo <= hi -> hi <= Z.of_nat (length l) ->
  slice l lo hi = take (Z.to_nat (hi - lo)) (drop (Z.to_nat lo) l).
Proof.
  intros Hlo Hhi. unfold slice.
  destruct (Z.ltb_spec lo 0), (Z.ltb_spec hi 0); try lia.
  by rewrite !Z.min_l by lia.
Qed.

Lemma take_clip_Permutation {A} (a : list A) (p : list nat) :
  p ≡ₚ seq 0 (length a) -> take_clip a p ≡ₚ a.
Proof.
  intros Hp. unfold take_clip. rewrite Hp.
  transitivity (omap (fun q => a !! q) (seq 0 (length a)));
    [|by rewrite omap_lookup_seq].
  apply reflexive_eq, list_omap_ext, Forall_Forall2_diag, Forall_forall.
  intros q [_ Hq]%elem_of_seq. by rewrite Nat.min_l by lia.
Qed.

Section draws.
Context `{RandomState}.

(** Class by class, the train side is the head and the test side the tail
    of a shuffle of the positions of the class. *)
Lemma draw_classes_inr (class_indices : list (list nat)) (n_i : list Z)
    s train test s' :
  Forall2 (fun ci n => 0 <= n <= Z.of_nat (length ci)) class_indices n_i ->
  draw_classes (map (fun ci => Z.of_nat (length ci)) class_indices)
    class_indices n_i
    (zip_with Z.sub (map (fun ci => Z.of_nat (length ci)) class_indices) n_i)
    s = inr ((train, test), s') ->
  exists ps,
    Forall2 Permutation ps class_indices
    /\ train = concat (zip_with (fun p n => take (Z.to_nat n) p) ps n_i)
    /\ test = concat (zip_with (fun p n => drop (Z.to_nat n) p) ps n_i).
Proof.
  intros Hall. revert s train test s'.
  induction Hall as [|ci n cis n_i Hn _ IH]; intros s train test s'.
  { simpl. intros [[= -> ->] _]%rand_ret_inr. exists []. split; [constructor|done]. }
  simpl.
  intros (p & s1 & Hp%rng_permutation_inr
          & ([tr te] & s2 & Hrest & [[= -> ->] _]%rand_ret_inr)%rand_bind_inr)%rand_bind_inr.
  apply IH in Hrest as (ps & Hps & -> & ->).
  rewrite Nat2Z.id in Hp. apply take_clip_Permutation in Hp.
  set (perm := take_clip ci (p)) in *.
  assert (length perm = length ci) as Hlen by by rewrite Hp.
  exists (perm :: ps). split; [by constructor|].
  rewrite !slice_take by lia. simpl.
  replace (n + (Z.of_nat (length ci) - n) - n) with (Z.of_nat (length ci) - n) by lia.
  split; f_equal.
  - by rewrite Z.sub_0_r.
  - rewrite take_ge; [done|]. rewrite length_drop. lia.
Qed.

End draws.

Lemma take_drop_classes (ps : list (list nat)) (n_i : list Z) :
  length ps = length n_i ->
  concat (zip_with (fun p n => take (Z.to_nat n) p) ps n_i)
  ++ concat (zip_with (fun p n => drop (Z.to_nat n) p) ps n_i)
  ≡ₚ concat ps.
Proof.
  revert n_i. induction ps as [|p ps IH]; intros [|n n_i] Hlen; try done.
  simpl. rewrite <-(IH n_i) by (simpl in Hlen; lia).
  rewrite <-(take_drop (Z.to_nat n) p) at 3.
  rewrite <-!app_assoc. apply Permutation_app_head.
  rewrite !app_assoc. apply Permutation_app_tail, Permutation_app_comm.
Qed.

Lemma concat_Permutation (ps qs : list (list nat)) :
  Forall2 Permutation ps qs -> concat ps ≡ₚ concat qs.
Proof. induction 1 as [|p q ps qs Hpq _ IH]; simpl; [done|]. by rewrite Hpq, IH. Qed.

(** ** Classes *)

(** [np.unique]: the classes are distinct, and every element is sent to the
    position of its own value among them. *)
Lemma unique_inverse_inr (y : list scalar) classes y_indices :
  unique_inverse y = inr (classes, y_indices) ->
  NoDup classes
  /\ Forall2 (fun v k => exists key, key_of v = Some key /\ classes !! k = Some key)
       y y_indices.
Proof.
  unfold unique_inverse.
  destruct (mapM key_of y) as [keys|] eqn:Hkeys; [|done].
  destruct (_ || _); [|done]. intros [= <- <-].
  set (classes := merge_sort key_le (remove_dups keys)).
  assert (NoDup classes) as Hnodup.
  { unfold classes. rewrite merge_sort_Permutation. apply NoDup_remove_dups. }
  split; [done|].
  apply mapM_Some in Hkeys.
  apply Forall2_same_length_lookup. split.
  { rewrite length_map. by eapply Forall2_length. }
  intros i v k Hv Hk. rewrite list_lookup_fmap in Hk.
  destruct (keys !! i) as [key|] eqn:Hi; [|done]. injection Hk as <-.
  exists key. split; [exact (Forall2_lookup_lr _ _ _ i v key Hkeys Hv Hi)|].
  assert (key ∈ classes) as Hin.
  { unfold classes. rewrite merge_sort_Permutation, elem_of_remove_dups.
    by eapply list_elem_of_lookup_2. }
  apply list_elem_of_lookup in Hin as [j Hj].
  destruct (list_find (fun c => c = key) classes) as [[j' c]|] eqn:Hfind.
  - apply list_find_Some in Hfind as (Hj' & -> & _). done.
  - eapply list_find_None, Forall_forall in Hfind;
      [|by eapply list_elem_of_lookup_2]. done.
Qed.

Lemma validate_counts (n t r : Z) d n_train n_test :
  _validate_shuffle_split n (Some (Count t)) (Some (Count r)) d
    = inr (n_train, n_test) ->
  n_train = r /\ n_test = t /\ 0 < t /\ 0 < r /\ r + t <= n.
Proof.
  unfold _validate_shuffle_split, size_out_of_range.
  destruct (Z.leb_spec n t), (Z.leb_spec t 0); simpl; try done.
  destruct (Z.leb_spec n r), (Z.leb_spec r 0); simpl; try done.
  destruct (Z.ltb_spec n (r + t)); [done|].
  destruct (Z.eqb_spec r 0); [done|].
  intros [= <- <-]. lia.
Qed.

Lemma validate_fraction (n : Z) (q : Qc) d n_train n_test :
  _validate_shuffle_split n (Some (Fraction q)) None d = inr (n_train, n_test) ->
  n_test = Qceiling (q * Qc_of_Z n)%Qc /\ n_train = n - n_test /\ n_train <> 0.
Proof.
  unfold _validate_shuffle_split, size_out_of_range.
  destruct (_ || _); [done|]. cbv zeta.
  generalize (Qceiling (q * Qc_of_Z n)%Qc). intros c.
  destruct (Z.ltb_spec n (n - c + c)); [done|].
  destruct (Z.eqb_spec (n - c) 0); [done|].
  intros [= <- <-]. repeat split; done.
Qed.

Lemma same_sum_eq (cc r : list Z) :
  Forall2 (fun c x => x = c \/ x = c + 1) cc r -> sum r = sum cc -> r = cc.
Proof.
  intros Hall.
  assert (sum cc <= sum r) as Hle.
  { induction Hall as [|c x cc r Hx _ IH]; [done|]. unfold sum in *. simpl. lia. }
  induction Hall as [|c x cc r Hx Hall IH]; [done|].
  assert (sum cc <= sum r) as Hle'.
  { clear -Hall. induction Hall as [|c x cc r Hx _ IH]; [done|].
    unfold sum in *. simpl. lia. }
  unfold sum in *. simpl in *. intros Hsum.
  assert (x = c) as -> by lia. f_equal. apply IH; lia.
Qed.

Lemma filter_concat_nil {A} (P : A -> Prop) `{forall x, Decision (P x)}
    (chunks : list (list A)) :
  Forall (Forall (fun p => ~ P p)) chunks -> filter P (concat chunks) = [].
Proof.
  induction 1 as [|ch chunks Hch _ IH]; [done|].
  simpl. rewrite filter_app, IH, app_nil_r.
  induction Hch as [|p ch Hp _ IHch]; [done|].
  by rewrite filter_cons, decide_False.
Qed.

Lemma count_chunks (yi : list nat) (chunks : list (list nat)) (k : nat) chunk :
  (forall j ch, chunks !! j = Some ch -> Forall (fun p => yi !! p = Some j) ch) ->
  chunks !! k = Some chunk ->
  length (filter (fun p => yi !! p = Some k) (concat chunks)) = length chunk.
Proof.
  intros Hall Hchunk.
  rewrite <-(take_drop_middle chunks k chunk Hchunk).
  rewrite concat_app. simpl. rewrite !filter_app, !length_app.
  rewrite (filter_all _ chunk) by by eapply Hall.
  rewrite !filter_concat_nil; [simpl; lia|..].
  - apply Forall_forall. intros ch [j Hj]%list_elem_of_lookup.
    rewrite lookup_drop in Hj. eapply Forall_impl; [by eapply Hall|].
    intros p Hp. simpl in Hp. rewrite Hp. intros [= ?]. lia.
  - apply Forall_forall. intros ch [j Hj]%list_elem_of_lookup.
    apply lookup_take_Some in Hj as [Hj Hlt].
    eapply Forall_impl; [by eapply Hall|].
    intros p Hp. simpl in Hp. rewrite Hp. intros [= ?]. lia.
Qed.

(** ** One stratified split *)

Lemma py_eq_key (v c : scalar) (key : key) :
  key_of v = Some key -> py_eq v c = true <-> key_of c = Some key.
Proof.
  destruct v as [|s|z|q|b], c as [|s'|z'|q'|b']; simpl; intros [= <-];
    rewrite ?bool_decide_eq_true; split; (intros [= ->] || intros ->); done.
Qed.

Lemma length_chunks (ps : list (list nat)) (n_i : list Z) :
  Forall2 (fun p n => 0 <= n <= Z.of_nat (length p)) ps n_i ->
  Z.of_nat (length (concat (zip_with (fun p n => take (Z.to_nat n) p) ps n_i)))
  = sum n_i.
Proof.
  induction 1 as [|p n ps n_i Hn _ IH]; [done|].
  simpl. rewrite length_app, length_take. unfold sum in *. simpl. lia.
Qed.

Lemma carries_class (y : Series) (yi : list nat) (classes : list key)
    (c : scalar) (key : key) (k p : nat) :
  NoDup classes ->
  Forall2 (fun v k => exists key, key_of v = Some key /\ classes !! k = Some key)
    y yi ->
  key_of c = Some key -> classes !! k = Some key ->
  carries y c p <-> yi !! p = Some k.
Proof.
  intros Hnodup Hyi Hc Hk. unfold carries.
  destruct (y !! p) as [v|] eqn:Hv.
  - destruct (Forall2_lookup_l _ _ _ _ _ Hyi Hv) as (k' & Hk' & key' & Hkey' & Hclass).
    rewrite Hk', (py_eq_key v c key' Hkey'), Hc. split.
    + intros [= ->]. f_equal. by eapply NoDup_lookup.
    + intros [= ->]. congruence.
  - split; [done|]. intros Hp.
    destruct (Forall2_lookup_r _ _ _ _ _ Hyi Hp) as (v & Hv' & _).
    by rewrite Hv in Hv'.
Qed.

Lemma carries_no_class (y : Series) (yi : list nat) (classes : list key)
    (c : scalar) (p : nat) :
  Forall2 (fun v k => exists key, key_of v = Some key /\ classes !! k = Some key)
    y yi ->
  (forall key, key_of c = Some key -> key ∉ classes) ->
  ~ carries y c p.
Proof.
  intros Hyi Hc. unfold carries.
  destruct (y !! p) as [v|] eqn:Hv; [|by intros []].
  destruct (Forall2_lookup_l _ _ _ _ _ Hyi Hv) as (k' & Hk' & key' & Hkey' & Hclass).
  rewrite (py_eq_key v c key' Hkey'). intros Hc'.
  eapply Hc; [done|]. by eapply list_elem_of_lookup_2.
Qed.

Lemma filter_none {A} (P : A -> Prop) `{forall x, Decision (P x)} (l : list A) :
  (forall x, ~ P x) -> filter P l = [].
Proof.
  intros HP. induction l as [|x l IH]; [done|].
  by rewrite filter_cons, decide_False.
Qed.

Section one_split.
Context `{RandomState}.

(** One stratified split: the two sides hold every position once, the train
    side has the size asked for, and the number of train rows of a label is
    the floor of the label's share or one more. *)
Lemma _iter_indices_inr (y : list scalar) (t r : Z) s train test s' :
  _iter_indices (Z.of_nat (length y)) y (Some (Count t)) (Some (Count r)) s
    = inr ((train, test), s') ->
  r + t = Z.of_nat (length y) ->
  train ++ test ≡ₚ seq 0 (length y)
  /\ Z.of_nat (length train) = r
  /\ forall c,
       let all := count_label y c (seq 0 (length y)) in
       let q := all * r / Z.of_nat (length y) in
       count_label y c train = q
       \/ count_label y c train = q + 1 /\ (all * r) mod Z.of_nat (length y) <> 0.
Proof.
  unfold _iter_indices. intros Hrun Hsizes.
  apply rand_bind_inr in Hrun as ([n_train n_test] & s0 & [Hval ->]%lift_inr & Hrun).
  apply validate_counts in Hval as (-> & -> & Ht & Hr & _).
  apply rand_bind_inr in Hrun as ([classes yi] & s0 & [Huniq ->]%lift_inr & Hrun).
  apply unique_inverse_inr in Huniq as [Hnodup Hyi].
  set (m := length classes) in *.
  assert (length yi = length y) as Hlen by (symmetry; by eapply Forall2_length).
  assert (Forall (fun k => (k < m)%nat) yi) as Hbelow.
  { apply Forall_forall. intros k [i Hi]%list_elem_of_lookup.
    destruct (Forall2_lookup_r _ _ _ _ _ Hyi Hi) as (v & _ & key & _ & Hk).
    by eapply lookup_lt_Some. }
  rewrite bincount_where_eq in Hrun.
  set (cis := map (fun k => where_eq yi k) (seq 0 m)) in *.
  set (cc := map (fun ci => Z.of_nat (length ci)) cis) in *.
  assert (sum cc = Z.of_nat (length y)) as Htotal.
  { unfold cc. rewrite sum_lengths. unfold cis.
    by rewrite where_eq_partition, length_seq, Hlen. }
  case_bool_decide as Hsmall; [done|].
  destruct (Z.ltb_spec r (Z.of_nat m)) as [?|Hrm]; [done|].
  destruct (Z.ltb_spec t (Z.of_nat m)) as [?|Htm]; [done|].
  apply rand_bind_inr in Hrun as (n_i & s1 & Hn_i & Hrun).
  apply _approximate_mode_inr in Hn_i as [Hsum_n Hn_i]; [|lia].
  rewrite Htotal in Hn_i.
  assert (Forall (fun ci => 2 <= Z.of_nat (length ci)) cis) as Hlarge.
  { apply Forall_forall. intros ci Hci.
    destruct (Z.le_gt_cases 2 (Z.of_nat (length ci))) as [?|Hlt]; [done|].
    destruct Hsmall. apply Exists_exists. exists (Z.of_nat (length ci)).
    split; [|lia]. unfold cc. apply list_elem_of_fmap. by exists ci. }
  assert (Forall2 (fun ci n => 0 <= n <= Z.of_nat (length ci)) cis n_i) as Hbounds.
  { unfold cc in Hn_i. apply Forall2_fmap_l in Hn_i.
    apply Forall2_same_length_lookup. split; [by eapply Forall2_length|].
    intros i ci n Hci Hn.
    pose proof (Forall2_lookup_lr _ _ _ _ _ _ Hn_i Hci Hn) as Hcase. simpl in Hcase.
    assert (n = Z.of_nat (length ci) * r / Z.of_nat (length y)
            \/ n = Z.of_nat (length ci) * r / Z.of_nat (length y) + 1) as Hcase'
      by tauto.
    clear Hcase.
    rewrite Forall_forall in Hlarge.
    specialize (Hlarge ci ltac:(by eapply list_elem_of_lookup_2)).
    assert (0 <= Z.of_nat (length ci) * r / Z.of_nat (length y))
      by (apply Z.div_pos; nia).
    assert (Z.of_nat (length ci) * r / Z.of_nat (length y) < Z.of_nat (length ci))
      by (apply Z.div_lt_upper_bound; nia).
    lia. }
  apply rand_bind_inr in Hrun as (t_i & s2 & Ht_i & Hrun).
  assert (sum (zip_with Z.sub cc n_i) = t) as Hremaining.
  { assert (forall a b : list Z, length a = length b ->
              sum (zip_with Z.sub a b) = sum a - sum b) as Hsub.
    { induction a as [|x a IH]; intros [|z b] Hab; try done.
      simpl in Hab. unfold sum in *. simpl. rewrite IH by lia. lia. }
    rewrite Hsub; [lia|]. unfold cc. rewrite length_map.
    by eapply Forall2_length. }
  apply _approximate_mode_inr in Ht_i as [Hsum_t Ht_i]; [|lia].
  rewrite Hremaining in Ht_i.
  assert (t_i = zip_with Z.sub cc n_i) as ->.
  { apply same_sum_eq; [|lia]. eapply Forall2_impl; [exact Ht_i|].
    intros c x. simpl. rewrite Z.div_mul by lia. tauto. }
  apply rand_bind_inr in Hrun as ([train0 test0] & s3 & Hdraw & Hrun).
  apply (draw_classes_inr cis n_i) in Hdraw as (ps & Hps & -> & ->); [|done].
  apply rand_bind_inr in Hrun as (train1 & s4 & Htrain%rng_permutation_of_inr & Hrun).
  apply rand_bind_inr in Hrun
    as (test1 & s5 & Htest%rng_permutation_of_inr & [[= -> ->] _]%rand_ret_inr).
  assert (length ps = length n_i) as Hpslen.
  { apply Forall2_length in Hps, Hbounds. lia. }
  assert (Forall2 (fun p n => 0 <= n <= Z.of_nat (length p)) ps n_i) as Hpsbounds.
  { apply Forall2_same_length_lookup. split; [done|]. intros i p n Hp Hn.
    destruct (Forall2_lookup_l _ _ _ _ _ Hps Hp) as (ci & Hci & Hperm).
    rewrite Hperm. by eapply (Forall2_lookup_lr _ _ _ _ _ _ Hbounds). }
  split; [|split].
  - rewrite Htrain, Htest, take_drop_classes by done.
    rewrite (concat_Permutation _ _ Hps). unfold cis.
    by rewrite where_eq_partition, Hlen.
  - rewrite Htrain. by rewrite length_chunks.
  - intros c. unfold count_label. rewrite Htrain.
    destruct (key_of c) as [key|] eqn:Hc.
    2:{ rewrite !filter_none; [by left|..]; intros p;
          eapply carries_no_class; try done; by rewrite Hc. }
    destruct (decide (key ∈ classes)) as [[k Hk]%list_elem_of_lookup|Hout].
    2:{ rewrite !filter_none; [by left|..]; intros p;
          eapply carries_no_class; try done; rewrite Hc; by intros ? [= <-]. }
    rewrite !(list_filter_iff (carries y c) (fun p => yi !! p = Some k))
      by (intros p; by eapply carries_class).
    assert (k < m)%nat as Hkm by by eapply lookup_lt_Some.
    assert (cis !! k = Some (where_eq yi k)) as Hci.
    { unfold cis. by rewrite list_lookup_fmap, lookup_seq_lt. }
    destruct (Forall2_lookup_r _ _ _ _ _ Hps Hci) as (p & Hp & Hperm).
    destruct (Forall2_lookup_l _ _ _ _ _ Hpsbounds Hp) as (n & Hn & Hnb).
    assert (filter (fun p => yi !! p = Some k) (seq 0 (length y)) = where_eq yi k)
      as -> by (unfold where_eq; by rewrite Hlen).
    rewrite (count_chunks yi _ k (take (Z.to_nat n) p)).
    + rewrite length_take, <-Hperm.
      assert (cc !! k = Some (Z.of_nat (length p))) as Hcc.
      { unfold cc. by rewrite list_lookup_fmap, Hci, Hperm. }
      pose proof (Forall2_lookup_lr _ _ _ _ _ _ Hn_i Hcc Hn) as Hcase.
      simpl in Hcase. rewrite (Nat2Z.id n ltac:(lia)) || idtac.
      replace (Z.of_nat (Z.to_nat n `min` length p)) with n by lia.
      exact Hcase.
    + intros j ch Hch. apply lookup_zip_with_Some in Hch as (pj & nj & -> & Hpj & Hnj).
      destruct (Forall2_lookup_l _ _ _ _ _ Hps Hpj) as (cj & Hcj & Hpermj).
      unfold cis in Hcj. rewrite list_lookup_fmap in Hcj.
      destruct (seq 0 m !! j) as [j'|] eqn:Hj; [|done].
      apply lookup_seq in Hj as [-> _]. injection Hcj as <-.
      apply Forall_forall. intros q (i & Hq & _)%elem_of_take.
      apply elem_of_where_eq. rewrite <-Hpermj. by eapply list_elem_of_lookup_2.
    + rewrite lookup_zip_with, Hp. simpl. by rewrite Hn.
Qed.
End one_split.

(** ** Rows by position *)

Lemma lookups_inr {A} (a : list A) (e : exn) (idx : list nat) (l : list A) :
  mapM (fun p => match a !! p with
                 | Some x => mret x
                 | None => raise e
                 end) idx = inr l
  <-> getitems a idx = inr l.
Proof.
  rewrite getitems_inr, mapM_inr.
  split; intros Hall; eapply Forall2_impl; try exact Hall;
    intros p x; simpl; destruct (a !! p); by intros [= ->].
Qed.

Lemma iloc_inr (df a : DataFrame) (positions : list nat) :
  iloc df positions = inr a ->
  getitems (index df) positions = inr (index a)
  /\ Forall2 (fun c c' => c'.1 = c.1 /\ getitems c.2 positions = inr c'.2)
       (columns df) (columns a).
Proof.
  unfold iloc. intros (idx & Hidx & (cols & Hcols & [= <-])%bind_inr)%bind_inr.
  split; [by apply lookups_inr in Hidx|]. simpl. apply mapM_inr in Hcols.
  eapply Forall2_impl; [exact Hcols|]. intros c c' Hc. simpl in Hc.
  apply bind_inr in Hc as (v & Hv & [= <-]). split; [done|].
  by apply lookups_inr in Hv.
Qed.

Lemma nrows_iloc (df a : DataFrame) (positions : list nat) :
  iloc df positions = inr a -> nrows a = length positions.
Proof.
  intros [Hidx _]%iloc_inr. apply getitems_inr, Forall2_length in Hidx.
  unfold nrows. lia.
Qed.

Lemma getitem_iloc (df a : DataFrame) (positions : list nat) key col' :
  iloc df positions = inr a -> getitem a key = inr col' ->
  exists col, getitem df key = inr col /\ getitems col positions = inr col'.
Proof.
  intros [_ Hcols]%iloc_inr. unfold getitem.
  induction Hcols as [|c c' cols cols' [Hname Hc] _ IH]; [done|].
  simpl. rewrite Hname. destruct (decide (c.1 = key)) as [_|Hne]; simpl.
  - intros [= <-]. eauto.
  - destruct (list_find _ cols') as [[i' [k' v']]|]; simpl in *; [|done].
    intros [= <-]. destruct (list_find _ cols) as [[i [k v]]|]; simpl in *.
    + destruct IH as (col & [= <-] & Hcol); [done|]. eauto.
    + by destruct IH as (col & ? & _).
Qed.

Lemma getitems_app {A} (a : list A) (p q : list nat) l :
  getitems a (p ++ q) = inr l <->
  exists lp lq, getitems a p = inr lp /\ getitems a q = inr lq /\ l = lp ++ lq.
Proof.
  rewrite getitems_inr. split.
  - intros (lp & lq & Hp & Hq & ->)%Forall2_app_inv_l.
    exists lp, lq. by rewrite !getitems_inr.
  - intros (lp & lq & Hp%getitems_inr & Hq%getitems_inr & ->).
    by apply Forall2_app.
Qed.

Lemma getitems_compose {A} (a : list A) (p q : list nat) ap pq :
  getitems a p = inr ap -> getitems p q = inr pq ->
  getitems ap q = getitems a pq.
Proof.
  intros Hap%getitems_inr Hpq%getitems_inr.
  unfold getitems. induction Hpq as [|i j q pq Hi _ IH]; [done|].
  simpl. rewrite IH.
  destruct (Forall2_lookup_l _ _ _ _ _ Hap Hi) as (x & -> & ->). done.
Qed.

Lemma getitems_total {A} (a : list A) (p : list nat) :
  Forall (fun i => (i < length a)%nat) p -> exists l, getitems a p = inr l.
Proof.
  induction 1 as [|i p Hi _ [l IH]]; [by exists []|].
  destruct (lookup_lt_is_Some_2 a i Hi) as [x Hx].
  exists (x :: l). unfold getitems in *. simpl. by rewrite Hx, IH.
Qed.

(** Rows of rows: [df.iloc[p].iloc[q]] is [df.iloc[p[q]]]. *)
Lemma iloc_compose (df a b : DataFrame) (p q : list nat) pq :
  iloc df p = inr a -> iloc a q = inr b -> getitems p q = inr pq ->
  iloc df pq = inr b.
Proof.
  intros [Hidx Hcols]%iloc_inr [Hidx' Hcols']%iloc_inr Hpq.
  unfold iloc. apply bind_inr. exists (index b). split.
  { apply lookups_inr. by rewrite <-(getitems_compose _ _ _ _ _ Hidx Hpq). }
  apply bind_inr. exists (columns b). split; [|by destruct b].
  apply mapM_inr. clear Hidx Hidx'. revert Hcols'. generalize (columns b).
  induction Hcols as [|c c' cols cols' [Hname Hc] _ IH]; intros colsb Hb;
    inversion Hb as [|? c'' ? colsb' [Hname' Hc'] Hb']; subst; constructor.
  - apply bind_inr. exists c''.2. split.
    + apply lookups_inr. by rewrite <-(getitems_compose _ _ _ _ _ Hc Hpq).
    + rewrite <-Hname, <-Hname'. by destruct c''.
  - by apply IH.
Qed.

(** ** [train_test_split] *)

Section train_test_split.
Context `{RandomState}.

Lemma with_random_state_inr {A} (random_state : option Z) (body : Rand A) g x g' :
  with_random_state random_state body g = inr (x, g') ->
  exists s s', body s = inr (x, s').
Proof.
  destruct random_state as [seed|]; simpl; [|eauto].
  destruct (body (seed_state seed)) as [e|[x' s']] eqn:Hbody; [done|].
  intros [= <- <-]. eauto.
Qed.

(** [train_test_split] with a share as [test_size]: the two frames are the
    rows at two lists of positions that hold every position once, neither
    is empty, and the labels are shared out as by [_iter_indices]. *)
Lemma train_test_split_inr (df : DataFrame) (y : Series) (q : Qc)
    (random_state : option Z) g df_train df_test g' :
  train_test_split df y (Some (Fraction q)) random_state g
    = inr ((df_train, df_test), g') ->
  length y = nrows df
  /\ exists train test,
       iloc df train = inr df_train /\ iloc df test = inr df_test
       /\ train ++ test ≡ₚ seq 0 (nrows df)
       /\ train <> [] /\ test <> []
       /\ forall c,
            let all := count_label y c (seq 0 (nrows df)) in
            let share := all * Z.of_nat (length train) / Z.of_nat (nrows df) in
            count_label y c train = share
            \/ count_label y c train = share + 1
               /\ (all * Z.of_nat (length train)) mod Z.of_nat (nrows df) <> 0.
Proof.
  unfold train_test_split. intros Hrun.
  apply rand_bind_inr in Hrun as ([n_train n_test] & s0 & [Hval ->]%lift_inr & Hrun).
  apply validate_fraction in Hval as (_ & Hn_train & _).
  apply rand_bind_inr in Hrun as ([train test] & s1 & Hsplit & Hrun).
  apply rand_bind_inr in Hrun as (a & s2 & [Ha ->]%lift_inr & Hrun).
  apply rand_bind_inr in Hrun
    as (b & s3 & [Hb ->]%lift_inr & [[= -> ->] _]%rand_ret_inr).
  unfold StratifiedShuffleSplit_split in Hsplit.
  destruct (existsb isnull y); [done|].
  destruct (Z.eqb_spec (Z.of_nat (length y)) (Z.of_nat (nrows df))) as [Hlen|?];
    [|done].
  simpl in Hsplit. apply with_random_state_inr in Hsplit as (s & s' & Hiter).
  rewrite <-Hlen in Hiter.
  pose proof Hiter as Hsizes. unfold _iter_indices in Hsizes.
  apply rand_bind_inr in Hsizes as ([r t] & ? & [Hval ->]%lift_inr & _).
  apply validate_counts in Hval as (_ & _ & Ht & Hr & _).
  apply _iter_indices_inr in Hiter as (Hperm & Htrain & Hcount); [|lia].
  assert (length y = nrows df) as Hlen' by lia.
  split; [done|]. exists train, test.
  rewrite <-Hlen', Htrain. repeat split; try done.
  - intros ->. simpl in Htrain. lia.
  - intros ->. rewrite app_nil_r in Hperm. apply Permutation_length in Hperm.
    rewrite length_seq in Hperm. lia.
Qed.

End train_test_split.

(** ** The notebook's split *)

Lemma length_filter_Forall2 {A B} (P : A -> Prop) (Q : B -> Prop)
    `{forall x, Decision (P x), forall y, Decision (Q y)} (l : list A) (k : list B) :
  Forall2 (fun x y => P x <-> Q y) l k ->
  length (filter P l) = length (filter Q k).
Proof.
  induction 1 as [|x y l k Hxy _ IH]; [done|].
  rewrite !filter_cons. destruct (decide (P x)) as [HP|HP].
  - rewrite decide_True by by apply Hxy. simpl. by rewrite IH.
  - rewrite decide_False; [done|]. by rewrite <-Hxy.
Qed.

Lemma count_label_getitems (y y2 : Series) (c : scalar) (p pos pq : list nat) :
  getitems y p = inr y2 -> getitems p pos = inr pq ->
  count_label y2 c pos = count_label y c pq.
Proof.
  intros Hy2%getitems_inr Hpq%getitems_inr. unfold count_label. f_equal.
  apply length_filter_Forall2. eapply Forall2_impl; [exact Hpq|].
  intros i j Hi. simpl in Hi.
  destruct (Forall2_lookup_l _ _ _ _ _ Hy2 Hi) as (v & Hv & Hj).
  unfold carries. by rewrite Hv, Hj.
Qed.

Lemma getitems_seq {A} (a : list A) : getitems a (seq 0 (length a)) = inr a.
Proof.
  apply getitems_inr, Forall2_same_length_lookup. split; [by rewrite length_seq|].
  intros i p x [-> _]%lookup_seq Hx. done.
Qed.

Lemma count_label_Permutation (y : Series) (c : scalar) (p q : list nat) :
  p ≡ₚ q -> count_label y c p = count_label y c q.
Proof. intros Hpq. unfold count_label. by rewrite Hpq. Qed.

Lemma count_label_app (y : Series) (c : scalar) (p q : list nat) :
  count_label y c (p ++ q) = count_label y c p + count_label y c q.
Proof. unfold count_label. rewrite filter_app, length_app. lia. Qed.

Lemma getitems_Permutation {A} (a : list A) (p q : list nat) ap aq :
  p ≡ₚ q -> getitems a p = inr ap -> getitems a q = inr aq -> ap ≡ₚ aq.
Proof.
  intros Hpq ->%getitems_omap ->%getitems_omap. by rewrite Hpq.
Qed.

Lemma label_count_iloc (df a : DataFrame) (y : Series) (c : scalar) pos :
  getitem df (Str "label") = inr y -> iloc df pos = inr a ->
  label_count a c = count_label y c pos.
Proof.
  intros Hy Ha. unfold label_count.
  destruct (getitem a (Str "label")) as [e|col] eqn:Hcol.
  - exfalso. apply iloc_inr in Ha as [_ Hcols]. unfold getitem in *.
    destruct (list_find _ (columns df)) as [[i [k v]]|] eqn:Hfind; [|done].
    apply list_find_Some in Hfind as (Hi & Hk & _).
    destruct (Forall2_lookup_l _ _ _ _ _ Hcols Hi) as ([k' v'] & Hi' & Hname & _).
    destruct (list_find _ (columns a)) as [[i2 [k2 v2]]|] eqn:Hfind'; [done|].
    eapply list_find_None, Forall_forall in Hfind';
      [|by eapply list_elem_of_lookup_2].
    simpl in *. congruence.
  - destruct (getitem_iloc _ _ _ _ _ Ha Hcol) as (y' & Hy' & Hpick).
    rewrite Hy in Hy'. injection Hy' as <-.
    unfold count_label. f_equal. apply getitems_inr in Hpick.
    symmetry. apply length_filter_Forall2. eapply Forall2_impl; [exact Hpick|].
    intros p v Hv. simpl in Hv. unfold carries. by rewrite Hv.
Qed.

Lemma label_count_all (df : DataFrame) (y : Series) (c : scalar) :
  getitem df (Str "label") = inr y ->
  label_count df c = count_label y c (seq 0 (length y)).
Proof.
  intros Hy. unfold label_count, count_label. rewrite Hy. f_equal.
  pose proof (getitems_seq y) as Hpick. apply getitems_inr in Hpick.
  symmetry. apply length_filter_Forall2. eapply Forall2_impl; [exact Hpick|].
  intros p v Hv. simpl in Hv. unfold carries. by rewrite Hv.
Qed.

Section notebook_split.
Context `{RandomState}.

(** The two calls of the notebook: three lists of positions into [df], and
    the label counts of the two stages. *)
Lemma split_inr (df : DataFrame) g df_train df_val df_test g' :
  split df g = inr ((df_train, df_val, df_test), g') ->
  exists (y : Series) (train val test : list nat),
    getitem df (Str "label") = inr y /\ length y = nrows df
    /\ iloc df train = inr df_train
    /\ iloc df val = inr df_val
    /\ iloc df test = inr df_test
    /\ train ++ val ++ test ≡ₚ seq 0 (nrows df)
    /\ train <> [] /\ val <> [] /\ test <> []
    /\ forall c,
         let N := Z.of_nat (nrows df) in
         let T1 := Z.of_nat (length train + length val) in
         let C := count_label y c (seq 0 (nrows df)) in
         let n1 := count_label y c train + count_label y c val in
         (n1 = C * T1 / N \/ n1 = C * T1 / N + 1 /\ (C * T1) mod N <> 0)
         /\ (count_label y c train = n1 * Z.of_nat (length train) / T1
             \/ count_label y c train = n1 * Z.of_nat (length train) / T1 + 1
                /\ (n1 * Z.of_nat (length train)) mod T1 <> 0)
         /\ count_label y c test = C - n1.
Proof.
  unfold split. intros Hrun.
  apply rand_bind_inr in Hrun as (y & s0 & [Hy ->]%lift_inr & Hrun).
  apply rand_bind_inr in Hrun as ([a df_test'] & s1 & Hstage1 & Hrun).
  apply rand_bind_inr in Hrun as (y2 & s2 & [Hy2 ->]%lift_inr & Hrun).
  apply rand_bind_inr in Hrun
    as ([df_train' df_val'] & s3 & Hstage2 & [[= -> -> ->] _]%rand_ret_inr).
  apply train_test_split_inr in Hstage1
    as (Hlen & tr1 & te & Ha & Hte & Hperm1 & Htr1 & Hte_ne & Hcount1).
  apply train_test_split_inr in Hstage2
    as (Hlen2 & tr2 & va2 & Htr2 & Hva2 & Hperm2 & Htr2_ne & Hva2_ne & Hcount2).
  rewrite (nrows_iloc _ _ _ Ha) in *.
  destruct (getitem_iloc _ _ _ _ _ Ha Hy2) as (y' & Hy' & Hpick).
  rewrite Hy in Hy'. injection Hy' as <-.
  assert (Forall (fun i => (i < length tr1)%nat) (tr2 ++ va2)) as Hrange.
  { rewrite Hperm2. apply Forall_forall. by intros i [_ ?]%elem_of_seq. }
  apply Forall_app in Hrange as [Hrange_tr Hrange_va].
  destruct (getitems_total tr1 tr2 Hrange_tr) as [train Htrain].
  destruct (getitems_total tr1 va2 Hrange_va) as [val Hval].
  assert (train ++ val ≡ₚ tr1) as Hperm.
  { eapply (getitems_Permutation tr1 (tr2 ++ va2) (seq 0 (length tr1)));
      [done| |apply getitems_seq].
    apply getitems_app. by exists train, val. }
  assert (length train = length tr2) as Hlen_tr
    by (apply getitems_inr, Forall2_length in Htrain; lia).
  assert (length val = length va2) as Hlen_va
    by (apply getitems_inr, Forall2_length in Hval; lia).
  exists y, train, val, te.
  split; [done|]. split; [done|].
  split; [exact (iloc_compose _ _ _ _ _ _ Ha Htr2 Htrain)|].
  split; [exact (iloc_compose _ _ _ _ _ _ Ha Hva2 Hval)|].
  split; [done|]. split; [by rewrite app_assoc, Hperm|].
  split; [by destruct train, tr2|]. split; [by destruct val, va2|].
  split; [done|].
  intros c. cbv zeta.
  set (T1 := Z.of_nat (length train + length val)).
  set (n1 := count_label y c train + count_label y c val).
  set (C := count_label y c (seq 0 (length y))).
  assert (Z.of_nat (length tr1) = T1) as HT1.
  { unfold T1. by rewrite <-Hperm, length_app. }
  assert (count_label y c tr1 = n1) as Hn1.
  { unfold n1. by rewrite <-count_label_app, (count_label_Permutation _ _ _ _ Hperm). }
  specialize (Hcount1 c). specialize (Hcount2 c). simpl in Hcount1, Hcount2.
  rewrite (count_label_getitems y y2 c tr1 tr2 train Hpick Htrain) in Hcount2.
  rewrite (count_label_getitems y y2 c tr1 _ tr1 Hpick (getitems_seq tr1)) in Hcount2.
  rewrite Hn1, HT1 in Hcount1. rewrite Hn1, HT1, <-Hlen_tr in Hcount2.
  rewrite <-Hlen in *. fold C in Hcount1.
  split; [done|]. split; [done|].
  pose proof (count_label_Permutation y c _ _ Hperm1) as Hall.
  rewrite count_label_app, Hn1 in Hall. unfold C. lia.
Qed.

End notebook_split.

(** ** Independence of the global generator *)

Section seeded.
Context `{RandomState}.

Lemma seeded_lift {A} (r : result A) : seeded (lift r).
Proof. by exists r. Qed.

Lemma seeded_ret {A} (x : A) : seeded (mret x).
Proof. by exists (inr x). Qed.

Lemma seeded_bind {A B} (m : Rand A) (f : A -> Rand B) :
  seeded m -> (forall x, seeded (f x)) -> seeded (m ≫= f).
Proof.
  intros [r Hr] Hf. destruct r as [e|x].
  - exists (inl e). intros g. unfold mbind, Rand_bind. by rewrite Hr.
  - destruct (Hf x) as [r' Hr']. exists r'. intros g.
    unfold mbind, Rand_bind. rewrite Hr. simpl. apply Hr'.
Qed.

Lemma seeded_with_random_state {A} (seed : Z) (body : Rand A) :
  seeded (with_random_state (Some seed) body).
Proof.
  exists (fst <$> body (seed_state seed)). intros g. simpl.
  by destruct (body (seed_state seed)) as [e|[x s]].
Qed.

Lemma seeded_train_test_split df y test_size seed :
  seeded (train_test_split df y test_size (Some seed)).
Proof.
  unfold train_test_split.
  apply seeded_bind; [apply seeded_lift|]. intros [n_train n_test].
  apply seeded_bind.
  { unfold StratifiedShuffleSplit_split.
    destruct (existsb isnull y); [by exists (inl (ValueError "Input y contains NaN."))|].
    destruct (negb _); [by eexists (inl _)|].
    apply seeded_with_random_state. }
  intros [train test].
  apply seeded_bind; [apply seeded_lift|]. intros a.
  apply seeded_bind; [apply seeded_lift|]. intros b.
  apply seeded_ret.
Qed.

(** With [random_state=42] in both calls, the split is [seeded]. *)
Lemma seeded_split (df : DataFrame) : seeded (split df).
Proof.
  unfold split.
  apply seeded_bind; [apply seeded_lift|]. intros y.
  apply seeded_bind; [apply seeded_train_test_split|]. intros [a b].
  apply seeded_bind; [apply seeded_lift|]. intros y2.
  apply seeded_bind; [apply seeded_train_test_split|]. intros [c d].
  apply seeded_ret.
Qed.

(** C8.  Run from any two states of the global generator, the two-stage
    split of a frame has the same outcome (the same three frames, or the same
    exception), and it leaves the global generator as it found it. *)
Theorem split_deterministic (df : DataFrame) (g1 g2 : state) :
  fst <$> split df g1 = fst <$> split df g2
  /\ (forall out g', split df g1 = inr (out, g') -> g' = g1).
Proof.
  destruct (seeded_split df) as [r Hr]. rewrite !Hr. split.
  - by destruct r.
  - intros out g'. by intros [_ ->]%lift_inr.
Qed.

End seeded.

(** ** When the split returns *)

Section returns.
Context `{RandomState}.

Lemma permutation_bound (n : nat) (s : state) :
  Forall (fun i => (i < n)%nat) (permutation n s).1.
Proof.
  rewrite (permutation_Permutation n s). apply Forall_forall.
  intros i Hi%elem_of_seq. lia.
Qed.

Lemma rng_choice_returns {A} (a : list A) (size : Z) (s : state) :
  0 <= size <= Z.of_nat (length a) ->
  exists l s', rng_choice a size s = inr (l, s').
Proof.
  intros Hsize. unfold rng_choice.
  destruct (Z.ltb_spec size 0); [lia|].
  destruct (Z.ltb_spec (Z.of_nat (length a)) size); [lia|].
  unfold mbind, Rand_bind, rng_permutation.
  destruct (permutation (length a) s) as [idx s1] eqn:Hidx.
  destruct (getitems_total a (take (Z.to_nat size) idx)) as [l Hl].
  { apply Forall_take. pose proof (permutation_bound (length a) s) as Hb.
    by rewrite Hidx in Hb. }
  exists l, s1. by rewrite Hl.
Qed.

Lemma add_by_remainder_returns values remainder floored need s :
  0 < need ->
  exists r s', add_by_remainder values remainder floored need s = inr (r, s').
Proof.
  revert floored need s.
  induction values as [|value values IH]; intros floored need s Hneed; simpl.
  { by eexists _, _. }
  set (inds := where_eq remainder value).
  destruct (rng_choice_returns inds (Z.min (Z.of_nat (length inds)) need) s)
    as (l & s1 & Hl); [lia|].
  unfold mbind, Rand_bind. rewrite Hl.
  destruct (Z.eqb_spec (need - Z.min (Z.of_nat (length inds)) need) 0).
  - by eexists _, _.
  - apply IH. lia.
Qed.

(** [_approximate_mode] does not raise. *)
Lemma _approximate_mode_returns (class_counts : list Z) (n_draws : Z) s :
  exists r s', _approximate_mode class_counts n_draws s = inr (r, s').
Proof.
  unfold _approximate_mode. cbv zeta.
  destruct (Z.ltb_spec 0 (n_draws - sum (map (fun x : Qc => Qfloor x)
    (map (fun c => (Qc_of_Z c / Qc_of_Z (sum class_counts) * Qc_of_Z n_draws)%Qc)
       class_counts)))) as [Hneed|_].
  - by apply add_by_remainder_returns.
  - by eexists _, _.
Qed.

Lemma draw_classes_returns class_counts class_indices n_i t_i s :
  exists train test s',
    draw_classes class_counts class_indices n_i t_i s = inr ((train, test), s').
Proof.
  revert class_indices n_i t_i s.
  induction class_counts as [|c cc IH]; intros ci n_i t_i s; simpl.
  { by eexists _, _, _. }
  destruct ci as [|ci cis], n_i as [|n n_i], t_i as [|t t_i];
    try by eexists _, _, _.
  unfold mbind, Rand_bind, rng_permutation.
  destruct (permutation (Z.to_nat c) s) as [p s1].
  destruct (IH cis n_i t_i s1) as (train & test & s2 & ->).
  by eexists _, _, _.
Qed.

Lemma rng_permutation_of_returns {A} (a : list A) s :
  exists l s', rng_permutation_of a s = inr (l, s').
Proof.
  unfold rng_permutation_of, mbind, Rand_bind, rng_permutation.
  destruct (permutation (length a) s) as [idx s1] eqn:Hidx.
  destruct (getitems_total a idx) as [l Hl].
  { pose proof (permutation_bound (length a) s) as Hb. by rewrite Hidx in Hb. }
  exists l, s1. by rewrite Hl.
Qed.

Lemma validate_counts_returns (n t r : Z) d :
  0 < t -> 0 < r -> r + t <= n ->
  _validate_shuffle_split n (Some (Count t)) (Some (Count r)) d = inr (r, t).
Proof.
  intros Ht Hr Hn. unfold _validate_shuffle_split, size_out_of_range.
  destruct (Z.leb_spec n t), (Z.leb_spec t 0); simpl; try lia.
  destruct (Z.leb_spec n r), (Z.leb_spec r 0); simpl; try lia.
  destruct (Z.ltb_spec n (r + t)); [lia|].
  destruct (Z.eqb_spec r 0); [lia|]. done.
Qed.

Lemma _iter_indices_returns (y : list scalar) (t r : Z) classes yi s :
  0 < t -> 0 < r -> r + t <= Z.of_nat (length y) ->
  unique_inverse y = inr (classes, yi) ->
  Forall (fun c => 2 <= c) (bincount (length classes) yi) ->
  Z.of_nat (length classes) <= r ->
  Z.of_nat (length classes) <= t ->
  exists train test s',
    _iter_indices (Z.of_nat (length y)) y (Some (Count t)) (Some (Count r)) s
    = inr ((train, test), s').
Proof.
  intros Ht Hr Hn Huniq Hcounts Hkr Hkt. unfold _iter_indices.
  rewrite validate_counts_returns by done.
  unfold mbind at 1, Rand_bind at 1. cbn [lift].
  rewrite Huniq. unfold mbind at 1, Rand_bind at 1. cbn [lift].
  rewrite bool_decide_eq_false_2.
  2:{ rewrite Exists_exists. intros (c & Hc & Hlt).
      rewrite Forall_forall in Hcounts. specialize (Hcounts c Hc). lia. }
  destruct (Z.ltb_spec r (Z.of_nat (length classes))); [lia|].
  destruct (Z.ltb_spec t (Z.of_nat (length classes))); [lia|].
  set (cc := bincount (length classes) yi).
  unfold mbind, Rand_bind.
  destruct (_approximate_mode_returns cc r s) as (n_i & s1 & ->).
  destruct (_approximate_mode_returns (zip_with Z.sub cc n_i) t s1)
    as (t_i & s2 & ->).
  destruct (draw_classes_returns cc
              (map (fun k => where_eq yi k) (seq 0 (length classes))) n_i t_i s2)
    as (train & test & s3 & ->).
  destruct (rng_permutation_of_returns train s3) as (train' & s4 & ->).
  destruct (rng_permutation_of_returns test s4) as (test' & s5 & ->).
  by eexists _, _, _.
Qed.

Lemma unique_inverse_no_null (y : list scalar) r :
  unique_inverse y = inr r -> existsb isnull y = false.
Proof.
  unfold unique_inverse. destruct (mapM key_of y) as [keys|] eqn:Hkeys; [|done].
  intros _. apply mapM_Some in Hkeys. apply existsb_false.
  induction Hkeys as [|v k y keys Hv _ IH]; constructor; [|done].
  by destruct v.
Qed.

Lemma with_random_state_returns {A} (random_state : option Z) (body : Rand A) :
  (forall s, exists x s', body s = inr (x, s')) ->
  forall g, exists x g', with_random_state random_state body g = inr (x, g').
Proof.
  intros Hbody g. destruct random_state as [seed|]; simpl; [|done].
  destruct (Hbody (seed_state seed)) as (x & s' & ->). by eexists _, _.
Qed.

Lemma lookups_total {A} (a : list A) (e : exn) (p : list nat) :
  Forall (fun i => (i < length a)%nat) p ->
  exists l, mapM (fun i => match a !! i with
                           | Some x => mret x
                           | None => raise e
                           end) p = inr l.
Proof.
  induction 1 as [|i p Hi _ [l IH]]; [by exists []|].
  destruct (lookup_lt_is_Some_2 a i Hi) as [x Hx].
  exists (x :: l). simpl. rewrite Hx. simpl. by rewrite IH.
Qed.

Lemma iloc_returns (df : DataFrame) (positions : list nat) :
  Forall (fun c => length c.2 = nrows df) (columns df) ->
  Forall (fun i => (i < nrows df)%nat) positions ->
  exists a, iloc df positions = inr a.
Proof.
  intros Hcols Hpos. unfold iloc.
  destruct (lookups_total (index df)
              (IndexError "positional indexers are out-of-bounds") positions Hpos)
    as [idx ->].
  simpl.
  assert (exists cols,
            mapM (fun c : scalar * Series =>
                    v ← mapM (fun p => match c.2 !! p with
                                       | Some x => mret x
                                       | None => raise (IndexError "positional indexers are out-of-bounds")
                                       end) positions;
                    mret (c.1, v)) (columns df) = inr cols) as [cols ->].
  { induction Hcols as [|c cols Hc _ [l IH]]; [by exists []|].
    destruct (lookups_total c.2
                (IndexError "positional indexers are out-of-bounds") positions)
      as [v Hv].
    { by rewrite Hc. }
    eexists. simpl. rewrite Hv. simpl. rewrite IH. done. }
  by eexists.
Qed.

Lemma unique_inverse_classes (y : list scalar) classes yi :
  unique_inverse y = inr (classes, yi) -> y <> [] -> classes <> [].
Proof.
  intros [_ Hyi]%unique_inverse_inr Hy.
  destruct Hyi as [|v k y yi (key & _ & Hk) _]; [done|].
  intros ->. done.
Qed.

(** A call of [train_test_split] returns when the checks of sklearn pass:
    sizes that leave a row on each side, two rows or more of every label,
    and sides not smaller than the number of labels. *)
Lemma train_test_split_returns (df : DataFrame) (y : Series) (q : Qc)
    (random_state : option Z) classes yi n_train n_test g :
  Forall (fun c => length c.2 = nrows df) (columns df) ->
  length y = nrows df -> y <> [] ->
  unique_inverse y = inr (classes, yi) ->
  _validate_shuffle_split (Z.of_nat (nrows df)) (Some (Fraction q)) None
    (Some (Fraction (Q2Qc (1 # 4)))) = inr (n_train, n_test) ->
  Forall (fun c => 2 <= c) (bincount (length classes) yi) ->
  Z.of_nat (length classes) <= n_train ->
  Z.of_nat (length classes) <= n_test ->
  exists df_train df_test g',
    train_test_split df y (Some (Fraction q)) random_state g
    = inr ((df_train, df_test), g').
Proof.
  intros Hcols Hlen Hy Huniq Hval Hcounts Hkr Hkt.
  pose proof (unique_inverse_classes _ _ _ Huniq Hy) as Hclasses.
  assert (0 < Z.of_nat (length classes)) as Hk by (destruct classes; [done|simpl; lia]).
  pose proof (validate_fraction _ _ _ _ _ Hval) as (_ & Hsum & _).
  unfold train_test_split. rewrite Hval.
  unfold mbind at 1, Rand_bind at 1. cbn [lift].
  unfold StratifiedShuffleSplit_split.
  rewrite (unique_inverse_no_null _ _ Huniq).
  rewrite Hlen, Z.eqb_refl. cbn [negb].
  rewrite <-Hlen.
  destruct (with_random_state_returns random_state
              (_iter_indices (Z.of_nat (length y)) y (Some (Count n_test))
                 (Some (Count n_train)))) with (g := g)
    as ([train test] & g' & Hrun).
  { intros s. destruct (_iter_indices_returns y n_test n_train classes yi s)
      as (train & test & s' & Hs); try done; try lia.
    by eexists (_, _), _. }
  unfold mbind, Rand_bind. rewrite Hrun.
  apply with_random_state_inr in Hrun as (s & s' & Hrun).
  apply _iter_indices_inr in Hrun as (Hperm & _); [|lia].
  assert (Forall (fun i => (i < nrows df)%nat) (train ++ test)) as Hbound.
  { rewrite Hperm, <-Hlen. apply Forall_forall. intros i Hi%elem_of_seq. lia. }
  apply Forall_app in Hbound as [Htrain Htest].
  destruct (iloc_returns df train Hcols Htrain) as [a ->].
  destruct (iloc_returns df test Hcols Htest) as [b ->].
  by eexists _, _, _.
Qed.

End returns.

Lemma Qceiling_tenth (n : Z) :
  Qceiling (Q2Qc (1 # 10) * Qc_of_Z n)%Qc = - ((- n) / 10).
Proof.
  assert ((Q2Qc (1 # 10) * Qc_of_Z n)%Qc == n # 10)%Q as ->.
  { unfold Qcmult, Qc_of_Z, Q2Qc. simpl this. rewrite !Qred_correct.
    unfold Qeq, Qmult, inject_Z. simpl. lia. }
  unfold Qceiling, Qfloor. simpl. done.
Qed.

Lemma validate_tenth (n : Z) d n_train n_test :
  0 <= n ->
  _validate_shuffle_split n (Some (Fraction (Q2Qc (1 # 10)))) None d
    = inr (n_train, n_test) ->
  n_test = - ((- n) / 10) /\ n_train = n - n_test /\ 0 < n_train.
Proof.
  intros Hn (Ht & Hr & Hne)%validate_fraction.
  rewrite Qceiling_tenth in Ht. split; [done|]. split; [done|].
  pose proof (Z.div_mod (- n) 10 ltac:(lia)).
  pose proof (Z.mod_pos_bound (- n) 10 ltac:(lia)). lia.
Qed.

Lemma rectangular_iloc (df a : DataFrame) (positions : list nat) :
  iloc df positions = inr a -> rectangular a.
Proof.
  intros Ha. pose proof (nrows_iloc _ _ _ Ha) as Hn.
  apply iloc_inr in Ha as [_ Hcols]. unfold rectangular. rewrite Hn.
  induction Hcols as [|c c' cols cols' [_ Hc] _ IH]; constructor; [|done].
  apply getitems_inr, Forall2_length in Hc. lia.
Qed.

Lemma rectangular_getitem (df : DataFrame) key col :
  rectangular df -> getitem df key = inr col -> length col = nrows df.
Proof.
  intros Hrect Hcol%getitem_elem_of. unfold rectangular in Hrect.
  rewrite Forall_forall in Hrect. by apply (Hrect _ Hcol).
Qed.

Lemma getitem_iloc_fwd (df a : DataFrame) (positions : list nat) key col :
  iloc df positions = inr a -> getitem df key = inr col ->
  exists col', getitem a key = inr col' /\ getitems col positions = inr col'.
Proof.
  intros [_ Hcols]%iloc_inr. unfold getitem.
  induction Hcols as [|c c' cols cols' [Hname Hc] _ IH]; [done|].
  simpl. rewrite Hname. destruct (decide (c.1 = key)) as [_|Hne]; simpl.
  - intros [= <-]. eauto.
  - destruct (list_find _ cols) as [[i [k v]]|]; simpl in *; [|done].
    intros [= <-]. destruct (list_find _ cols') as [[i' [k' v']]|]; simpl in *.
    + destruct IH as (col' & [= <-] & Hcol); [done|]. eauto.
    + by destruct IH as (col' & ? & _).
Qed.

Lemma unique_inverse_elem_of (y : list scalar) classes yi (key : key) :
  unique_inverse y = inr (classes, yi) ->
  key ∈ classes <-> exists v, v ∈ y /\ key_of v = Some key.
Proof.
  unfold unique_inverse.
  destruct (mapM key_of y) as [keys|] eqn:Hkeys; [|done].
  destruct (_ || _); [|done]. intros [= <- _].
  rewrite merge_sort_Permutation, elem_of_remove_dups.
  apply mapM_Some in Hkeys. split.
  - intros [i Hi]%list_elem_of_lookup.
    destruct (Forall2_lookup_r _ _ _ _ _ Hkeys Hi) as (v & Hv & Hkey).
    exists v. split; [by eapply list_elem_of_lookup_2|done].
  - intros (v & [i Hi]%list_elem_of_lookup & Hkey).
    destruct (Forall2_lookup_l _ _ _ _ _ Hkeys Hi) as (k & Hk & Hkey').
    rewrite Hkey in Hkey'. injection Hkey' as <-.
    by eapply list_elem_of_lookup_2.
Qed.

Lemma forallb_subseteq {A} (f : A -> bool) (l k : list A) :
  (forall x, x ∈ l -> x ∈ k) -> forallb f k = true -> forallb f l = true.
Proof.
  rewrite !forallb_forall. intros Hsub Hk x Hx%list_elem_of_In.
  apply Hk, list_elem_of_In, Hsub, Hx.
Qed.

Lemma unique_inverse_sub (y y1 : list scalar) r :
  unique_inverse y = inr r -> (forall v, v ∈ y1 -> v ∈ y) ->
  exists classes1 yi1, unique_inverse y1 = inr (classes1, yi1).
Proof.
  unfold unique_inverse. intros Hy Hsub.
  destruct (mapM key_of y) as [keys|] eqn:Hkeys; [|done].
  destruct (_ || _) eqn:Hkind; [|done]. clear Hy.
  apply mapM_Some in Hkeys.
  assert (is_Some (mapM key_of y1)) as [keys1 Hkeys1].
  { apply mapM_is_Some, Forall_forall. intros v [i Hi]%Hsub%list_elem_of_lookup.
    destruct (Forall2_lookup_l _ _ _ _ _ Hkeys Hi) as (k & _ & Hk). by exists k. }
  rewrite Hkeys1. apply mapM_Some in Hkeys1.
  assert (forall k, k ∈ keys1 -> k ∈ keys) as Hsubk.
  { intros k [i Hi]%list_elem_of_lookup.
    destruct (Forall2_lookup_r _ _ _ _ _ Hkeys1 Hi) as (v & Hv & Hk).
    apply list_elem_of_lookup_2, Hsub, list_elem_of_lookup in Hv as [j Hj].
    destruct (Forall2_lookup_l _ _ _ _ _ Hkeys Hj) as (k' & Hk' & Hkey).
    rewrite Hk in Hkey. injection Hkey as <-. by eapply list_elem_of_lookup_2. }
  apply orb_true_iff in Hkind as [Hnum|Hstr].
  - rewrite (forallb_subseteq _ _ _ Hsubk Hnum). simpl. by eexists _, _.
  - rewrite (forallb_subseteq _ _ _ Hsubk Hstr), orb_true_r. by eexists _, _.
Qed.

Lemma bincount_lookup (n : nat) (a : list nat) (k : nat) :
  (k < n)%nat ->
  bincount n a !! k = Some (Z.of_nat (length (filter (fun x => x = k) a))).
Proof.
  intros Hk. unfold bincount. rewrite list_lookup_fmap, lookup_seq_lt by done.
  done.
Qed.

Lemma bincount_count_label (y : Series) classes yi (v : scalar) (key : key)
    (k : nat) :
  unique_inverse y = inr (classes, yi) ->
  key_of v = Some key -> classes !! k = Some key ->
  bincount (length classes) yi !! k
  = Some (count_label y v (seq 0 (length y))).
Proof.
  intros Huniq Hkey Hk.
  rewrite bincount_lookup by by eapply lookup_lt_Some.
  apply unique_inverse_inr in Huniq as [Hnodup Hyi].
  f_equal. unfold count_label. f_equal.
  rewrite <-length_where_eq. unfold where_eq.
  rewrite <-(Forall2_length _ _ _ Hyi). f_equal.
  apply list_filter_iff. intros p. symmetry.
  by eapply carries_class.
Qed.

Section split_returns.
Context `{RandomState}.

Lemma train_test_split_sizes (df : DataFrame) (y : Series) (q : Qc)
    (random_state : option Z) g a b g' :
  train_test_split df y (Some (Fraction q)) random_state g = inr ((a, b), g') ->
  exists n_train n_test,
    _validate_shuffle_split (Z.of_nat (nrows df)) (Some (Fraction q)) None
      (Some (Fraction (Q2Qc (1 # 4)))) = inr (n_train, n_test)
    /\ Z.of_nat (nrows a) = n_train /\ Z.of_nat (nrows b) = n_test.
Proof.
  unfold train_test_split. intros Hrun.
  apply rand_bind_inr in Hrun as ([n_train n_test] & s0 & [Hval ->]%lift_inr & Hrun).
  exists n_train, n_test. split; [done|].
  pose proof Hval as (_ & Hsum & _)%validate_fraction.
  apply rand_bind_inr in Hrun as ([train test] & s1 & Hsplit & Hrun).
  apply rand_bind_inr in Hrun as (a' & s2 & [Ha ->]%lift_inr & Hrun).
  apply rand_bind_inr in Hrun
    as (b' & s3 & [Hb ->]%lift_inr & [[= -> ->] _]%rand_ret_inr).
  unfold StratifiedShuffleSplit_split in Hsplit.
  destruct (existsb isnull y); [done|].
  destruct (Z.eqb_spec (Z.of_nat (length y)) (Z.of_nat (nrows df))) as [Hlen|?];
    [|done].
  simpl in Hsplit. apply with_random_state_inr in Hsplit as (s & s' & Hiter).
  rewrite <-Hlen in Hiter.
  apply _iter_indices_inr in Hiter as (Hperm & Htrain & _); [|lia].
  rewrite (nrows_iloc _ _ _ Ha), (nrows_iloc _ _ _ Hb).
  apply Permutation_length in Hperm. rewrite length_app, length_seq in Hperm.
  lia.
Qed.

(** On a frame with a value per row in every column, labels that are all
    numbers or all strings, at least three rows of every label and a
    validation size not below the number of labels, both calls of
    [train_test_split] return, with the sizes [_validate_shuffle_split]
    gives. *)
Lemma split_returns (df : DataFrame) (y : Series) classes yi
    (n1 n_test n_train n_val : Z) (g : state) :
  rectangular df ->
  getitem df (Str "label") = inr y ->
  unique_inverse y = inr (classes, yi) ->
  Forall (fun c => 3 <= c) (bincount (length classes) yi) ->
  _validate_shuffle_split (Z.of_nat (nrows df))
    (Some (Fraction (Q2Qc (1 # 10)))) None (Some (Fraction (Q2Qc (1 # 4))))
    = inr (n1, n_test) ->
  _validate_shuffle_split n1
    (Some (Fraction (Q2Qc (1 # 10)))) None (Some (Fraction (Q2Qc (1 # 4))))
    = inr (n_train, n_val) ->
  Z.of_nat (length classes) <= n_val ->
  exists df_train df_val df_test,
    split df g = inr ((df_train, df_val, df_test), g)
    /\ Z.of_nat (nrows df_train) = n_train
    /\ Z.of_nat (nrows df_val) = n_val
    /\ Z.of_nat (nrows df_test) = n_test.
Proof.
  intros Hrect Hy Huniq Hcounts Hval1 Hval2 Hk.
  pose proof (rectangular_getitem _ _ _ Hrect Hy) as Hlen.
  pose proof (validate_tenth (Z.of_nat (nrows df)) _ _ _ ltac:(lia) Hval1) as (Hn_test & Hn1 & Hn1_pos).
  pose proof (validate_tenth n1 _ _ _ ltac:(lia) Hval2) as (Hn_val & Hn_train & Hn_train_pos).
  set (n := Z.of_nat (nrows df)) in *.
  pose proof (Z.div_mod (- n) 10 ltac:(lia)) as Hd1.
  pose proof (Z.mod_pos_bound (- n) 10 ltac:(lia)) as Hm1.
  pose proof (Z.div_mod (- n1) 10 ltac:(lia)) as Hd2.
  pose proof (Z.mod_pos_bound (- n1) 10 ltac:(lia)) as Hm2.
  assert (y <> []) as Hy_ne.
  { intros ->. simpl in Hlen. unfold n in *. lia. }
  destruct (train_test_split_returns df y (Q2Qc (1 # 10)) (Some 42) classes yi
              n1 n_test g Hrect Hlen Hy_ne Huniq Hval1)
    as (a & b & g1 & Hcall1); [|lia|lia|].
  { eapply Forall_impl; [exact Hcounts|]. intros c Hc. simpl in Hc. lia. }
  pose proof (train_test_split_sizes _ _ _ _ _ _ _ _ Hcall1)
    as (n1' & n_test' & Hval1' & Hrows_a & Hrows_b).
  fold n in Hval1'. rewrite Hval1 in Hval1'. injection Hval1' as <- <-.
  pose proof Hcall1 as (_ & tr1 & te & Ha & Hb & Hperm & Htr1 & Hte & Hshare)%train_test_split_inr.
  pose proof (nrows_iloc _ _ _ Ha) as Hrows_tr1.
  pose proof (rectangular_iloc _ _ _ Ha) as Hrect_a.
  destruct (getitem_iloc_fwd _ _ _ _ _ Ha Hy) as (y1 & Hy1 & Hpick).
  pose proof (rectangular_getitem _ _ _ Hrect_a Hy1) as Hlen1.
  assert (forall v, v ∈ y1 -> v ∈ y) as Hsub.
  { intros v [i Hi]%list_elem_of_lookup. apply getitems_inr in Hpick.
    destruct (Forall2_lookup_r _ _ _ _ _ Hpick Hi) as (p & _ & Hp).
    by eapply list_elem_of_lookup_2. }
  destruct (unique_inverse_sub y y1 _ Huniq Hsub) as (classes1 & yi1 & Huniq1).
  assert (y1 <> []) as Hy1_ne.
  { intros ->. simpl in Hlen1. lia. }
  assert (length classes1 <= length classes)%nat as Hk1.
  { apply submseteq_length, NoDup_submseteq.
    - by apply unique_inverse_inr in Huniq1 as [? _].
    - intros key (v & Hv & Hkey)%(unique_inverse_elem_of _ _ _ _ Huniq1).
      apply (unique_inverse_elem_of _ _ _ _ Huniq). eauto. }
  assert (Forall (fun c => 2 <= c) (bincount (length classes1) yi1)) as Hcounts1.
  { apply Forall_lookup_2. intros k c Hc.
    assert (k < length classes1)%nat as Hlt.
    { apply lookup_lt_Some in Hc. unfold bincount in Hc.
      by rewrite length_map, length_seq in Hc. }
    destruct (lookup_lt_is_Some_2 classes1 k Hlt) as [key Hkey].
    pose proof (list_elem_of_lookup_2 _ _ _ Hkey) as Hin.
    apply (unique_inverse_elem_of _ _ _ _ Huniq1) in Hin as (v & Hv & Hkv).
    rewrite (bincount_count_label _ _ _ v key k Huniq1 Hkv Hkey) in Hc.
    injection Hc as <-.
    rewrite Hlen1, Hrows_tr1.
    rewrite (count_label_getitems y y1 v tr1 _ tr1 Hpick (getitems_seq tr1)).
    assert (key ∈ classes) as [k0 Hk0]%list_elem_of_lookup.
    { apply (unique_inverse_elem_of _ _ _ _ Huniq). eauto. }
    pose proof (bincount_count_label _ _ _ v key k0 Huniq Hkv Hk0) as Hall.
    pose proof (Forall_lookup_1 _ _ _ _ Hcounts Hall) as Hthree.
    simpl in Hthree. rewrite Hlen in Hthree.
    assert (count_label y v (seq 0 (nrows df)) <= n) as Hle.
    { unfold count_label, n. apply inj_le.
      etransitivity; [apply length_filter|]. by rewrite length_seq. }
    specialize (Hshare v). cbv zeta in Hshare.
    set (C := count_label y v (seq 0 (nrows df))) in *.
    fold n in Hshare.
    assert (Z.of_nat (length tr1) = n1) as Htr1_len by lia.
    rewrite Htr1_len in Hshare.
    assert (2 <= C * n1 / n) as Hfloor.
    { apply Z.div_le_lower_bound; [lia|].
      assert (3 * n1 <= C * n1) by (apply Z.mul_le_mono_nonneg_r; lia).
      lia. }
    lia. }
  destruct (train_test_split_returns a y1 (Q2Qc (1 # 10)) (Some 42) classes1 yi1
              n_train n_val g1 Hrect_a Hlen1 Hy1_ne Huniq1)
    as (a2 & b2 & g2 & Hcall2); [by rewrite Hrows_a|done|lia|lia|].
  pose proof (train_test_split_sizes _ _ _ _ _ _ _ _ Hcall2)
    as (n_train' & n_val' & Hval2' & Hrows_a2 & Hrows_b2).
  rewrite Hrows_a, Hval2 in Hval2'. injection Hval2' as <- <-.
  assert (split df g = inr ((a2, b2, b), g2)) as Hsplit.
  { unfold split, mbind, Rand_bind. rewrite Hy. cbn [lift].
    rewrite Hcall1, Hy1. cbn [lift]. by rewrite Hcall2. }
  destruct (seeded_split df) as [r Hr].
  pose proof Hsplit as Hsame. rewrite Hr in Hsame.
  apply lift_inr in Hsame as [_ ->].
  by exists a2, b2, b.
Qed.

End split_returns.

(** ** Partition and class shares *)

Lemma within_twice (T1 N X A B T : Z) :
  0 < N -> 0 < T < T1 ->
  - N <= A <= N -> - T1 <= B <= T1 ->
  T1 * X = N * B + T * A -> Z.abs X < 2 * N.
Proof.
  intros HN HT HA HB HX.
  assert (N * B <= N * T1) by (apply Z.mul_le_mono_nonneg_l; lia).
  assert (N * (- T1) <= N * B) by (apply Z.mul_le_mono_nonneg_l; lia).
  assert (T * A <= T * N) by (apply Z.mul_le_mono_nonneg_l; lia).
  assert (T * (- N) <= T * A) by (apply Z.mul_le_mono_nonneg_l; lia).
  assert (T * N < T1 * N) by (apply Z.mul_lt_mono_pos_r; lia).
  assert (- (T1 * (2 * N)) < T1 * X < T1 * (2 * N)) as Hbound by lia.
  apply Z.abs_lt. split.
  - apply (Z.mul_lt_mono_pos_l T1); lia.
  - apply (Z.mul_lt_mono_pos_l T1); lia.
Qed.

(** From floors to distances: a count that is the floor of its share or one
    more is less than one row away from the share; after two such steps,
    less than two rows. *)
Lemma shares_close (N T V C n1 nT : Z) :
  0 < T -> 0 < V -> T + V < N ->
  (n1 = C * (T + V) / N \/ n1 = C * (T + V) / N + 1 /\ (C * (T + V)) mod N <> 0) ->
  (nT = n1 * T / (T + V)
   \/ nT = n1 * T / (T + V) + 1 /\ (n1 * T) mod (T + V) <> 0) ->
  Z.abs ((C - n1) * N - C * (N - (T + V))) < N
  /\ Z.abs (nT * N - C * T) < 2 * N
  /\ Z.abs ((n1 - nT) * N - C * V) < 2 * N.
Proof.
  intros HT HV HN Hn1 HnT.
  pose proof (Z.div_mod (C * (T + V)) N ltac:(lia)) as H1.
  pose proof (Z.mod_pos_bound (C * (T + V)) N ltac:(lia)) as H2.
  pose proof (Z.div_mod (n1 * T) (T + V) ltac:(lia)) as H3.
  pose proof (Z.mod_pos_bound (n1 * T) (T + V) ltac:(lia)) as H4.
  assert (- N < N * n1 - C * (T + V) < N) as HA.
  { destruct Hn1 as [Hn1|[Hn1 Hmod]]; rewrite Hn1 at 1 2; lia. }
  assert (- (T + V) < (T + V) * nT - n1 * T < T + V) as HB.
  { destruct HnT as [HnT|[HnT Hmod]]; rewrite HnT at 1 2; lia. }
  split; [|split].
  - replace ((C - n1) * N - C * (N - (T + V))) with (- (N * n1 - C * (T + V)))
      by ring.
    lia.
  - apply (within_twice (T + V) N _ (N * n1 - C * (T + V))
             ((T + V) * nT - n1 * T) T); first [lia|ring].
  - apply (within_twice (T + V) N _ (N * n1 - C * (T + V))
             (- ((T + V) * nT - n1 * T)) V); first [lia|ring].
Qed.

Section notebook_split_properties.
Context `{RandomState}.

(** C2, amended.  Whenever both calls of [train_test_split] return (as they
    do under the conditions of [split_returns]), the three frames are the
    rows of [df] at three lists of positions in which every position of
    [df] occurs exactly once, so the three subsets are pairwise disjoint and
    cover [df], and their row counts add up to the row count of [df]. *)
Theorem split_partition (df : DataFrame) g df_train df_val df_test g' :
  split df g = inr ((df_train, df_val, df_test), g') ->
  (nrows df_train + nrows df_val + nrows df_test = nrows df)%nat
  /\ exists train val test : list nat,
       iloc df train = inr df_train
       /\ iloc df val = inr df_val
       /\ iloc df test = inr df_test
       /\ train ++ val ++ test ≡ₚ seq 0 (nrows df)
       /\ NoDup (train ++ val ++ test)
       /\ forall p, (p < nrows df)%nat <-> p ∈ train \/ p ∈ val \/ p ∈ test.
Proof.
  intros (y & train & val & test & _ & _ & Htrain & Hval & Htest & Hperm & _)%split_inr.
  split.
  - rewrite (nrows_iloc _ _ _ Htrain), (nrows_iloc _ _ _ Hval),
      (nrows_iloc _ _ _ Htest).
    apply Permutation_length in Hperm.
    rewrite !length_app, length_seq in Hperm. lia.
  - exists train, val, test. repeat (split; [done|]). split.
    + rewrite Hperm. apply NoDup_seq.
    + intros p. rewrite <-!elem_of_app, Hperm, elem_of_seq. lia.
Qed.

(** C3, amended.  Whenever both calls of [train_test_split] return, for every
    label the number of test rows with that label is less than one row away
    from the label's share of the test set ([count * N] and
    [count_in_df * size] differ by less than [N], the row count of [df]), and
    the numbers of train and of validation rows with that label are less
    than two rows away from the label's share of those subsets. *)
Theorem split_stratified (df : DataFrame) g df_train df_val df_test g' :
  split df g = inr ((df_train, df_val, df_test), g') ->
  forall c : scalar,
    let N := Z.of_nat (nrows df) in
    Z.abs (label_count df_test c * N
           - label_count df c * Z.of_nat (nrows df_test)) < N
    /\ Z.abs (label_count df_train c * N
              - label_count df c * Z.of_nat (nrows df_train)) < 2 * N
    /\ Z.abs (label_count df_val c * N
              - label_count df c * Z.of_nat (nrows df_val)) < 2 * N.
Proof.
  intros (y & train & val & test & Hy & Hlen & Htrain & Hval & Htest & Hperm
          & Htr_ne & Hva_ne & Hte_ne & Hcount)%split_inr c.
  cbv zeta.
  rewrite (label_count_iloc _ _ _ c _ Hy Htrain), (label_count_iloc _ _ _ c _ Hy Hval),
    (label_count_iloc _ _ _ c _ Hy Htest), (label_count_all _ _ c Hy), Hlen.
  rewrite (nrows_iloc _ _ _ Htrain), (nrows_iloc _ _ _ Hval),
    (nrows_iloc _ _ _ Htest).
  destruct (Hcount c) as (Hn1 & HnT & Hte). cbv zeta in *.
  apply Permutation_length in Hperm. rewrite !length_app, length_seq in Hperm.
  assert (0 < length train)%nat as Hpos_tr by (destruct train; [done|simpl; lia]).
  assert (0 < length val)%nat as Hpos_va by (destruct val; [done|simpl; lia]).
  assert (0 < length test)%nat as Hpos_te by (destruct test; [done|simpl; lia]).
  rewrite Nat2Z.inj_add in Hn1, HnT.
  pose proof (shares_close (Z.of_nat (nrows df)) (Z.of_nat (length train))
                (Z.of_nat (length val)) (count_label y c (seq 0 (nrows df)))
                (count_label y c train + count_label y c val)
                (count_label y c train)
                ltac:(lia) ltac:(lia) ltac:(lia) Hn1 HnT)
    as (Hclose_test & Hclose_train & Hclose_val).
  rewrite Hte.
  replace (Z.of_nat (length test))
    with (Z.of_nat (nrows df) - (Z.of_nat (length train) + Z.of_nat (length val)))
    by lia.
  split; [done|]. split; [done|].
  by replace (count_label y c val)
    with (count_label y c train + count_label y c val - count_label y c train)
    by lia.
Qed.

End notebook_split_properties.

(** ** The accuracy on the test set *)

Lemma prefixed_accuracy (a : scalar) :
  prefixed "test_" ({[ "accuracy" := a ]} : gmap string scalar)
    !! "test_accuracy" = Some a.
Proof.
  unfold prefixed. rewrite map_to_list_singleton. simpl.
  rewrite insert_empty. apply lookup_singleton_eq.
Qed.

(** ** Running the cells *)

Section running.
Context `{Environment}.

Lemma run_bind_inr {A B} (f : A -> Run B) (m : Run A) s y s' :
  (m ≫= f) s = inr (y, s') <->
  exists x s1, m s = inr (x, s1) /\ f x s1 = inr (y, s').
Proof.
  unfold mbind, Run_bind. destruct (m s) as [e|[x s1]]; split.
  - done.
  - by intros (? & ? & ? & _).
  - eauto.
  - by intros (? & ? & [= <- <-] & ?).
Qed.

Lemma run_ret_inr {A} (x : A) s y s' :
  mret (M:=Run) x s = inr (y, s') <-> y = x /\ s' = s.
Proof. unfold mret, Run_ret. split; [intros [= <- <-]|intros [-> ->]]; done. Qed.

Lemma pure_inr {A} (r : result A) s x s' :
  pure r s = inr (x, s') <-> r = inr x /\ s' = s.
Proof.
  unfold pure. destruct r; split; try done.
  - by intros [? _].
  - by intros [= <- <-].
  - by intros [[= <-] ->].
Qed.

Lemma draw_inr {A} (m : Rand A) g w x s' :
  draw m (g, w) = inr (x, s') <-> exists g', m g = inr (x, g') /\ s' = (g', w).
Proof.
  unfold draw. cbn [fst snd]. destruct (m g) as [e|[x' g']]; split; try done.
  - by intros (? & ? & _).
  - intros [= <- <-]. eauto.
  - by intros (? & [= <- <-] & ->).
Qed.

Lemma call_inr {A} (c : world -> result A * world) g w x s' :
  call c (g, w) = inr (x, s') <-> (c w).1 = inr x /\ s' = (g, (c w).2).
Proof.
  unfold call. cbn [fst snd]. destruct (c w) as [[e|x'] w']; split; try done.
  - by intros [? _].
  - by intros [= <- <-].
  - by intros [[= <-] ->].
Qed.

(** The first failure of a sequence, one step at a time. *)
Lemma bind_assoc_at {A B C} (m : Run A) (f : A -> Run B) (k : B -> Run C) s :
  ((m ≫= f) ≫= k) s = (m ≫= (fun x => f x ≫= k)) s.
Proof. unfold mbind, Run_bind. by destruct (m s) as [e|[x s1]]. Qed.

Lemma ret_bind_at {A B} (x : A) (k : A -> Run B) s :
  (mret x ≫= k) s = k x s.
Proof. reflexivity. Qed.

Lemma pure_bind_at {A B C} (r : result A) (f : A -> result B) (k : B -> Run C) s :
  (pure (r ≫= f) ≫= k) s = (pure r ≫= (fun x => pure (f x) ≫= k)) s.
Proof. by destruct r. Qed.

Lemma pure_ret_at {A B} (x : A) (k : A -> Run B) s :
  (pure (mret x) ≫= k) s = k x s.
Proof. reflexivity. Qed.

Lemma draw_bind_at {A B C} (m : Rand A) (f : A -> Rand B) (k : B -> Run C) g w :
  (draw (m ≫= f) ≫= k) (g, w) = (draw m ≫= (fun x => draw (f x) ≫= k)) (g, w).
Proof.
  unfold mbind, Run_bind, Rand_bind, draw. cbn [fst snd].
  by destruct (m g) as [e|[x g']].
Qed.

Lemma draw_lift_at {A B} (r : result A) (k : A -> Run B) g w :
  (draw (lift r) ≫= k) (g, w) = (pure r ≫= k) (g, w).
Proof. by destruct r. Qed.

Lemma draw_ret_at {A B} (x : A) (k : A -> Run B) g w :
  (draw (mret x) ≫= k) (g, w) = k x (g, w).
Proof. reflexivity. Qed.

Lemma pure_raises {A B} (r : result A) (k : A -> Run B) s e
    (rest : A -> Prop) :
  (forall x, k x s = inl e <-> rest x) ->
  (pure r ≫= k) s = inl e <-> raises_or r e rest.
Proof.
  intros Hk. unfold raises_or, mbind, Run_bind, pure.
  destruct r as [e'|x]; split.
  - intros [= ->]. by left.
  - intros [[= ->]|(? & ? & _)]; done.
  - intros Hx%Hk. right. eauto.
  - intros [?|(? & [= <-] & ?)]; [done|]. by apply Hk.
Qed.

Lemma draw_raises {A B} (m : Rand A) (k : A -> Run B) g w e
    (rest : A -> state -> Prop) :
  (forall x g', k x (g', w) = inl e <-> rest x g') ->
  (draw m ≫= k) (g, w) = inl e <-> draw_raises_or m g e rest.
Proof.
  intros Hk. unfold draw_raises_or, mbind, Run_bind, draw. cbn [fst snd].
  destruct (m g) as [e'|[x g']]; split.
  - intros [= ->]. by left.
  - intros [[= ->]|(? & ? & ? & _)]; done.
  - intros Hx%Hk. right. eauto.
  - intros [?|(? & ? & [= <- <-] & ?)]; [done|]. by apply Hk.
Qed.

Lemma call_raises {A B} (c : world -> result A * world) (k : A -> Run B)
    g w e (rest : A -> world -> Prop) :
  (forall x, k x (g, (c w).2) = inl e <-> rest x (c w).2) ->
  (call c ≫= k) (g, w) = inl e <-> call_raises_or c w e rest.
Proof.
  intros Hk. unfold call_raises_or, mbind, Run_bind, call. cbn [fst snd].
  destruct (c w) as [[e'|x] w']; cbn [fst snd] in *; split.
  - intros [= ->]. by left.
  - intros [[= ->]|(? & ? & _)]; done.
  - intros Hx%Hk. right. eauto.
  - intros [?|(? & [= <-] & ?)]; [done|]. by apply Hk.
Qed.

Lemma returns_never_raises {A} (x : A) s e :
  mret (M:=Run) x s = inl e <-> False.
Proof. done. Qed.

End running.

(** ** Failures *)

Section failures.
Context `{Environment}.

Lemma compute_metrics_pair `{Score T} (predictions : list (list T))
    (labels : list Z) :
  compute_metrics (predictions, labels)
  = (predictions ← argmax_axis1 predictions;
     accuracy ← accuracy_score (map Z.of_nat predictions) labels;
     mret ({[ "accuracy" := accuracy ]} : gmap string scalar)).
Proof. reflexivity. Qed.

Ltac split_pairs x :=
  lazymatch type of x with
  | (_ * _)%type =>
      let a := fresh x in let b := fresh x in
      destruct x as [a b]; split_pairs a
  | _ => idtac
  end.

Ltac next_call :=
  cbn beta iota;
  repeat first
    [ rewrite bind_assoc_at
    | rewrite pure_bind_at
    | rewrite draw_bind_at
    | rewrite draw_lift_at
    | rewrite draw_ret_at
    | rewrite pure_ret_at
    | rewrite ret_bind_at
    | rewrite compute_metrics_pair ];
  cbn beta iota zeta;
  first
    [ apply pure_raises; let x := fresh "x" in intros x; split_pairs x
    | apply draw_raises; let x := fresh "x" in intros x ?; split_pairs x
    | apply call_raises; let x := fresh "x" in intros x; split_pairs x ].

(** C9.  A run of all cells raises [e] exactly when one of the calls the
    notebook makes raises [e] after every call before it has returned.  The
    calls are made once each and in the order of the source, each on what
    the calls before it returned and in the state of the generator and of
    the world they left; what the first failing call raises is what the run
    raises, unchanged, and no call is made after it.  The calls are those of
    the setup cell, of the ingestion, of the longest sentence, of the two
    splits, of the baseline and its frame, of the three datasets, of the
    trainer, its training and its prediction, of the metric, and of the
    saving of the model. *)
Theorem failures_propagate (g : state) (w : world) (e : exn) :
  run_all (g, w) = inl e <->
  draw_raises_or enable_full_determinism g e (fun _ g =>
  call_raises_or (model_from_pretrained "yiyanghkust/finbert-tone") w e
    (fun _ w =>
  call_raises_or (tokenizer_from_pretrained "yiyanghkust/finbert-tone") w e
    (fun _ w =>
  call_raises_or (pipeline "sentiment-analysis") w e (fun _ w =>
  call_raises_or
    (nlp [Str "there is a shortage of capital, and we need extra financing";
          Str "growth is strong and we have plenty of liquidity";
          Str "there are doubts about our finances";
          Str "profits are flat"]) w e (fun _ w =>
  call_raises_or (read_csv "all-data.csv") w e (fun raw w =>
  raises_or (rename column_name (fillna (Str "") raw)) e (fun df =>
  raises_or (getitem df (Str "label")) e (fun col =>
  raises_or (replace label_names label_codes col) e (fun col =>
  let df := setitem df (Str "label") col in
  raises_or (getitem df (Str "sentence")) e (fun col =>
  raises_or (mapM len col) e (fun _ =>
  raises_or (getitem df (Str "label")) e (fun y =>
  draw_raises_or
    (train_test_split df y (Some (Fraction (Q2Qc (1 # 10)))) (Some 42)) g e
    (fun '(df_train, df_test) g =>
  raises_or (getitem df_train (Str "label")) e (fun y =>
  draw_raises_or
    (train_test_split df_train y (Some (Fraction (Q2Qc (1 # 10)))) (Some 42))
    g e (fun '(df_train, df_val) g =>
  raises_or (getitem df_test (Str "sentence")) e (fun sentences =>
  call_raises_or (nlp sentences) w e (fun results w =>
  let results_df := from_dict results in
  raises_or (getitem results_df (Str "label")) e (fun col =>
  raises_or (replace prediction_names label_codes col) e (fun col =>
  let results_df := setitem results_df (Str "label") col in
  raises_or (set_columns results_df [Str "pred"; Str "score"]) e
    (fun results_df =>
  raises_or (select df_test [Str "sentence"; Str "label"]) e (fun truth =>
  raises_or
    (concat_axis1 (reset_index_drop truth) (reset_index_drop results_df)) e
    (fun results_df =>
  raises_or (getitem results_df (Str "label")) e (fun label =>
  raises_or (getitem results_df (Str "pred")) e (fun pred =>
  let results_df :=
    setitem results_df (Str "Correct") (map Bool (Series_eq label pred)) in
  raises_or (getitem results_df (Str "Correct")) e (fun correct =>
  raises_or
    (truediv
       (Z.of_nat
          (length (filter (fun v => py_eq v (Bool true) = true) correct)))
       (Z.of_nat (nrows results_df))) e (fun _ =>
  raises_or (from_pandas df_train) e (fun dataset_train =>
  raises_or (from_pandas df_val) e (fun dataset_val =>
  raises_or (from_pandas df_test) e (fun dataset_test =>
  raises_or (tokenize dataset_train) e (fun dataset_train =>
  raises_or (tokenize dataset_val) e (fun dataset_val =>
  raises_or (tokenize dataset_test) e (fun dataset_test =>
  raises_or (set_format dataset_train) e (fun dataset_train =>
  raises_or (set_format dataset_val) e (fun dataset_val =>
  raises_or (set_format dataset_test) e (fun dataset_test =>
  draw_raises_or (set_seed 42) g e (fun _ g =>
  call_raises_or (Trainer dataset_train dataset_val compute_metrics) w e
    (fun t w =>
  call_raises_or (trainer_train t) w e (fun t w =>
  call_raises_or (trainer_predict t dataset_test) w e
    (fun '(predictions, labels) w =>
  raises_or (argmax_axis1 predictions) e (fun predictions =>
  raises_or (accuracy_score (map Z.of_nat predictions) labels) e
    (fun accuracy =>
  raises_or
    (dict_getitem
       (prefixed "test_" ({[ "accuracy" := accuracy ]} : gmap string scalar))
       "test_accuracy") e (fun _ =>
  call_raises_or (save_model t "finbert-sentiment/") w e (fun _ _ =>
  False))))))))))))))))))))))))))))))))))))))))))).
Proof.
  unfold run_all, setup, ingest, explore, baseline, new_trainer, train,
    evaluate, save, load, encode_labels, max_sentence_length, split,
    baseline_frame, baseline_accuracy, datasets.
  repeat next_call. done.
Qed.

End failures.

(** * More of the notebook *)

(** ** Ingestion *)

Lemma getitem_setitem (df : DataFrame) (key : scalar) (s : Series) :
  getitem (setitem df key s) key = inr s.
Proof.
  unfold getitem, setitem.
  destruct (list_find _ (columns df)) as [[i c]|] eqn:Hfind; simpl.
  - apply list_find_Some in Hfind as (Hi & _ & Hbefore).
    assert (list_find (fun c : scalar * Series => c.1 = key)
              (<[i := (key, s)]> (columns df)) = Some (i, (key, s))) as ->; [|done].
    apply list_find_Some. split; [|split; [done|]].
    + rewrite list_lookup_insert_eq; [done|]. by eapply lookup_lt_Some.
    + intros j c' Hj Hlt. rewrite list_lookup_insert_ne in Hj by lia. eauto.
  - apply list_find_None in Hfind.
    assert (list_find (fun c : scalar * Series => c.1 = key)
              (columns df ++ [(key, s)])
            = Some (length (columns df), (key, s))) as ->; [|done].
    apply list_find_Some. split; [|split; [done|]].
    + by rewrite lookup_app_r, Nat.sub_diag by done.
    + intros j c' Hj Hlt. rewrite lookup_app_l in Hj by done.
      rewrite Forall_forall in Hfind. apply Hfind.
      by eapply list_elem_of_lookup_2.
Qed.

Lemma getitem_setitem_ne (df : DataFrame) (key key' : scalar) (s : Series) :
  key' <> key -> getitem (setitem df key s) key' = getitem df key'.
Proof.
  intros Hne. unfold getitem, setitem.
  destruct (list_find (fun c => c.1 = key) (columns df)) as [[i c]|] eqn:Hfind;
    simpl.
  - apply list_find_Some in Hfind as (Hi & Hkey & _).
    destruct (list_find (fun c : scalar * Series => c.1 = key') (columns df))
      as [[j c']|] eqn:Hfind'.
    + apply list_find_Some in Hfind' as (Hj & Hkey' & Hbefore).
      assert (j <> i) as Hji by (intros ->; congruence).
      assert (list_find (fun c : scalar * Series => c.1 = key')
                (<[i := (key, s)]> (columns df)) = Some (j, c')) as ->; [|done].
      apply list_find_Some. split; [|split; [done|]].
      * by rewrite list_lookup_insert_ne.
      * intros k c'' Hk Hlt. destruct (decide (k = i)) as [->|Hki].
        -- rewrite list_lookup_insert_eq in Hk by by eapply lookup_lt_Some.
           injection Hk as <-. simpl. congruence.
        -- rewrite list_lookup_insert_ne in Hk by done. eauto.
    + apply list_find_None in Hfind'.
      assert (list_find (fun c : scalar * Series => c.1 = key')
                (<[i := (key, s)]> (columns df)) = None) as ->; [|done].
      apply list_find_None, Forall_insert; [done|]. simpl. congruence.
  - destruct (list_find (fun c : scalar * Series => c.1 = key') (columns df))
      as [[j c']|] eqn:Hfind'.
    + apply list_find_Some in Hfind' as (Hj & Hkey' & Hbefore).
      assert (list_find (fun c : scalar * Series => c.1 = key')
                (columns df ++ [(key, s)]) = Some (j, c')) as ->; [|done].
      apply list_find_Some. split; [|split; [done|]].
      * rewrite lookup_app_l; [done|]. by eapply lookup_lt_Some.
      * intros k c'' Hk Hlt. rewrite lookup_app_l in Hk; [eauto|].
        apply lookup_lt_Some in Hj. lia.
    + apply list_find_None in Hfind'.
      assert (list_find (fun c : scalar * Series => c.1 = key')
                (columns df ++ [(key, s)]) = None) as ->; [|done].
      apply list_find_None, Forall_app. split; [done|].
      apply Forall_singleton. simpl. congruence.
Qed.

Lemma setitem_setitem (df : DataFrame) (key : scalar) (s s' : Series) :
  setitem (setitem df key s) key s' = setitem df key s'.
Proof.
  unfold setitem at 1 3.
  destruct (list_find (fun c => c.1 = key) (columns df)) as [[i c]|] eqn:Hfind.
  - pose proof Hfind as (Hi & _ & Hbefore)%list_find_Some.
    unfold setitem. rewrite Hfind. simpl.
    assert (list_find (fun c : scalar * Series => c.1 = key)
              (<[i := (key, s)]> (columns df)) = Some (i, (key, s))) as ->.
    { apply list_find_Some. split; [|split; [done|]].
      + rewrite list_lookup_insert_eq; [done|]. by eapply lookup_lt_Some.
      + intros j c' Hj Hlt. rewrite list_lookup_insert_ne in Hj by lia. eauto. }
    simpl. by rewrite list_insert_insert_eq.
  - pose proof Hfind as Hnone%list_find_None.
    unfold setitem. rewrite Hfind. simpl.
    assert (list_find (fun c : scalar * Series => c.1 = key)
              (columns df ++ [(key, s)])
            = Some (length (columns df), (key, s))) as ->.
    { apply list_find_Some. split; [|split; [done|]].
      + by rewrite lookup_app_r, Nat.sub_diag by done.
      + intros j c' Hj Hlt. rewrite lookup_app_l in Hj by done.
        rewrite Forall_forall in Hnone. apply Hnone.
        by eapply list_elem_of_lookup_2. }
    simpl. rewrite insert_app_r_alt, Nat.sub_diag by done. done.
Qed.

Lemma encode_idempotent (v : scalar) : encode (encode v) = encode v.
Proof.
  destruct (decide (v ∈ label_names)) as [Hin|Hout].
  - unfold label_names in Hin.
    repeat (apply elem_of_cons in Hin as [->|Hin]; [done|]).
    by apply elem_of_nil in Hin.
  - by rewrite !(encode_other v Hout).
Qed.

(** X3.  Running the encoding statement of the ingestion cell again changes
    nothing: on a frame it has returned, it returns the same frame. *)
Theorem encode_labels_idempotent (df df' : DataFrame) :
  encode_labels df = inr df' -> encode_labels df' = inr df'.
Proof.
  unfold encode_labels. intros (col & Hcol & Hrest)%bind_inr.
  rewrite replace_encode in Hrest. simpl in Hrest. injection Hrest as <-.
  rewrite getitem_setitem. cbn [mbind result_bind].
  rewrite replace_encode. cbn [mbind result_bind mret result_ret].
  rewrite setitem_setitem. do 2 f_equal.
  rewrite map_map. apply map_ext. intros v. apply encode_idempotent.
Qed.

Lemma rename_inr f (df df' : DataFrame) :
  rename f df = inr df' ->
  index df' = index df
  /\ Forall2 (fun c c' => f c.1 = inr c'.1 /\ c'.2 = c.2) (columns df) (columns df').
Proof.
  unfold rename. intros (cols & Hcols & [= <-])%bind_inr. simpl.
  split; [done|]. apply mapM_inr in Hcols.
  eapply Forall2_impl; [exact Hcols|]. intros c c' Hc. simpl in Hc.
  apply bind_inr in Hc as (l & Hl & [= <-]). done.
Qed.

Lemma getitem_lookup (df : DataFrame) key col :
  getitem df key = inr col ->
  exists i, columns df !! i = Some (key, col)
    /\ setitem df key (map encode col)
       = mkDataFrame (index df) (<[i := (key, map encode col)]> (columns df)).
Proof.
  unfold getitem, setitem.
  destruct (list_find _ _) as [[i [k c]]|] eqn:Hfind; [|done].
  intros [= <-]. apply list_find_Some in Hfind as (Hi & Hk & _).
  simpl in Hk. subst k. eauto.
Qed.

(** X1.  What the ingestion cell makes of a CSV with other than two columns:
    with a single column it returns a frame that has a [label] column only,
    on which the cell that measures the sentences raises [KeyError]; with
    three columns or more the renaming raises [IndexError], whatever the
    columns hold. *)
Theorem load_column_count :
  (forall idx c0, exists df,
     load (mkDataFrame idx [(Int 0, c0)]) = inr df
     /\ map fst (columns df) = [Str "label"]
     /\ exists msg, max_sentence_length df = inl (KeyError msg))
  /\ (forall idx c0 c1 c2 rest,
        load (mkDataFrame idx
                ((Int 0, c0) :: (Int 1, c1) :: (Int 2, c2) :: rest))
        = inl (IndexError "list index out of range")).
Proof.
  split.
  - intros idx c0. eexists. split; [reflexivity|]. split; [reflexivity|].
    by eexists.
  - intros idx c0 c1 c2 rest. reflexivity.
Qed.

(** X2.  The ingestion cell keeps the rows: the frame it returns has the
    index of the frame [read_csv] returned, a column for each of its columns
    with as many values, and as [sentence] column a column of the CSV with
    its missing values replaced by the empty string and nothing else
    changed. *)
Theorem load_keeps_rows (raw df : DataFrame) :
  load raw = inr df ->
  index df = index raw
  /\ Forall2 (fun c c' => column_name c.1 = inr c'.1 /\ length c'.2 = length c.2)
       (columns raw) (columns df)
  /\ forall s, getitem df (Str "sentence") = inr s ->
       exists c, c ∈ columns raw
         /\ column_name c.1 = inr (Str "sentence") /\ s = map fill c.2.
Proof.
  unfold load. intros (df0 & Hrename & Hencode)%bind_inr.
  apply rename_inr in Hrename as [Hidx Hcols]. simpl in Hidx, Hcols.
  unfold encode_labels in Hencode.
  apply bind_inr in Hencode as (col & Hcol & Hencode).
  rewrite replace_encode in Hencode. simpl in Hencode. injection Hencode as <-.
  assert (Forall2 (fun c c' => column_name c.1 = inr c'.1 /\ c'.2 = map fill c.2)
            (columns raw) (columns df0)) as Hfilled.
  { apply Forall2_fmap_l in Hcols. eapply Forall2_impl; [exact Hcols|].
    intros c c' [Hname Hvals]. simpl in *. split; [done|]. by rewrite Hvals. }
  split; [|split].
  - destruct (getitem_lookup _ _ _ Hcol) as (i & _ & ->). done.
  - destruct (getitem_lookup _ _ _ Hcol) as (i & Hi & ->). simpl.
    destruct (Forall2_lookup_r _ _ _ _ _ Hfilled Hi) as (c & Hc & Hname & Hvals).
    simpl in Hname, Hvals.
    rewrite <-(list_insert_id _ _ _ Hc).
    apply Forall2_insert.
    + eapply Forall2_impl; [exact Hfilled|]. intros a b [? ->].
      split; [done|]. by rewrite length_map.
    + simpl. split; [done|]. by rewrite length_map, Hvals, length_map.
  - intros s Hs. rewrite getitem_setitem_ne in Hs by done.
    apply getitem_elem_of, list_elem_of_lookup in Hs as [j Hj].
    destruct (Forall2_lookup_r _ _ _ _ _ Hfilled Hj) as (c & Hc & Hname & Hvals).
    exists c. split; [by eapply list_elem_of_lookup_2|]. done.
Qed.

(** ** The longest sentence *)

Lemma mapM_len_strings (sentences : list string) :
  mapM len (map Str sentences)
  = inr (map (fun s => Z.of_nat (String.length s)) sentences).
Proof. apply mapM_inr. induction sentences; constructor; done. Qed.

Lemma foldr_max_bound (l : Z) (ls : list Z) :
  Forall (fun x => x <= foldr Z.max l ls) (l :: ls)
  /\ foldr Z.max l ls ∈ l :: ls.
Proof.
  induction ls as [|x ls [IHb IHm]]; simpl.
  - split; [by apply Forall_singleton|]. apply list_elem_of_here.
  - inversion IHb as [|? ? Hl Hls]; subst. split.
    + constructor; [lia|]. constructor; [lia|].
      eapply Forall_impl; [exact Hls|]. intros y Hy. simpl in Hy. lia.
    + destruct (Z.max_spec x (foldr Z.max l ls)) as [[_ ->]|[_ ->]].
      * apply elem_of_cons in IHm as [->|IHm]; [apply list_elem_of_here|].
        by do 2 apply list_elem_of_further.
      * apply list_elem_of_further, list_elem_of_here.
Qed.

(** X4.  On a frame whose sentences are strings, and at least one, the cell
    that measures them returns the length of a longest sentence: no sentence
    is longer, and some sentence is that long. *)
Theorem max_sentence_length_longest (df : DataFrame) (sentences : list string) :
  getitem df (Str "sentence") = inr (map Str sentences) ->
  sentences <> [] ->
  exists m,
    max_sentence_length df = inr (Int m)
    /\ Forall (fun s => Z.of_nat (String.length s) <= m) sentences
    /\ Exists (fun s => Z.of_nat (String.length s) = m) sentences.
Proof.
  intros Hcol Hne. unfold max_sentence_length. rewrite Hcol.
  cbn [mbind result_bind]. rewrite mapM_len_strings. cbn [mbind result_bind].
  destruct sentences as [|s0 sentences]; [done|]. cbn [map].
  eexists. split; [reflexivity|].
  destruct (foldr_max_bound (Z.of_nat (String.length s0))
              (map (fun s => Z.of_nat (String.length s)) sentences))
    as [Hbound Hmem].
  split.
  - apply Forall_forall. intros s Hs. rewrite Forall_forall in Hbound.
    apply Hbound.
    apply (list_elem_of_fmap_2 (fun s => Z.of_nat (String.length s))
             (s0 :: sentences) s Hs).
  - apply (list_elem_of_fmap (fun s => Z.of_nat (String.length s)) (s0 :: sentences))
      in Hmem as (s & Hs & Hin).
    apply Exists_exists. exists s. split; [done|]. by symmetry.
Qed.

(** X5.  A sentence that is not a string (a number that [read_csv] parsed,
    say) makes the cell that measures the sentences raise [TypeError]. *)
Theorem max_sentence_length_raises (df : DataFrame) (col : Series) (v : scalar) :
  getitem df (Str "sentence") = inr col ->
  v ∈ col -> (forall s, v <> Str s) ->
  exists msg, max_sentence_length df = inl (TypeError msg).
Proof.
  intros Hcol Hv Hstr. unfold max_sentence_length. rewrite Hcol.
  cbn [mbind result_bind].
  assert (mapM len col = inl (TypeError "object has no len()")) as ->;
    [|by eexists].
  clear Hcol. induction col as [|x col IH]; [by apply elem_of_nil in Hv|].
  simpl. destruct (decide (x = v)) as [->|Hne].
  - destruct v; try done. by destruct (Hstr s).
  - apply elem_of_cons in Hv as [->|Hv]; [done|].
    destruct x; simpl; try done. by rewrite (IH Hv).
Qed.

(** ** What an encoding holds *)

Section encodings.
Context `{RandomState} `{Tokenizer}.

Lemma truncate_sequences_take (ids : list Z) :
  truncate_sequences max_length ids = take 313 ids.
Proof.
  unfold truncate_sequences, max_length.
  destruct (Nat.ltb_spec 315 (length ids + 2)) as [Hlong|Hshort].
  - destruct (Nat.ltb_spec (length ids + 2 - 315) (length ids)) as [_|?]; [|lia].
    f_equal. lia.
  - by rewrite take_ge by lia.
Qed.

(** X6.  The encoding of a sentence is the [CLS] token, the first 313
    word-piece ids of the sentence (all of them when there are no more), the
    [SEP] token, and padding up to 315; the attention mask is 1 on the tokens
    and 0 on the padding, and the token types are 0 throughout. *)
Theorem encode_plus_layout (text : string) :
  let kept := take 313 (text_ids text) in
  let padding := (313 - length kept)%nat in
  input_ids (encode_plus max_length text)
  = cls_token_id :: kept ++ sep_token_id :: replicate padding pad_token_id
  /\ attention_mask (encode_plus max_length text)
     = replicate (length kept + 2) 1 ++ replicate padding 0
  /\ token_type_ids (encode_plus max_length text) = replicate 315 0
  /\ ((length (text_ids text) <= 313)%nat -> kept = text_ids text).
Proof.
  cbv zeta. unfold encode_plus. rewrite truncate_sequences_take.
  set (kept := take 313 (text_ids text)).
  assert (length kept <= 313)%nat as Hkept
    by (unfold kept; rewrite length_take; lia).
  cbn [input_ids attention_mask token_type_ids].
  assert (length (cls_token_id :: kept ++ [sep_token_id]) = (length kept + 2)%nat)
    as Hlen by (simpl; rewrite length_app; simpl; lia).
  rewrite Hlen.
  replace (max_length - (length kept + 2))%nat with (313 - length kept)%nat
    by (unfold max_length; lia).
  split; [|split; [|split]].
  - simpl. by rewrite <-app_assoc.
  - done.
  - rewrite <-replicate_add. f_equal. lia.
  - intros Hshort. unfold kept. by rewrite take_ge.
Qed.

(** X7.  The tokenization cells return exactly when, for each of the three
    frames, the Arrow conversion takes the frame and the frame has at least
    one row, a [sentence] column that holds strings only and a [label]
    column; the datasets then hold one encoding per sentence, in order, and
    the labels of the frame. *)
Theorem datasets_returns_iff `{Arrow} (df_train df_val df_test : DataFrame)
    (d_train d_val d_test : Dataset) :
  datasets df_train df_val df_test = inr (d_train, d_val, d_test)
  <-> Forall2 (fun df d =>
                 arrow_error df = None
                 /\ nrows df <> 0%nat
                 /\ exists sentences,
                      getitem df (Str "sentence") = inr (map Str sentences)
                      /\ getitem df (Str "label") = inr d.2
                      /\ d.1 = map (encode_plus max_length) sentences)
        [df_train; df_val; df_test] [d_train; d_val; d_test].
Proof.
  split; [apply datasets_inr|].
  intros Hall.
  inversion Hall as [|? ? ? ? (Ha1 & Hr1 & ss1 & Hs1 & Hl1 & Hd1) Hall2]; subst.
  inversion Hall2 as [|? ? ? ? (Ha2 & Hr2 & ss2 & Hs2 & Hl2 & Hd2) Hall3]; subst.
  inversion Hall3 as [|? ? ? ? (Ha3 & Hr3 & ss3 & Hs3 & Hl3 & Hd3) _]; subst.
  destruct d_train as [e1 l1], d_val as [e2 l2], d_test as [e3 l3].
  simpl in *. subst.
  destruct (dataset_inr _ _ _ Ha1 Hr1 Hs1 Hl1) as (Hp1 & Ht1 & Hf1).
  destruct (dataset_inr _ _ _ Ha2 Hr2 Hs2 Hl2) as (Hp2 & Ht2 & Hf2).
  destruct (dataset_inr _ _ _ Ha3 Hr3 Hs3 Hl3) as (Hp3 & Ht3 & Hf3).
  unfold datasets. rewrite Hp1, Hp2, Hp3. cbn [mbind result_bind].
  rewrite Ht1, Ht2, Ht3. cbn [mbind result_bind].
  by rewrite Hf1, Hf2, Hf3.
Qed.

End encodings.

(** ** More on the metric *)

Lemma Zpos_of_nat (n : nat) : (0 < n)%nat -> Z.pos (Pos.of_nat n) = Z.of_nat n.
Proof.
  intros Hn. destruct n; [lia|].
  by rewrite <-Pos.of_nat_succ, Zpos_P_of_succ_nat, Nat2Z.inj_succ.
Qed.

Lemma Q2Qc_le_1 (k n : nat) :
  (0 < n)%nat -> (k <= n)%nat ->
  (0 <= Q2Qc (Z.of_nat k # Pos.of_nat n) <= 1)%Qc.
Proof.
  intros Hn Hk. unfold Qcle. cbn [this Q2Qc]. rewrite !Qred_correct.
  unfold Qle. cbn [Qnum Qden]. rewrite Zpos_of_nat by done. lia.
Qed.

Lemma Q2Qc_eq_1 (k n : nat) :
  (0 < n)%nat -> Q2Qc (Z.of_nat k # Pos.of_nat n) = 1%Qc <-> k = n.
Proof.
  intros Hn. pose proof (Zpos_of_nat n Hn) as Hpos. split.
  - intros Heq. apply (f_equal this) in Heq. cbn [this Q2Qc] in Heq.
    assert (Z.of_nat k # Pos.of_nat n == 1)%Q as Hq.
    { rewrite <-(Qred_correct (Z.of_nat k # Pos.of_nat n)), Heq. done. }
    unfold Qeq in Hq. cbn [Qnum Qden] in Hq. lia.
  - intros ->. apply Qc_is_canon. cbn [this Q2Qc]. rewrite !Qred_correct.
    unfold Qeq. cbn [Qnum Qden]. lia.
Qed.

Section metric_more.
Context `{Score T}.

Lemma compute_metrics_inr (predictions : list (list T)) (labels : list Z) :
  predictions <> [] ->
  Forall (fun row => row <> []) predictions ->
  length labels = length predictions ->
  compute_metrics (predictions, labels)
  = inr {[ "accuracy" :=
             Float (Q2Qc (Z.of_nat (length (filter hit (zip predictions labels)))
                          # Pos.of_nat (length predictions))) ]}.
Proof.
  intros Hne Hrows Hlen. unfold compute_metrics.
  destruct (argmax_axis1_is_argmax predictions Hrows) as (js & -> & Hjs).
  simpl. unfold accuracy_score.
  assert (length js = length predictions) as Hjslen
    by (symmetry; by eapply Forall2_length).
  rewrite bool_decide_eq_true_2 by (rewrite length_map; lia). simpl.
  rewrite <-(hits_agree predictions js labels Hjs Hlen).
  assert (length (zip_with (fun x y => bool_decide (x = y))
                    (map Z.of_nat js) labels) = length predictions) as Hscore.
  { rewrite length_zip_with, length_map. lia. }
  destruct (zip_with _ _ _) as [|b score] eqn:Hzip.
  { simpl in Hscore. destruct predictions; done. }
  simpl. by rewrite <-Hscore.
Qed.

(** X8.  The accuracy [compute_metrics] returns lies between 0 and 1, and it
    is 1 exactly when the label of every row is the position of the row's
    greatest score. *)
Theorem compute_metrics_range (predictions : list (list T)) (labels : list Z) :
  predictions <> [] ->
  Forall (fun row => row <> []) predictions ->
  length labels = length predictions ->
  exists a : Qc,
    compute_metrics (predictions, labels) = inr {[ "accuracy" := Float a ]}
    /\ (0 <= a <= 1)%Qc
    /\ (a = 1%Qc <-> Forall hit (zip predictions labels)).
Proof.
  intros Hne Hrows Hlen. eexists. split; [by apply compute_metrics_inr|].
  assert (0 < length predictions)%nat as Hpos
    by (destruct predictions; [done|simpl; lia]).
  assert (length (zip predictions labels) = length predictions) as Hzip
    by (rewrite length_zip; lia).
  pose proof (length_filter hit (zip predictions labels)) as Hle.
  split.
  - apply Q2Qc_le_1; [done|lia].
  - rewrite Q2Qc_eq_1 by done. rewrite <-Hzip. split.
    + intros Hall. apply Forall_forall. intros p Hp.
      destruct (decide (hit p)) as [|Hmiss]; [done|].
      exfalso. clear -Hall Hp Hmiss.
      induction (zip predictions labels) as [|q l IH]; [by apply elem_of_nil in Hp|].
      rewrite filter_cons in Hall. pose proof (length_filter hit l) as Hl.
      destruct (decide (hit q)); simpl in Hall; [|lia].
      apply elem_of_cons in Hp as [->|Hp]; [done|]. apply IH; [lia|done].
    + intros Hall. f_equal. clear -Hall.
      induction Hall as [|q l Hq _ IH]; [done|].
      by rewrite filter_cons, decide_True, IH.
Qed.

(** X9.  [compute_metrics] raises [ValueError] when a row holds no score, and
    when the number of labels is not the number of rows. *)
Theorem compute_metrics_raises (predictions : list (list T)) (labels : list Z) :
  (In [] predictions \/
   Forall (fun row => row <> []) predictions
   /\ length labels <> length predictions) ->
  exists msg, compute_metrics (predictions, labels) = inl (ValueError msg).
Proof.
  intros [Hempty|[Hrows Hlen]]; unfold compute_metrics.
  - assert (argmax_axis1 predictions
            = inl (ValueError "attempt to get argmax of an empty sequence")) as ->;
      [|by eexists].
    unfold argmax_axis1.
    induction predictions as [|row predictions IH]; [done|].
    destruct Hempty as [->|Hempty]; [done|].
    simpl. destruct row as [|x row]; [done|]. simpl. by rewrite IH.
  - destruct (argmax_axis1_is_argmax predictions Hrows) as (js & -> & Hjs).
    cbn [mbind result_bind]. unfold accuracy_score.
    rewrite bool_decide_eq_false_2; [by eexists|].
    rewrite length_map, <-(Forall2_length _ _ _ Hjs). lia.
Qed.

End metric_more.

Section rescaling.
Context `{Score T} `{Score T'}.

Lemma argmax_scan_rescaled (f : T -> T') (mp : T) (max_ind i : nat) (ip : list T) :
  (forall x y, score_le (f x) (f y) = score_le x y) ->
  argmax_scan (f mp) max_ind i (map f ip) = argmax_scan mp max_ind i ip.
Proof.
  intros Hf. revert mp max_ind i.
  induction ip as [|x ip IH]; intros mp max_ind i; [done|].
  simpl. rewrite Hf. destruct (score_le x mp); simpl; apply IH.
Qed.

(** X10.  The accuracy depends on the order of the scores only: a map of
    the scores that neither reverses nor merges them, [f x <= f y] exactly
    when [x <= y], leaves what [compute_metrics] returns or raises as it
    is. *)
Theorem compute_metrics_rescaled (f : T -> T') (predictions : list (list T))
    (labels : list Z) :
  (forall x y, score_le (f x) (f y) = score_le x y) ->
  compute_metrics (map (map f) predictions, labels)
  = compute_metrics (predictions, labels).
Proof.
  intros Hf. unfold compute_metrics.
  assert (argmax_axis1 (map (map f) predictions) = argmax_axis1 predictions)
    as ->; [|done].
  unfold argmax_axis1. induction predictions as [|row predictions IH]; [done|].
  simpl. rewrite IH. f_equal.
  destruct row as [|x ip]; [done|]. simpl.
  by rewrite (argmax_scan_rescaled f x 0 1 ip Hf).
Qed.

End rescaling.

(** ** The baseline frame, row by row *)

Lemma nrows_mkDataFrame idx cols : nrows (mkDataFrame idx cols) = length idx.
Proof. reflexivity. Qed.

Lemma truediv_share (k n : nat) :
  (0 < n)%nat ->
  truediv (Z.of_nat k) (Z.of_nat n)
  = inr (Float (Q2Qc (Z.of_nat k # Pos.of_nat n))).
Proof.
  intros Hn. unfold truediv. rewrite bool_decide_eq_false_2 by lia.
  do 2 f_equal. apply Qc_is_canon.
  unfold Qcdiv, Qcmult, Qcinv, Qc_of_Z, Q2Qc. cbn [this].
  rewrite !Qred_correct.
  destruct n as [|n]; [lia|].
  unfold Qeq, Qmult, Qinv, inject_Z. cbn [Qnum Qden].
  rewrite <-(Zpos_of_nat (S n)) by lia. simpl. lia.
Qed.

Lemma baseline_frame_inr (df_test : DataFrame) (sentences labels : Series)
    (results : list (string * Qc)) :
  results <> [] ->
  length results = nrows df_test ->
  getitem df_test (Str "sentence") = inr sentences ->
  getitem df_test (Str "label") = inr labels ->
  let pred := map decode (map (fun r => Str r.1) results) in
  baseline_frame df_test results
  = inr (mkDataFrame (RangeIndex (nrows df_test))
           [(Str "sentence", sentences); (Str "label", labels);
            (Str "pred", pred);
            (Str "score", map (fun r => Float r.2) results);
            (Str "Correct", map Bool (Series_eq labels pred))]).
Proof.
  intros Hne Hres Hgs Hgl. cbv zeta.
  unfold baseline_frame. rewrite from_dict_cons by done.
  rewrite getitem_cons_eq. cbn [mbind result_bind].
  rewrite replace_decode. cbn [mbind result_bind].
  set (pred_col := map decode (map (fun r => Str r.1) results)).
  set (score_col := map (fun r => Float r.2) results).
  change (setitem _ (Str "label") pred_col)
    with (mkDataFrame (RangeIndex (length results))
            [(Str "label", pred_col); (Str "score", score_col)]).
  change (set_columns _ [Str "pred"; Str "score"])
    with (inr (B:=DataFrame) (A:=exn)
            (mkDataFrame (RangeIndex (length results))
               [(Str "pred", pred_col); (Str "score", score_col)])).
  cbn [mbind result_bind].
  rewrite (select_sentence_label _ _ _ Hgs Hgl). cbn [mbind result_bind].
  rewrite concat_axis1_reset
    by by rewrite !nrows_mkDataFrame, length_RangeIndex.
  rewrite nrows_mkDataFrame. fold (nrows df_test).
  cbn [mbind result_bind columns app].
  rewrite (getitem_cons_ne _ _ _ _ (Str "label")),
    (getitem_cons_eq _ (Str "label")) by done.
  cbn [mbind result_bind].
  rewrite !(getitem_cons_ne _ _ _ _ (Str "pred")),
    (getitem_cons_eq _ (Str "pred")) by done.
  cbn [mbind result_bind mret result_ret].
  unfold setitem. cbn [columns index].
  rewrite (proj2 (list_find_None _ _)).
  2:{ repeat (apply Forall_cons; split; [done|]). constructor. }
  done.
Qed.

(** X11.  The frame of the baseline has a row per test sentence, numbered
    from 0 whatever the index of the test set was, and the columns
    [sentence], [label], [pred], [score], [Correct] in this order: the
    sentences and labels of the test set, the decoded labels and the scores
    of the pipeline, and their comparison, row by row. *)
Theorem baseline_frame_rows (df_test : DataFrame) (sentences labels : Series)
    (results : list (string * Qc)) :
  results <> [] ->
  length results = nrows df_test ->
  getitem df_test (Str "sentence") = inr sentences ->
  getitem df_test (Str "label") = inr labels ->
  exists results_df,
    baseline_frame df_test results = inr results_df
    /\ index results_df = map Z.of_nat (seq 0 (nrows df_test))
    /\ map fst (columns results_df)
       = [Str "sentence"; Str "label"; Str "pred"; Str "score"; Str "Correct"]
    /\ getitem results_df (Str "sentence") = inr sentences
    /\ getitem results_df (Str "label") = inr labels
    /\ getitem results_df (Str "pred")
       = inr (map (fun r => decode (Str r.1)) results)
    /\ getitem results_df (Str "score") = inr (map (fun r => Float r.2) results)
    /\ getitem results_df (Str "Correct")
       = inr (map Bool
                (zip_with py_eq labels
                   (map (fun r => decode (Str r.1)) results))).
Proof.
  intros Hne Hres Hgs Hgl.
  pose proof (baseline_frame_inr df_test sentences labels results
                Hne Hres Hgs Hgl) as Hframe.
  cbv zeta in Hframe. rewrite map_map in Hframe.
  eexists. split; [exact Hframe|].
  split; [done|]. split; [done|].
  split; [apply getitem_cons_eq|].
  split.
  { by rewrite !(getitem_cons_ne _ _ _ _ (Str "label")),
      (getitem_cons_eq _ (Str "label")) by done. }
  split.
  { by rewrite !(getitem_cons_ne _ _ _ _ (Str "pred")),
      (getitem_cons_eq _ (Str "pred")) by done. }
  split.
  { by rewrite !(getitem_cons_ne _ _ _ _ (Str "score")),
      (getitem_cons_eq _ (Str "score")) by done. }
  by rewrite !(getitem_cons_ne _ _ _ _ (Str "Correct")),
    (getitem_cons_eq _ (Str "Correct")) by done.
Qed.

(** X12.  The accuracy of the baseline is the share of the test rows whose
    label equals the decoded label of the pipeline, a number between 0 and
    1. *)
Theorem baseline_accuracy_share (df_test : DataFrame) (sentences labels : Series)
    (results : list (string * Qc)) :
  results <> [] ->
  length results = nrows df_test ->
  getitem df_test (Str "sentence") = inr sentences ->
  getitem df_test (Str "label") = inr labels ->
  exists results_df (a : Qc),
    baseline_frame df_test results = inr results_df
    /\ baseline_accuracy results_df = inr (Float a)
    /\ a = Q2Qc (Z.of_nat
                   (length (filter (fun p => py_eq p.1 (decode (Str p.2.1)) = true)
                              (zip labels results)))
                 # Pos.of_nat (nrows df_test))
    /\ (0 <= a <= 1)%Qc.
Proof.
  intros Hne Hres Hgs Hgl.
  pose proof (baseline_frame_inr df_test sentences labels results
                Hne Hres Hgs Hgl) as Hframe.
  cbv zeta in Hframe. rewrite map_map in Hframe.
  assert (0 < nrows df_test)%nat as Hpos.
  { rewrite <-Hres. destruct results; [done|simpl; lia]. }
  set (hits := filter (fun p => py_eq p.1 (decode (Str p.2.1)) = true)
                 (zip labels results)).
  assert (length (filter (fun v => py_eq v (Bool true) = true)
                    (map Bool (Series_eq labels
                                 (map (fun r => decode (Str r.1)) results))))
          = length hits) as Hhits.
  { unfold hits, Series_eq. clear. revert results.
    induction labels as [|l labels IH]; intros [|r results]; try done.
    cbn [map zip_with]. rewrite !filter_cons. cbn [fst snd].
    specialize (IH results).
    destruct (py_eq l (decode (Str r.1))) eqn:Heq.
    - destruct (decide (py_eq (Bool true) (Bool true) = true)) as [_|Hn];
        [|by destruct Hn].
      destruct (decide (true = true)) as [_|Hn]; [|done].
      cbn [length]. by rewrite IH.
    - destruct (decide (py_eq (Bool false) (Bool true) = true)) as [Hn|_];
        [by apply bool_decide_eq_true in Hn|].
      destruct (decide (false = true)) as [Hn|_]; [done|].
      exact IH. }
  eexists _, _. split; [exact Hframe|]. split; [|split; [reflexivity|]].
  - unfold baseline_accuracy.
    rewrite !(getitem_cons_ne _ _ _ _ (Str "Correct")),
      (getitem_cons_eq _ (Str "Correct")) by done.
    cbn [mbind result_bind]. rewrite nrows_mkDataFrame, length_RangeIndex.
    rewrite Hhits. by apply truediv_share.
  - apply Q2Qc_le_1; [done|].
    unfold hits. etransitivity; [apply length_filter|].
    rewrite length_zip. lia.
Qed.

(** ** The sizes of the split *)

Lemma ceil_tenth (n : Z) : - ((- n) / 10) = (n + 9) / 10.
Proof.
  pose proof (Z.div_mod (- n) 10 ltac:(lia)).
  pose proof (Z.mod_pos_bound (- n) 10 ltac:(lia)).
  pose proof (Z.div_mod (n + 9) 10 ltac:(lia)).
  pose proof (Z.mod_pos_bound (n + 9) 10 ltac:(lia)). lia.
Qed.

Lemma validate_tenth_returns (n : Z) d :
  2 <= n ->
  _validate_shuffle_split n (Some (Fraction (Q2Qc (1 # 10)))) None d
  = inr (n - (n + 9) / 10, (n + 9) / 10).
Proof.
  intros Hn. unfold _validate_shuffle_split.
  assert (size_out_of_range n (Some (Fraction (Q2Qc (1 # 10)))) = false) as ->
    by reflexivity.
  cbn [size_out_of_range]. cbv zeta.
  rewrite Qceiling_tenth, ceil_tenth.
  pose proof (Z.div_mod (n + 9) 10 ltac:(lia)).
  pose proof (Z.mod_pos_bound (n + 9) 10 ltac:(lia)).
  destruct (Z.ltb_spec n (n - (n + 9) / 10 + (n + 9) / 10)); [lia|].
  destruct (Z.eqb_spec (n - (n + 9) / 10) 0); [lia|]. done.
Qed.

Section sizes.
Context `{RandomState}.

(** X13.  The sizes of the three subsets depend on the number of rows only:
    the test set gets a tenth of the rows, rounded up, the validation set a
    tenth of the rest, rounded up, and the train set what is left; none of
    them is empty. *)
Theorem split_sizes (df : DataFrame) g df_train df_val df_test g' :
  split df g = inr ((df_train, df_val, df_test), g') ->
  let n := Z.of_nat (nrows df) in
  let n_test := (n + 9) / 10 in
  let n_val := (n - n_test + 9) / 10 in
  Z.of_nat (nrows df_test) = n_test
  /\ Z.of_nat (nrows df_val) = n_val
  /\ Z.of_nat (nrows df_train) = n - n_test - n_val
  /\ 0 < n_test /\ 0 < n_val /\ 0 < n - n_test - n_val.
Proof.
  unfold split. intros Hrun. cbv zeta.
  apply rand_bind_inr in Hrun as (y & s0 & [Hy ->]%lift_inr & Hrun).
  apply rand_bind_inr in Hrun as ([a b] & s1 & Hcall1 & Hrun).
  apply rand_bind_inr in Hrun as (y1 & s2 & [Hy1 ->]%lift_inr & Hrun).
  apply rand_bind_inr in Hrun
    as ([a2 b2] & s3 & Hcall2 & [[= -> -> ->] _]%rand_ret_inr).
  apply train_test_split_sizes in Hcall1 as (n1 & n_test & Hval1 & Ha & Hb).
  apply train_test_split_sizes in Hcall2 as (n_train & n_val & Hval2 & Ha2 & Hb2).
  apply validate_tenth in Hval1 as (Ht & Hn1 & Hpos1); [|lia].
  apply validate_tenth in Hval2 as (Hv & Htr & Hpos2); [|lia].
  rewrite ceil_tenth in Ht, Hv. rewrite Ha in Hv.
  set (n := Z.of_nat (nrows df)) in *.
  pose proof (Z.div_mod (n + 9) 10 ltac:(lia)).
  pose proof (Z.mod_pos_bound (n + 9) 10 ltac:(lia)).
  pose proof (Z.div_mod (n1 + 9) 10 ltac:(lia)).
  pose proof (Z.mod_pos_bound (n1 + 9) 10 ltac:(lia)).
  subst n_test n1. rewrite Hb, Hb2, Ha2. subst n_val n_train.
  repeat split; try lia.
Qed.

(** X14.  On a frame with a value per row in every column and two rows or
    more, whose labels are all numbers or all strings, each on three rows or
    more, and as many as a tenth of nine tenths of the rows at most, both
    calls of [train_test_split] return, from every state of the
    generator, which they leave as it is. *)
Theorem split_succeeds (df : DataFrame) (y : Series) classes yi (g : state) :
  rectangular df ->
  (2 <= nrows df)%nat ->
  getitem df (Str "label") = inr y ->
  unique_inverse y = inr (classes, yi) ->
  Forall (fun c => 3 <= c) (bincount (length classes) yi) ->
  let n := Z.of_nat (nrows df) in
  Z.of_nat (length classes) <= (n - (n + 9) / 10 + 9) / 10 ->
  exists df_train df_val df_test,
    split df g = inr ((df_train, df_val, df_test), g).
Proof.
  intros Hrect Hrows Hy Huniq Hcounts n Hk.
  pose proof (Z.div_mod (n + 9) 10 ltac:(lia)).
  pose proof (Z.mod_pos_bound (n + 9) 10 ltac:(lia)).
  assert (2 <= n) as Hn by (unfold n; lia).
  assert (1 <= n - (n + 9) / 10) as Hn1 by lia.
  destruct (decide (n - (n + 9) / 10 = 1)) as [Hone|Hmore].
  - rewrite Hone in Hk. change ((1 + 9) / 10) with 1 in Hk.
    destruct classes as [|c0 [|c1 classes]]; simpl in Hk; [| |lia].
    + apply unique_inverse_inr in Huniq as [_ Hyi].
      pose proof (rectangular_getitem _ _ _ Hrect Hy) as Hlen.
      destruct Hyi as [|v k y yi (key & _ & Hkey) _]; [simpl in Hlen; lia|].
      done.
    + assert (bincount 1 yi !! 0%nat
              = Some (Z.of_nat (length (filter (fun x => x = 0%nat) yi))))
        as Hzero by (apply bincount_lookup; lia).
      pose proof (Forall_lookup_1 _ _ _ _ Hcounts Hzero) as Hthree.
      simpl in Hthree.
      pose proof (length_filter (fun x => x = 0%nat) yi) as Hle.
      apply unique_inverse_inr in Huniq as [_ Hyi].
      apply Forall2_length in Hyi.
      pose proof (rectangular_getitem _ _ _ Hrect Hy) as Hlen.
      unfold n in *. lia.
  - destruct (split_returns df y classes yi
                (n - (n + 9) / 10) ((n + 9) / 10)
                (n - (n + 9) / 10 - (n - (n + 9) / 10 + 9) / 10)
                ((n - (n + 9) / 10 + 9) / 10) g Hrect Hy Huniq Hcounts)
      as (df_train & df_val & df_test & Hsplit & _); [| |done|].
    + by apply validate_tenth_returns.
    + apply validate_tenth_returns. lia.
    + by exists df_train, df_val, df_test.
Qed.

(** ** Labels the split refuses *)

Lemma split_raises_at_classes (df : DataFrame) (y : Series) (e : exn) (g : state) :
  getitem df (Str "label") = inr y ->
  length y = nrows df -> (2 <= nrows df)%nat ->
  existsb isnull y = false ->
  (forall n_samples t r s,
     0 < t -> 0 < r -> r + t <= n_samples ->
     _iter_indices n_samples y (Some (Count t)) (Some (Count r)) s = inl e) ->
  split df g = inl e.
Proof.
  intros Hy Hlen Hrows Hnull Hiter.
  set (n := Z.of_nat (nrows df)).
  pose proof (Z.div_mod (n + 9) 10 ltac:(lia)).
  pose proof (Z.mod_pos_bound (n + 9) 10 ltac:(lia)).
  assert (2 <= n) as Hn by (unfold n; lia).
  unfold split, mbind, Rand_bind. rewrite Hy. cbn [lift].
  unfold train_test_split, mbind, Rand_bind. fold n.
  rewrite validate_tenth_returns by done. cbn [lift].
  unfold StratifiedShuffleSplit_split. rewrite Hnull.
  unfold n at 2. rewrite Hlen, Z.eqb_refl. cbn [negb with_random_state].
  rewrite Hiter by lia. done.
Qed.

Lemma _iter_indices_few_members (n_samples : Z) (y : Series) classes yi
    (t r : Z) s :
  0 < t -> 0 < r -> r + t <= n_samples ->
  unique_inverse y = inr (classes, yi) ->
  Exists (fun c => c < 2) (bincount (length classes) yi) ->
  _iter_indices n_samples y (Some (Count t)) (Some (Count r)) s
  = inl (ValueError "The least populated class in y has only 1 member, which is too few. The minimum number of groups for any class cannot be less than 2.").
Proof.
  intros Ht Hr Hn Huniq Hfew. unfold _iter_indices.
  rewrite validate_counts_returns by done.
  unfold mbind at 1, Rand_bind at 1. cbn [lift].
  rewrite Huniq. unfold mbind at 1, Rand_bind at 1. cbn [lift].
  by rewrite bool_decide_eq_true_2.
Qed.

Lemma _iter_indices_incomparable (n_samples : Z) (y : Series) (e : exn)
    (t r : Z) s :
  0 < t -> 0 < r -> r + t <= n_samples ->
  unique_inverse y = inl e ->
  _iter_indices n_samples y (Some (Count t)) (Some (Count r)) s = inl e.
Proof.
  intros Ht Hr Hn Huniq. unfold _iter_indices.
  rewrite validate_counts_returns by done.
  unfold mbind at 1, Rand_bind at 1. cbn [lift].
  by rewrite Huniq.
Qed.

(** X15.  A label that a single row carries makes the split raise
    [ValueError]: a class needs two members to be shared between two
    sides. *)
Theorem split_single_member_raises (df : DataFrame) (y : Series) classes yi
    (v : scalar) (g : state) :
  getitem df (Str "label") = inr y ->
  length y = nrows df -> (2 <= nrows df)%nat ->
  unique_inverse y = inr (classes, yi) ->
  v ∈ y -> count_label y v (seq 0 (length y)) = 1 ->
  exists msg, split df g = inl (ValueError msg).
Proof.
  intros Hy Hlen Hrows Huniq Hv Hone.
  assert (Exists (fun c => c < 2) (bincount (length classes) yi)) as Hfew.
  { assert (exists key, key_of v = Some key /\ key ∈ classes) as (key & Hkey & Hin).
    { pose proof Huniq as [_ Hyi]%unique_inverse_inr.
      apply list_elem_of_lookup in Hv as [p Hp].
      destruct (Forall2_lookup_l _ _ _ _ _ Hyi Hp) as (k & _ & key & Hkey & Hk).
      exists key. split; [done|]. by eapply list_elem_of_lookup_2. }
    apply list_elem_of_lookup in Hin as [k Hk].
    pose proof (bincount_count_label y classes yi v key k Huniq Hkey Hk) as Hc.
    rewrite Hone in Hc. apply Exists_exists. exists 1.
    split; [by eapply list_elem_of_lookup_2|lia]. }
  eexists. apply (split_raises_at_classes df y _ g Hy Hlen Hrows).
  { by eapply unique_inverse_no_null. }
  intros n_samples t r s Ht Hr Hn.
  by eapply _iter_indices_few_members.
Qed.

(** X16.  Labels of which some are numbers and some are strings, as the
    ingestion cell leaves them when the CSV holds a label it does not
    encode beside labels it does, make the split raise [TypeError]: the
    classes cannot be sorted. *)
Theorem split_mixed_labels_raises (df : DataFrame) (y : Series)
    (z : Z) (name : string) (g : state) :
  getitem df (Str "label") = inr y ->
  length y = nrows df -> (2 <= nrows df)%nat ->
  existsb isnull y = false ->
  Int z ∈ y -> Str name ∈ y ->
  exists msg, split df g = inl (TypeError msg).
Proof.
  intros Hy Hlen Hrows Hnull Hint Hstr.
  assert (unique_inverse y
          = inl (TypeError "'<' not supported between instances of 'str' and 'int'"))
    as Huniq.
  { unfold unique_inverse.
    assert (is_Some (mapM key_of y)) as [keys Hkeys].
    { apply mapM_is_Some. apply existsb_false in Hnull.
      eapply Forall_impl; [exact Hnull|]. intros v Hv. simpl in Hv.
      destruct v; simpl; [done|by eexists..]. }
    rewrite Hkeys. apply mapM_Some in Hkeys.
    assert (KNum (Qc_of_Z z) ∈ keys) as Hnum.
    { apply list_elem_of_lookup in Hint as [i Hi].
      destruct (Forall2_lookup_l _ _ _ _ _ Hkeys Hi) as (k & Hk & Hkey).
      simpl in Hkey. injection Hkey as <-. by eapply list_elem_of_lookup_2. }
    assert (KStr name ∈ keys) as Hname.
    { apply list_elem_of_lookup in Hstr as [i Hi].
      destruct (Forall2_lookup_l _ _ _ _ _ Hkeys Hi) as (k & Hk & Hkey).
      simpl in Hkey. injection Hkey as <-. by eapply list_elem_of_lookup_2. }
    assert (forallb is_num keys = false) as ->.
    { apply not_true_iff_false. rewrite forallb_forall. intros Hall.
      by specialize (Hall _ (proj1 (list_elem_of_In _ _) Hname)). }
    assert (forallb (fun k => negb (is_num k)) keys = false) as ->.
    { apply not_true_iff_false. rewrite forallb_forall. intros Hall.
      by specialize (Hall _ (proj1 (list_elem_of_In _ _) Hnum)). }
    done. }
  eexists. apply (split_raises_at_classes df y _ g Hy Hlen Hrows Hnull).
  intros n_samples t r s Ht Hr Hn.
  by apply _iter_indices_incomparable.
Qed.

End sizes.

(** ** The test accuracy and the whole run *)

Lemma load_no_null (raw df : DataFrame) :
  load raw = inr df -> isnull_values_any df = false.
Proof.
  unfold load. intros (df0 & Hrename & Hencode)%bind_inr.
  apply isnull_values_any_false.
  assert (no_null (columns df0)) as Hdf0.
  { eapply rename_no_null; [done|]. by apply fillna_no_null. }
  unfold encode_labels in Hencode.
  apply bind_inr in Hencode as (col & Hcol & Hencode).
  rewrite replace_encode in Hencode. simpl in Hencode.
  injection Hencode as <-.
  apply setitem_no_null; [done|].
  apply getitem_elem_of in Hcol.
  unfold no_null in Hdf0. rewrite Forall_forall in Hdf0.
  specialize (Hdf0 _ Hcol). simpl in Hdf0.
  apply Forall_map. eapply Forall_impl; [done|].
  intros v Hv. simpl. by apply encode_not_null.
Qed.

Section evaluation.
Context `{Environment}.

Lemma compute_metrics_singleton (eval_pred : list (list logit) * list Z) m :
  compute_metrics eval_pred = inr m ->
  exists a, m = {[ "accuracy" := a ]}.
Proof.
  unfold compute_metrics. destruct eval_pred as [predictions labels].
  intros (js & _ & (a & _ & [= <-])%bind_inr)%bind_inr. eauto.
Qed.

(** X17.  The accuracy on the test set is the accuracy [compute_metrics]
    gives for what the trainer predicts: the cell returns it when both
    return, and raises what the trainer or the metric raises and nothing
    else; the key [test_accuracy] is always there.  The generator is left
    as it was, the world as the trainer left it. *)
Theorem evaluate_accuracy (t : trainer) (dataset_test : Dataset) (g : state)
    (w : world) :
  (forall a s',
     evaluate t dataset_test (g, w) = inr (a, s')
     <-> s' = (g, (trainer_predict t dataset_test w).2)
         /\ exists eval_pred,
              (trainer_predict t dataset_test w).1 = inr eval_pred
              /\ compute_metrics eval_pred = inr {[ "accuracy" := a ]})
  /\ (forall e,
        evaluate t dataset_test (g, w) = inl e
        <-> (trainer_predict t dataset_test w).1 = inl e
            \/ exists eval_pred,
                 (trainer_predict t dataset_test w).1 = inr eval_pred
                 /\ compute_metrics eval_pred = inl e).
Proof.
  unfold evaluate, mbind, Run_bind, call. cbn [fst snd].
  destruct (trainer_predict t dataset_test w) as [[e0|eval_pred] w'];
    cbn [fst snd].
  { split.
    - intros a s'. split; [done|]. by intros (_ & p & ? & _).
    - intros e. split; [intros [= ->]; by left|].
      intros [[= ->]|(p & ? & _)]; done. }
  destruct (compute_metrics eval_pred) as [e1|m] eqn:Hm; cbn [pure].
  { split.
    - intros a s'. split; [done|]. intros (_ & p & [= <-] & Hp). congruence.
    - intros e. split.
      + intros [= ->]. right. eauto.
      + intros [?|(p & [= <-] & Hp)]; [done|congruence]. }
  destruct (compute_metrics_singleton _ _ Hm) as [a0 ->].
  unfold dict_getitem. rewrite prefixed_accuracy. cbn [pure mret result_ret].
  split.
  - intros a s'. split.
    + intros [= <- <-]. split; [done|]. eauto.
    + intros (-> & p & [= <-] & Hp). rewrite Hm in Hp.
      apply (inj inr) in Hp.
      apply (f_equal (fun m : gmap string scalar => m !! "accuracy")) in Hp.
      rewrite !lookup_singleton_eq in Hp. by injection Hp as ->.
  - intros e. split; [done|].
    intros [?|(p & [= <-] & Hp)]; [done|congruence].
Qed.

End evaluation.

Section whole_run.
Context `{Environment}.

(** X18.  A run of all cells that completes leaves a frame without missing
    values (the check says so), three subsets whose row counts add up to
    the frame's, and three datasets in which every encoding has the three
    lists of length 315, one encoding per sentence of the subset. *)
Theorem run_all_outcome (g : state) (w : world) (s' : state * world)
    (out : Outcome) :
  run_all (g, w) = inr (out, s') ->
  any_null out = false
  /\ isnull_values_any (df out) = false
  /\ (nrows (df_train out) + nrows (df_val out) + nrows (df_test out)
      = nrows (df out))%nat
  /\ Forall fixed_length
       ((dataset_train out).1 ++ (dataset_val out).1 ++ (dataset_test out).1)
  /\ Forall2 (fun frame d =>
                exists sentences,
                  getitem frame (Str "sentence") = inr sentences
                  /\ length d.1 = length sentences
                  /\ getitem frame (Str "label") = inr d.2)
       [df_train out; df_val out; df_test out]
       [dataset_train out; dataset_val out; dataset_test out].
Proof.
  unfold run_all. intros Hrun.
  apply run_bind_inr in Hrun as ([] & s1 & _ & Hrun).
  apply run_bind_inr in Hrun as (df & s2 & Hingest & Hrun).
  apply run_bind_inr in Hrun as ([any longest] & s3 & Hexplore & Hrun).
  apply run_bind_inr in Hrun as ([[a b] c] & [g4 w4] & Hsplit & Hrun).
  apply run_bind_inr in Hrun as ([results_df acc] & s5 & _ & Hrun).
  apply run_bind_inr in Hrun
    as ([[da db] dc] & s6 & [Hdatasets _]%pure_inr & Hrun).
  apply run_bind_inr in Hrun as (t & s7 & _ & Hrun).
  apply run_bind_inr in Hrun as (t' & s8 & _ & Hrun).
  apply run_bind_inr in Hrun as (acc_test & s9 & _ & Hrun).
  apply run_bind_inr in Hrun as ([] & s10 & _ & [-> _]%run_ret_inr).
  cbn [any_null Notebook.df df_train df_val df_test dataset_train dataset_val
         dataset_test].
  destruct s3 as [g3 w3].
  apply draw_inr in Hsplit as (g4' & Hsplit & _).
  assert (isnull_values_any df = false) as Hnull.
  { unfold ingest in Hingest.
    apply run_bind_inr in Hingest as (raw & s & _ & [Hload _]%pure_inr).
    by eapply load_no_null. }
  split.
  { unfold explore in Hexplore.
    apply run_bind_inr in Hexplore
      as (l & s & _ & [[= -> _] _]%run_ret_inr).
    done. }
  split; [done|]. split.
  { apply split_inr in Hsplit
      as (y & train & val & test & _ & _ & Ha & Hb & Hc & Hperm & _).
    rewrite (nrows_iloc _ _ _ Ha), (nrows_iloc _ _ _ Hb), (nrows_iloc _ _ _ Hc).
    apply Permutation_length in Hperm.
    rewrite !length_app, length_seq in Hperm. lia. }
  apply datasets_inr in Hdatasets as Hall.
  inversion Hall as [|? ? ? ? (_ & _ & ss1 & Hs1 & Hl1 & Hd1) Hall2]; subst.
  inversion Hall2 as [|? ? ? ? (_ & _ & ss2 & Hs2 & Hl2 & Hd2) Hall3]; subst.
  inversion Hall3 as [|? ? ? ? (_ & _ & ss3 & Hs3 & Hl3 & Hd3) _]; subst.
  split.
  - rewrite Hd1, Hd2, Hd3, !Forall_app.
    repeat split; apply encode_plus_fixed_length.
  - repeat constructor; eexists; (split; [eassumption|]); split;
      try done; by rewrite ?Hd1, ?Hd2, ?Hd3, !length_map.
Qed.

End whole_run.

(** * The model on concrete inputs *)

(** Without [reset_index], [concat] would not pair the rows of the test set
    with those of the results: it joins on the row labels, and the test set
    keeps the labels it had in the whole frame.  A frame with a label twice
    cannot be joined with another index. *)
Example concat_joins_on_the_index :
  concat_axis1 (mkDataFrame [7; 3] [(Str "label", [Int 1; Int 0])])
    (mkDataFrame [0; 1] [(Str "pred", [Int 0; Int 0])])
  = inr (mkDataFrame [7; 3; 0; 1]
           [(Str "label", [Int 1; Int 0; NaN; NaN]);
            (Str "pred", [NaN; NaN; Int 0; Int 0])])
  /\ concat_axis1
       (reset_index_drop (mkDataFrame [7; 3] [(Str "label", [Int 1; Int 0])]))
       (mkDataFrame [0; 1] [(Str "pred", [Int 0; Int 0])])
     = inr (mkDataFrame [0; 1]
              [(Str "label", [Int 1; Int 0]); (Str "pred", [Int 0; Int 0])])
  /\ concat_axis1 (mkDataFrame [1; 1] [(Str "label", [Int 1; Int 0])])
       (mkDataFrame [0; 1] [(Str "pred", [Int 0; Int 0])])
     = inl (Exn "InvalidIndexError"
              "Reindexing only valid with uniquely valued Index objects").
Proof. repeat split; vm_compute; reflexivity. Qed.

(** A frame without rows gets no tokenizer columns, and [set_format] refuses
    it; a label column of integers and strings is refused by a conversion
    that wants one kind of value per column. *)
Example datasets_refused :
  @datasets uniform characters (frame []) two_scored two_scored
  = inl (ValueError "Columns not in the dataset")
  /\ @datasets uniform characters unencoded two_scored two_scored
     = inl (Exn "ArrowInvalid" "Could not convert the column").
Proof. split; vm_compute; reflexivity. Qed.

(** A map of the scores that keeps their order but merges two of them can
    move the maximum, and the accuracy with it. *)
Example merged_scores_move_the_argmax :
  @compute_metrics Z Z_score ([[1; 5; 2]], [1])
  = inr {[ "accuracy" := Float (Q2Qc 1) ]}
  /\ @compute_metrics Z Z_score (map (map (Z.min 1)) [[1; 5; 2]], [1])
     = inr {[ "accuracy" := Float (Q2Qc 0) ]}.
Proof. split; vm_compute; reflexivity. Qed.

(** The sizes the notebook prints for its 4846 rows: 3924 train, 437
    validation, 485 test. *)
Example sizes_of_the_dataset :
  _validate_shuffle_split 4846 (Some (Fraction (Q2Qc (1 # 10)))) None None
    = inr (4361, 485)
  /\ _validate_shuffle_split 4361 (Some (Fraction (Q2Qc (1 # 10)))) None None
     = inr (3924, 437).
Proof. split; vm_compute; reflexivity. Qed.

(** With 2879 neutral, 1363 positive and 604 negative rows, the test set
    gets the 288, 136 and 61 rows the notebook counts in it; and 288 of 485
    is the share of no whole number of rows out of 4846. *)
Example classes_of_the_test_set :
  (exists n_i g,
     @_approximate_mode rotating [2879; 1363; 604] 4361 0%nat = inr (n_i, g)
     /\ zip_with Z.sub [2879; 1363; 604] n_i = [288; 136; 61])
  /\ forall c : Z, 288 * 4846 <> c * 485.
Proof.
  split; [eexists _, _; split; vm_compute; reflexivity|]. intros c. lia.
Qed.

(** A frame of the notebook's shape and size is split into the 3924, 437
    and 485 rows the notebook prints: 4846 rows, three labels, each on
    three rows or more. *)
Lemma split_of_the_dataset `{RandomState} (df : DataFrame) (y : Series)
    classes yi (g : state) :
  rectangular df -> nrows df = 4846%nat ->
  getitem df (Str "label") = inr y ->
  unique_inverse y = inr (classes, yi) ->
  length classes = 3%nat ->
  Forall (fun c => 3 <= c) (bincount (length classes) yi) ->
  exists df_train df_val df_test,
    split df g = inr ((df_train, df_val, df_test), g)
    /\ nrows df_train = 3924%nat /\ nrows df_val = 437%nat
    /\ nrows df_test = 485%nat.
Proof.
  intros Hrect Hrows Hy Huniq Hk Hcounts.
  destruct (split_returns df y classes yi 4361 485 3924 437 g Hrect Hy Huniq
              Hcounts)
    as (df_train & df_val & df_test & Hsplit & Htrain & Hval & Htest).
  - rewrite Hrows. vm_compute. reflexivity.
  - vm_compute. reflexivity.
  - rewrite Hk. lia.
  - exists df_train, df_val, df_test. split; [done|]. lia.
Qed.

(** [np.argmax] of a row with [nan] is the position of the first [nan]. *)
Example argmax_of_nan :
  @argmax _ float_score [Some (Q2Qc 1); None; Some (Q2Qc 5); None]
  = inr 1%nat.
Proof. vm_compute. reflexivity. Qed.

(** Without a seed the split follows the global generator. *)
Example unseeded_split_depends_on_the_generator :
  fst <$> @train_test_split rotating three_rows (replicate 3 (Int 0))
            (Some (Fraction (Q2Qc (1 # 10)))) None 0%nat
  <> fst <$> @train_test_split rotating three_rows (replicate 3 (Int 0))
               (Some (Fraction (Q2Qc (1 # 10)))) None 1%nat.
Proof. vm_compute. discriminate. Qed.

(** Whatever is drawn, the test set of [thirteen_rows] cannot hold the label
    1 in the proportion 2 to 13 of the whole frame. *)
Lemma thirteen_rows_never_exact `{RandomState} g df_train df_val df_test g' :
  split thirteen_rows g = inr ((df_train, df_val, df_test), g') ->
  label_count df_test (Int 1) * Z.of_nat (nrows thirteen_rows)
  <> label_count thirteen_rows (Int 1) * Z.of_nat (nrows df_test).
Proof.
  intros (y & train & val & test & Hy & Hlen & Htrain & Hval & Htest & Hperm
          & Htr_ne & Hva_ne & Hte_ne & _)%split_inr.
  rewrite (nrows_iloc _ _ _ Htest).
  apply Permutation_length in Hperm. rewrite !length_app, length_seq in Hperm.
  assert (0 < length train)%nat by (destruct train; [done|simpl; lia]).
  assert (0 < length val)%nat by (destruct val; [done|simpl; lia]).
  assert (0 < length test)%nat by (destruct test; [done|simpl; lia]).
  change (nrows thirteen_rows) with 13%nat in *.
  change (label_count thirteen_rows (Int 1)) with 2.
  lia.
Qed.

(** * The statements on concrete inputs *)

Lemma no_null_after_load_witness :
  isnull_values_any two_rows = true
  /\ exists df, load two_rows = inr df /\ isnull_values_any df = false.
Proof.
  split; [reflexivity|].
  eexists. split; [reflexivity|].
  apply (no_null_after_load two_rows). reflexivity.
Defined.

Lemma label_outside_codes :
  exists df, load capitalised = inr df
    /\ getitem df (Str "label") = inr [Str "Neutral"]
    /\ Str "Neutral" ∉ label_codes.
Proof.
  eexists. split; [reflexivity|]. split; [reflexivity|].
  by_computation.
Qed.

Lemma tokenized_length_witness :
  exists d_train d_val d_test,
    @datasets uniform characters two_scored two_scored two_scored
    = inr (d_train, d_val, d_test)
    /\ length d_train.1 = 2%nat
    /\ d_test.2 = [Int 1; Int 0]
    /\ Forall fixed_length (d_train.1 ++ d_val.1 ++ d_test.1).
Proof.
  eexists _, _, _. split; [vm_compute; reflexivity|].
  split; [reflexivity|]. split; [reflexivity|].
  refine (proj1 (@tokenized_length uniform characters two_scored two_scored
                   two_scored _ _ _ _)).
  vm_compute. reflexivity.
Defined.

Lemma compute_metrics_accuracy_witness :
  [[1; 5; 2]; [3; 0; 0]] <> []
  /\ Forall (fun row : list Z => row <> []) [[1; 5; 2]; [3; 0; 0]]
  /\ @compute_metrics Z Z_score ([[1; 5; 2]; [3; 0; 0]], [1; 2])
     = inr {[ "accuracy" :=
                Float (Q2Qc (Z.of_nat (length (filter (@hit Z Z_score)
                                                 (zip [[1; 5; 2]; [3; 0; 0]] [1; 2])))
                             # Pos.of_nat 2)) ]}.
Proof.
  assert ([[1; 5; 2]; [3; 0; 0]] <> []) as Hne by done.
  assert (Forall (fun row : list Z => row <> []) [[1; 5; 2]; [3; 0; 0]]) as Hrows
    by (repeat constructor; done).
  split; [exact Hne|]. split; [exact Hrows|].
  exact (@compute_metrics_accuracy Z Z_score [[1; 5; 2]; [3; 0; 0]] [1; 2]
           Hne Hrows eq_refl).
Defined.

Lemma correct_flag_witness :
  exists results_df,
    baseline_frame two_scored two_results = inr results_df
    /\ getitem results_df (Str "Correct") = inr [Bool false; Bool true].
Proof.
  refine (proj2 (correct_flag two_scored [Positive; Neutral] [Neutral; Neutral]
                   [Str "Sales rose ."; Str "The plant opens in May ."]
                   two_results _ eq_refl eq_refl eq_refl eq_refl eq_refl eq_refl)).
  done.
Defined.

(** A frame of one row is refused before anything is drawn, whatever the
    generator. *)
Lemma split_one_row_raises :
  nrows one_row = 1%nat
  /\ @split rotating one_row 0%nat
     = inl (ValueError "the resulting train set will be empty")
  /\ forall (R : RandomState) (g : state),
       split one_row g
       = inl (ValueError "the resulting train set will be empty").
Proof. split; [reflexivity|]. split; [reflexivity|]. intros R g. reflexivity. Qed.

Lemma split_partition_witness :
  exists df_train df_val df_test,
    @split rotating three_rows 0%nat = inr ((df_train, df_val, df_test), 0%nat)
    /\ (nrows df_train + nrows df_val + nrows df_test = nrows three_rows)%nat.
Proof.
  eexists _, _, _. split.
  - vm_compute. reflexivity.
  - eapply (@split_partition rotating three_rows 0%nat). vm_compute. reflexivity.
Defined.

(** Of 13 rows, 2 with the label 1, the test set gets 2 rows and none with
    the label 1, whatever the generator: 0 of 2 is not 2 of 13. *)
Lemma split_thirteen_rows_not_exact :
  label_count thirteen_rows (Int 1) = 2
  /\ nrows thirteen_rows = 13%nat
  /\ (exists df_train df_val df_test,
        @split rotating thirteen_rows 0%nat
        = inr ((df_train, df_val, df_test), 0%nat)
        /\ label_count df_test (Int 1) = 0
        /\ nrows df_test = 2%nat
        /\ label_count df_test (Int 1) * Z.of_nat (nrows thirteen_rows)
           <> label_count thirteen_rows (Int 1) * Z.of_nat (nrows df_test))
  /\ forall (R : RandomState) (g g' : state) df_train df_val df_test,
       split thirteen_rows g = inr ((df_train, df_val, df_test), g') ->
       label_count df_test (Int 1) * Z.of_nat (nrows thirteen_rows)
       <> label_count thirteen_rows (Int 1) * Z.of_nat (nrows df_test).
Proof.
  split; [reflexivity|]. split; [reflexivity|]. split.
  - eexists _, _, _. split; [vm_compute; reflexivity|].
    repeat split; try reflexivity. vm_compute. discriminate.
  - intros R g g' df_train df_val df_test.
    apply thirteen_rows_never_exact.
Qed.

Lemma split_stratified_witness :
  exists df_train df_val df_test,
    @split rotating thirteen_rows 0%nat
    = inr ((df_train, df_val, df_test), 0%nat)
    /\ Z.abs (label_count df_test (Int 1) * 13
              - label_count thirteen_rows (Int 1) * Z.of_nat (nrows df_test)) < 13.
Proof.
  eexists _, _, _. split.
  - vm_compute. reflexivity.
  - eapply (@split_stratified rotating thirteen_rows 0%nat). vm_compute. reflexivity.
Defined.

Lemma load_keeps_rows_witness :
  exists df, load two_rows = inr df
    /\ index df = [0; 1]
    /\ getitem df (Str "sentence") = inr [Str ""; Str "Sales rose ."].
Proof.
  eexists. split; [reflexivity|].
  split; [|reflexivity].
  apply (load_keeps_rows two_rows). reflexivity.
Defined.

Lemma encode_labels_idempotent_witness :
  exists df, encode_labels mixed_case = inr df
    /\ getitem df (Str "label") = inr [Int 0; Str "Neutral"]
    /\ encode_labels df = inr df.
Proof.
  eexists. split; [reflexivity|]. split; [reflexivity|].
  apply (encode_labels_idempotent mixed_case). reflexivity.
Defined.

Lemma max_sentence_length_longest_witness :
  exists m, max_sentence_length two_scored = inr (Int m)
    /\ Forall (fun s => Z.of_nat (String.length s) <= m)
         ["Sales rose ."; "The plant opens in May ."]%string
    /\ Exists (fun s => Z.of_nat (String.length s) = m)
         ["Sales rose ."; "The plant opens in May ."]%string.
Proof.
  apply (max_sentence_length_longest two_scored
           ["Sales rose ."; "The plant opens in May ."]%string);
    [reflexivity|done].
Defined.

Lemma max_sentence_length_raises_witness :
  exists msg, max_sentence_length numbered = inl (TypeError msg).
Proof.
  apply (max_sentence_length_raises numbered
           [Str "Sales rose ."; Int 2019] (Int 2019)).
  - reflexivity.
  - apply list_elem_of_further, list_elem_of_here.
  - intros s. discriminate.
Defined.

Lemma compute_metrics_range_witness :
  exists a : Qc,
    @compute_metrics Z Z_score ([[1; 5; 2]; [3; 0; 0]], [1; 2])
    = inr {[ "accuracy" := Float a ]}
    /\ (0 <= a <= 1)%Qc.
Proof.
  destruct (@compute_metrics_range Z Z_score [[1; 5; 2]; [3; 0; 0]] [1; 2])
    as (a & Ha & Hrange & _).
  - done.
  - repeat constructor; done.
  - reflexivity.
  - exists a. by split.
Defined.

Lemma compute_metrics_raises_witness :
  exists msg,
    @compute_metrics Z Z_score ([[1; 5; 2]; [3; 0; 0]], [1]) = inl (ValueError msg).
Proof.
  apply (@compute_metrics_raises Z Z_score [[1; 5; 2]; [3; 0; 0]] [1]).
  right. split; [repeat constructor; done|]. simpl. lia.
Defined.

Lemma compute_metrics_rescaled_witness :
  @compute_metrics Z Z_score
    (map (map (fun x => 2 * x + 1)) [[1; 5; 2]; [3; 0; 0]], [1; 2])
  = @compute_metrics Z Z_score ([[1; 5; 2]; [3; 0; 0]], [1; 2]).
Proof.
  apply (@compute_metrics_rescaled Z Z_score Z Z_score (fun x => 2 * x + 1)).
  intros x y. simpl.
  destruct (Z.leb_spec (2 * x + 1) (2 * y + 1)), (Z.leb_spec x y); lia.
Defined.

Lemma baseline_frame_rows_witness :
  exists results_df,
    baseline_frame two_scored two_results = inr results_df
    /\ index results_df = [0; 1]
    /\ getitem results_df (Str "pred") = inr [Int 0; Int 0].
Proof.
  assert (two_results <> []) as Hne by done.
  destruct (baseline_frame_rows two_scored
              [Str "Sales rose ."; Str "The plant opens in May ."]
              [Int 1; Int 0] two_results Hne eq_refl eq_refl eq_refl)
    as (results_df & Hframe & Hindex & _ & _ & _ & Hpred & _).
  exists results_df. split; [done|]. split; [exact Hindex|exact Hpred].
Defined.

Lemma baseline_accuracy_share_witness :
  exists results_df,
    baseline_frame two_scored two_results = inr results_df
    /\ baseline_accuracy results_df = inr (Float (Q2Qc (1 # 2))).
Proof.
  assert (two_results <> []) as Hne by done.
  destruct (baseline_accuracy_share two_scored
              [Str "Sales rose ."; Str "The plant opens in May ."]
              [Int 1; Int 0] two_results Hne eq_refl eq_refl eq_refl)
    as (results_df & a & Hframe & Hacc & -> & _).
  exists results_df. split; [done|]. rewrite Hacc. reflexivity.
Defined.

Lemma split_sizes_witness :
  exists df_train df_val df_test,
    @split rotating thirteen_rows 0%nat
    = inr ((df_train, df_val, df_test), 0%nat)
    /\ Z.of_nat (nrows df_test) = 2
    /\ Z.of_nat (nrows df_val) = 2
    /\ Z.of_nat (nrows df_train) = 9.
Proof.
  eexists _, _, _. split; [vm_compute; reflexivity|].
  refine ((fun p => conj (proj1 p) (conj (proj1 (proj2 p)) (proj1 (proj2 (proj2 p)))))
            (@split_sizes rotating thirteen_rows 0%nat _ _ _ 0%nat _)).
  vm_compute. reflexivity.
Defined.

Lemma split_succeeds_witness :
  exists df_train df_val df_test,
    @split rotating three_rows 5%nat = inr ((df_train, df_val, df_test), 5%nat).
Proof.
  apply (@split_succeeds rotating three_rows (replicate 3 (Int 0))
           [KNum (Qc_of_Z 0)] [0; 0; 0]%nat 5%nat).
  - repeat constructor.
  - by_computation.
  - reflexivity.
  - vm_compute. reflexivity.
  - repeat constructor. vm_compute. discriminate.
  - vm_compute. discriminate.
Defined.

Lemma split_single_member_raises_witness :
  exists msg, @split rotating lone_label 0%nat = inl (ValueError msg).
Proof.
  apply (@split_single_member_raises rotating lone_label [Int 0; Int 0; Int 1]
           [KNum (Qc_of_Z 0); KNum (Qc_of_Z 1)] [0; 0; 1]%nat (Int 1) 0%nat).
  - reflexivity.
  - reflexivity.
  - by_computation.
  - vm_compute. reflexivity.
  - do 2 apply list_elem_of_further. apply list_elem_of_here.
  - vm_compute. reflexivity.
Defined.

Lemma split_mixed_labels_raises_witness :
  exists msg, @split rotating unencoded 0%nat = inl (TypeError msg).
Proof.
  apply (@split_mixed_labels_raises rotating unencoded [Int 0; Str "Neutral"]
           0 "Neutral" 0%nat).
  - reflexivity.
  - reflexivity.
  - by_computation.
  - reflexivity.
  - apply list_elem_of_here.
  - apply list_elem_of_further, list_elem_of_here.
Defined.

Lemma run_all_outcome_witness :
  exists out,
    @run_all stub (0%nat, 0%nat) = inr (out, (42%nat, 10%nat))
    /\ any_null out = false
    /\ (nrows (df_train out) + nrows (df_val out) + nrows (df_test out)
        = nrows (df out))%nat.
Proof.
  eexists. split; [vm_compute; reflexivity|].
  refine ((fun p => conj (proj1 p) (proj1 (proj2 (proj2 p))))
            (@run_all_outcome stub 0%nat 0%nat (42%nat, 10%nat) _ _)).
  vm_compute. reflexivity.
Defined.
